(** * UKEC offer follow-up generator: a shallow embedding of [app.py]

    The development embeds the transformation core of [app.py] (the value
    sanitizer, the hyperlink extractors, the per-client grouping and ranking,
    the per-client sheet builder, the cross-reference linker, the deadline
    rollup and the validation-list synthesizer) and proves the properties the
    specification states about them.

    Conventions.
    - A Python [str] is the list of its code points ([pystr]); string
      constants are written as UTF-8 literals and decoded by [utf8].
    - Python integers are [Z]; row and column numbers of a worksheet are
      [nat] (openpyxl counts them from 1).
    - A cell or data-frame value is a [value]; the constructors cover what a
      CSV column and an openpyxl cell hold in this program. Floating-point
      numbers other than NaN are outside the model, and a timestamp is kept
      as its calendar date (the program only ever calls [.date()] on it).
    - Builtins whose full definition lives outside the repository are either
      modelled after their documented behaviour ([str.split], [str.strip],
      [str.startswith], [str(int)], [Series.unique], the stable sorts of
      pandas and of [list.sort], the cell dictionary of openpyxl) or, for
      [int(str)] and [pd.to_datetime], left abstract behind the classes
      [IntOfStr] and [ToDatetime].
    - The tracking sheet is seen through its identifier column, which is
      taken to exist (without it the run is aborted at line 538).
    - Left out, as no stated property reads them: the VIP sheet, the colours
      of the status column, column widths, alignment, and the packaging of
      the two workbooks. *)

From Stdlib Require Import ZArith NArith String Ascii DecimalZ.
From stdpp Require Import gmap list sorting.

(** ** Strings *)

Definition pystr := list N.

(** Decoder for the UTF-8 literals of this file (well-formed by construction). *)
Fixpoint utf8 (s : string) : pystr :=
  match s with
  | EmptyString => []
  | String a r =>
    let b := N_of_ascii a in
    if (b <? 128)%N then b :: utf8 r
    else match r with
    | EmptyString => []
    | String a1 r1 =>
      let b1 := (N_of_ascii a1 - 128)%N in
      if (b <? 224)%N then ((b - 192) * 64 + b1)%N :: utf8 r1
      else match r1 with
      | EmptyString => []
      | String a2 r2 =>
        let b2 := (N_of_ascii a2 - 128)%N in
        if (b <? 240)%N then ((b - 224) * 4096 + b1 * 64 + b2)%N :: utf8 r2
        else match r2 with
        | EmptyString => []
        | String a3 r3 =>
          ((b - 240) * 262144 + b1 * 4096 + b2 * 64
           + (N_of_ascii a3 - 128))%N :: utf8 r3
        end
      end
    end
  end.

Arguments utf8 s%_string : simpl never.

(** [len(s)] as a Python integer. *)
Definition len {A} (l : list A) : Z := Z.of_nat (length l).

(** [s.replace(old, new)] for one-character [old] and [new]. *)
Definition replace_char (old new : N) (s : pystr) : pystr :=
  map (λ c, if (c =? old)%N then new else c) s.

(** [s.startswith(p)]. *)
Fixpoint startswith (p s : pystr) : bool :=
  match p, s with
  | [], _ => true
  | a :: p', b :: s' => (a =? b)%N && startswith p' s'
  | _ :: _, [] => false
  end.

(** [s.split(sep)] for a one-character separator: never empty, one more
    segment than there are separators. *)
Fixpoint split_on (sep : N) (s : pystr) : list pystr :=
  match s with
  | [] => [[]]
  | c :: r =>
    if (c =? sep)%N then [] :: split_on sep r
    else match split_on sep r with
         | seg :: segs => (c :: seg) :: segs
         | [] => [[c]]
         end
  end.

(** [str.isspace] on one character: the code points CPython treats as
    whitespace. *)
Definition is_space (c : N) : bool :=
  ((9 <=? c) && (c <=? 13) || (28 <=? c) && (c <=? 32) || (c =? 133)
   || (c =? 160) || (c =? 5760) || (8192 <=? c) && (c <=? 8202)
   || (c =? 8232) || (c =? 8233) || (c =? 8239) || (c =? 8287)
   || (c =? 12288))%N.

Fixpoint lstrip (s : pystr) : pystr :=
  match s with
  | c :: r => if is_space c then lstrip r else s
  | [] => []
  end.

(** [s.strip()]. *)
Definition strip (s : pystr) : pystr := rev (lstrip (rev (lstrip s))).

(** ** Dates

    [datetime.date] with CPython's proleptic Gregorian ordinal; the [days]
    of a difference of two dates is the difference of their ordinals. *)

Record date := Date { year : Z; month : Z; day : Z }.

Definition is_leap (y : Z) : bool :=
  ((y mod 4 =? 0) && (negb (y mod 100 =? 0) || (y mod 400 =? 0)))%Z.

Definition days_before_year (y : Z) : Z :=
  (let p := y - 1 in p * 365 + p / 4 - p / 100 + p / 400)%Z.

Definition days_in_month (y m : Z) : Z :=
  (if m =? 2 then (if is_leap y then 29 else 28)
   else if (m =? 4) || (m =? 6) || (m =? 9) || (m =? 11) then 30 else 31)%Z.

Definition days_before_month (y m : Z) : Z :=
  foldr (λ k acc, (days_in_month y (Z.of_nat k) + acc)%Z) 0%Z
        (seq 1 (Z.to_nat (m - 1))).

Definition toordinal (d : date) : Z :=
  (days_before_year (year d) + days_before_month (year d) (month d) + day d)%Z.

(** [(a - b).days]. *)
Definition days_between (a b : date) : Z := (toordinal a - toordinal b)%Z.

(** ** Values *)

Inductive value :=
| VNone                 (* None *)
| VNaN                  (* float('nan'), pandas' missing marker *)
| VNaT                  (* pandas.NaT *)
| VBool (b : bool)
| VInt (n : Z)
| VStr (s : pystr)
| VDate (d : date).     (* pandas.Timestamp at midnight *)

#[global] Instance date_eq_dec : EqDecision date.
Proof. solve_decision. Defined.
#[global] Instance value_eq_dec : EqDecision value.
Proof. solve_decision. Defined.

(** Truth value of an object in a condition. *)
Definition truthy (v : value) : bool :=
  match v with
  | VNone => false
  | VBool b => b
  | VInt n => negb (n =? 0)%Z
  | VStr s => negb (bool_decide (s = []))
  | VNaN | VNaT | VDate _ => true
  end.

(** [pd.isna] / [pd.notna] on a scalar. *)
Definition isna (v : value) : bool :=
  match v with
  | VNone | VNaN | VNaT => true
  | _ => false
  end.

(** *** [str(n)] for an integer: decimal digits, a leading minus sign. *)

Fixpoint uint_codes (d : Decimal.uint) : pystr :=
  match d with
  | Decimal.Nil => []
  | Decimal.D0 r => 48%N :: uint_codes r
  | Decimal.D1 r => 49%N :: uint_codes r
  | Decimal.D2 r => 50%N :: uint_codes r
  | Decimal.D3 r => 51%N :: uint_codes r
  | Decimal.D4 r => 52%N :: uint_codes r
  | Decimal.D5 r => 53%N :: uint_codes r
  | Decimal.D6 r => 54%N :: uint_codes r
  | Decimal.D7 r => 55%N :: uint_codes r
  | Decimal.D8 r => 56%N :: uint_codes r
  | Decimal.D9 r => 57%N :: uint_codes r
  end.

Definition str_of_Z (n : Z) : pystr :=
  match Z.to_int n with
  | Decimal.Pos d => uint_codes d
  | Decimal.Neg d => 45%N :: uint_codes d
  end.

(** Zero-padded decimal of a non-negative number, as in [%04d]. *)
Definition zero_pad (width : nat) (n : Z) : pystr :=
  let s := str_of_Z n in replicate (width - length s) 48%N ++ s.

(** [str(v)]. *)
Definition py_str (v : value) : pystr :=
  match v with
  | VNone => utf8 "None"
  | VNaN => utf8 "nan"
  | VNaT => utf8 "NaT"
  | VBool true => utf8 "True"
  | VBool false => utf8 "False"
  | VInt n => str_of_Z n
  | VStr s => s
  | VDate d =>
    zero_pad 4 (year d) ++ utf8 "-" ++ zero_pad 2 (month d) ++ utf8 "-"
    ++ zero_pad 2 (day d) ++ utf8 " 00:00:00"
  end.

Definition is_digit (c : N) : Prop := (48 ≤ c ≤ 57)%N.

(** *** [int(s)]

    The builtin accepts more than plain decimals (surrounding whitespace, a
    sign, underscores, any Unicode decimal digit) and its exact grammar is
    not part of the repository: it is a parameter. [None] stands for
    [ValueError]. *)
Class IntOfStr := int_of_str : pystr → option Z.

(** What the development needs of it: it reads back what [str] prints. *)
Class IntOfStrSpec `{IntOfStr} :=
  int_of_str_of_Z : ∀ n : Z, int_of_str (str_of_Z n) = Some n.

(** A reference parser for plain decimals, [-?[0-9]+]. *)
Fixpoint digits_value (acc : Z) (s : pystr) : option Z :=
  match s with
  | [] => Some acc
  | c :: r =>
    if ((48 <=? c) && (c <=? 57))%N
    then digits_value (10 * acc + Z.of_N (c - 48))%Z r
    else None
  end.

Definition decimal_int (s : pystr) : option Z :=
  match s with
  | [] => None
  | c :: r =>
    if (c =? 45)%N
    then match r with [] => None | _ => Z.opp <$> digits_value 0 r end
    else digits_value 0 s
  end.

(** ** Value Sanitizer *)

Definition fw_lparen : N := Eval vm_compute in default 0%N (head (utf8 "（")).
Definition fw_rparen : N := Eval vm_compute in default 0%N (head (utf8 "）")).

Definition EXCEL_CELL_MAX : Z := 32767.

Definition clean_str (value : pystr) : pystr :=
  let value := replace_char fw_rparen 41 (replace_char fw_lparen 40 value) in
  let value := replace_char 13 32 (replace_char 10 32 value) in
  let value := List.filter (λ char, (32 <=? char)%N) value in
  if (len value >? EXCEL_CELL_MAX)%Z
  then take (Z.to_nat EXCEL_CELL_MAX) value
  else value.

Definition clean_excel_value (v : value) : value :=
  match v with
  | VStr s => VStr (clean_str s)
  | _ => v
  end.

(** A character the sanitizer lets through unchanged. *)
Definition storable (c : N) : Prop :=
  (32 ≤ c)%N ∧ c ≠ fw_lparen ∧ c ≠ fw_rparen.

(** Sheet-name variant: the characters [[ ] : * ? / \] become underscores,
    then the general sanitizer, then at most 31 characters. *)
Definition sheet_forbidden (c : N) : bool :=
  bool_decide (c ∈ [91; 93; 58; 42; 63; 47; 92]%N).

Definition clean_sheet_name (name : value) : pystr :=
  let name := match name with VStr s => s | _ => py_str name end in
  let cleaned_name := map (λ c, if sheet_forbidden c then 95%N else c) name in
  let cleaned_name := clean_str cleaned_name in
  if (len cleaned_name >? 31)%Z then take 31 cleaned_name else cleaned_name.

(** ** Identity Extractor *)

Definition dquote : N := 34.
Definition HYPERLINK : pystr := utf8 "=HYPERLINK".

(** The fourth segment of the value split at double quotes, then [int];
    [IndexError] and [ValueError] fall back to the value itself. *)
Definition extract_id_from_hyperlink `{IntOfStr} (v : value) : value :=
  match v with
  | VStr s =>
    if startswith HYPERLINK s then
      match split_on dquote s !! 3%nat with
      | Some id_str =>
        match int_of_str id_str with
        | Some n => VInt n
        | None => v
        end
      | None => v
      end
    else v
  | _ => v
  end.

(** The last but one segment of the value split at double quotes. *)
Definition extract_name_from_hyperlink (v : value) : value :=
  match v with
  | VStr s =>
    if startswith HYPERLINK s then
      match rev (split_on dquote s) !! 1%nat with
      | Some name => VStr name
      | None => v
      end
    else v
  | _ => v
  end.

(** The formula text the program writes: [=HYPERLINK(], the quoted url, a
    comma and a blank, the quoted display text, [)]. *)
Definition hyperlink (url text : pystr) : pystr :=
  HYPERLINK ++ utf8 "(" ++ [dquote] ++ url ++ [dquote] ++ utf8 ", "
  ++ [dquote] ++ text ++ [dquote] ++ utf8 ")".

(** The same shape with an arbitrary separator between the two quoted
    arguments (the specification also writes it without the space). *)
Definition hyperlink_with (sep url text : pystr) : pystr :=
  HYPERLINK ++ utf8 "(" ++ [dquote] ++ url ++ [dquote] ++ sep
  ++ [dquote] ++ text ++ [dquote] ++ utf8 ")".

(** A string of the link-formula form: two quoted arguments without inner
    quotes, separated by a comma or by a comma and a blank. *)
Definition link_form (s : pystr) : Prop :=
  ∃ sep u t, (dquote ∉ u) ∧ (dquote ∉ t) ∧
    (sep = utf8 "," ∨ sep = utf8 ", ") ∧ s = hyperlink_with sep u t.

(** ** The flat dataset

    The columns the program keeps ([columns_to_keep]); a row of the data
    frame gives a value to each of them. *)

Inductive column :=
| ClientId | Name | School | Program | Result | StudentNumber | Admission
| LanguageDone | Language | ReferenceDone | Reference | DepositType
| DepositDeadline | DepositDone | DepositCond.

#[global] Instance column_eq_dec : EqDecision column.
Proof. solve_decision. Defined.

Definition column_name (c : column) : pystr :=
  match c with
  | ClientId => utf8 "客户id"
  | Name => utf8 "姓名"
  | School => utf8 "申请院校英文"
  | Program => utf8 "申请专业英文"
  | Result => utf8 "申请结果"
  | StudentNumber => utf8 "Student-Number"
  | Admission => utf8 "入学条件"
  | LanguageDone => utf8 "是否完成语言条件"
  | Language => utf8 "语言条件"
  | ReferenceDone => utf8 "是否完成推荐信条件"
  | Reference => utf8 "推荐信条件"
  | DepositType => utf8 "押金类型"
  | DepositDeadline => utf8 "押金截止日期"
  | DepositDone => utf8 "是否完成押金条件"
  | DepositCond => utf8 "成押金条件"
  end.

Definition columns_to_keep : list column :=
  [ClientId; Name; School; Program; Result; StudentNumber; Admission;
   LanguageDone; Language; ReferenceDone; Reference; DepositType;
   DepositDeadline; DepositDone; DepositCond].

Definition row := column → value.

Record dataframe := DataFrame {
  df_has : column → bool;      (* which kept columns the CSV file has *)
  df_rows : list row
}.

Definition existing_columns (df : dataframe) : list column :=
  List.filter (df_has df) columns_to_keep.

Definition display_columns (df : dataframe) : list column :=
  List.filter (λ col, negb (bool_decide (col ∈ [ClientId; Name])))
              (existing_columns df).

Definition NOT_OBTAINED : pystr := utf8 "未获得".
Definition UNKNOWN_NAME : pystr := utf8 "未知姓名".

(** [template_df.replace('未获得', '')] on one cell. *)
Definition replace_not_obtained (v : value) : value :=
  if bool_decide (v = VStr NOT_OBTAINED) then VStr [] else v.

(** [pd.to_datetime] on a string, kept as a parameter: [None] when it
    raises or yields [NaT]. (A missing deadline is kept as [None] below;
    pandas shows it as [NaT] once the column holds dates. Both are missing
    for [pd.notna].) *)
Class ToDatetime := to_datetime : pystr → option date.

(** First whitespace-separated token, [date_str.split()[0]]. *)
Fixpoint take_token (s : pystr) : pystr :=
  match s with
  | c :: r => if is_space c then [] else c :: take_token r
  | [] => []
  end.

Definition first_token (s : pystr) : pystr := take_token (lstrip s).

Definition parse_date `{ToDatetime} (date_str : value) : value :=
  if isna date_str then VNone
  else match date_str with
       | VStr s =>
         let text := if bool_decide (58%N ∈ s) then first_token s else s in
         match to_datetime text with
         | Some d => VDate d
         | None => VNone
         end
       | _ => date_str
       end.

(** Lines 130 and 145: the placeholder is blanked in every column, then the
    deadline column is parsed. *)
Definition prepare_row `{ToDatetime} (r : row) : row :=
  λ col, let v := replace_not_obtained (r col) in
         if bool_decide (col = DepositDeadline) then parse_date v else v.

(** ** Record Grouper and Ranker *)

(** Element-wise [==] of a column against a scalar: a missing value equals
    nothing. *)
Definition eq_value (a b : value) : bool :=
  negb (isna a) && negb (isna b) && bool_decide (a = b).

(** [Series.unique()]: distinct values in order of first appearance. *)
Fixpoint unique_from (seen : list value) (l : list value) : list value :=
  match l with
  | [] => []
  | x :: r =>
    if bool_decide (x ∈ seen) then unique_from seen r
    else x :: unique_from (x :: seen) r
  end.

Definition unique (l : list value) : list value := unique_from [] l.

Definition result_priority (status : value) : Z :=
  match status with
  | VStr s =>
    if bool_decide (s = utf8 "获得CAS/COE") then 1
    else if bool_decide (s = utf8 "获得UO") then 2
    else if bool_decide (s = utf8 "获得CO") then 3
    else if bool_decide (s = utf8 "拒信") then 4
    else if bool_decide (s = utf8 "大学撤销") then 5
    else 6
  | _ => 6
  end%Z.

(** Order of strings: lexicographic on code points. *)
Fixpoint str_compare (a b : pystr) : comparison :=
  match a, b with
  | [], [] => Eq
  | [], _ :: _ => Lt
  | _ :: _, [] => Gt
  | x :: a', y :: b' =>
    match (x ?= y)%N with
    | Eq => str_compare a' b'
    | c => c
    end
  end.

(** Order of the values of one sort column, missing values last
    ([na_position='last']). A text column holds strings and missing values;
    the other kinds are ordered among themselves and, where pandas would
    refuse to compare two kinds, by kind. *)
Definition kind (v : value) : Z :=
  match v with
  | VBool _ => 0 | VInt _ => 1 | VStr _ => 2 | VDate _ => 3
  | VNone | VNaN | VNaT => 4
  end%Z.

Definition value_compare (a b : value) : comparison :=
  match a, b with
  | VBool x, VBool y => (Z.b2z x ?= Z.b2z y)%Z
  | VInt x, VInt y => (x ?= y)%Z
  | VStr x, VStr y => str_compare x y
  | VDate x, VDate y => (toordinal x ?= toordinal y)%Z
  | _, _ => (kind a ?= kind b)%Z
  end.

(** The sort key of line 221: [sort_key], then the status itself. *)
Definition rank_compare (a b : row) : comparison :=
  match (result_priority (a Result) ?= result_priority (b Result))%Z with
  | Eq => value_compare (a Result) (b Result)
  | c => c
  end.

(** A stable sort: [insert_sorted] puts [x] before the first element that is
    not smaller, so [x], which came first, stays in front of its equals. *)
Section stable_sort.
Context {A : Type} (cmp : A → A → comparison).

Fixpoint insert_sorted (x : A) (l : list A) : list A :=
  match l with
  | [] => [x]
  | y :: r =>
    match cmp y x with
    | Lt => y :: insert_sorted x r
    | _ => x :: l
    end
  end.

Definition stable_sort (l : list A) : list A := foldr insert_sorted [] l.
End stable_sort.

(** [client_data.sort_values(['sort_key', '申请结果'])]. *)
Definition sort_values (client_data : list row) : list row :=
  stable_sort rank_compare client_data.

(** One turn of the loop of line 200 up to the test of line 233: the rows of
    the client in ranked order and the client's name. *)
Record client_group := ClientGroup {
  g_id : value;
  g_name : value;
  g_rows : list row
}.

(** The rows of a client before they are ranked (line 206). *)
Definition rows_of_client (df : dataframe) (client_id : value) : list row :=
  List.filter (λ r, eq_value (r ClientId) client_id) (df_rows df).

Definition client_rows (df : dataframe) (client_id : value) : list row :=
  sort_values (rows_of_client df client_id).

(** The identifier column, [template_df['客户id']]. *)
Definition client_ids (df : dataframe) : list value :=
  (λ r, r ClientId) <$> df_rows df.

(** [a] occurs in [l] before the first [b]. *)
Definition appears_before (a b : value) (l : list value) : Prop :=
  ∃ l1 l2, l = l1 ++ a :: l2 ∧ (b ∉ l1).


Definition client_name_of (df : dataframe) (client_data : list row) : value :=
  if (len client_data >? 0)%Z && df_has df Name then
    match client_data with
    | first :: _ => if negb (isna (first Name)) then first Name
                    else VStr UNKNOWN_NAME
    | [] => VStr UNKNOWN_NAME
    end
  else VStr UNKNOWN_NAME.

(** Lines 205 to 234 for one identifier: a client without rows is skipped
    ([continue]). *)
Definition group_of (df : dataframe) (client_id : value) : option client_group :=
  let client_data := client_rows df client_id in
  let client_name := client_name_of df client_data in
  if (len client_data =? 0)%Z then None
  else Some (ClientGroup client_id client_name client_data).

(** The groups that reach the sheet builder, in the order of the loop. *)
Definition client_groups (df : dataframe) : list client_group :=
  omap (group_of df) (unique (client_ids df)).

Definition RANKED_STATUSES : list value :=
  [VStr (utf8 "获得CAS/COE"); VStr (utf8 "获得UO"); VStr (utf8 "获得CO");
   VStr (utf8 "拒信"); VStr (utf8 "大学撤销")].

(** ** Worksheets

    An openpyxl worksheet is its dictionary of cells, keyed by (row, column);
    [max_row] and [max_column] range over the cells that exist. Of the
    styles only fills and fonts (colour, bold) are kept. *)

Record font := Font { font_color : option pystr; font_bold : bool }.

Record cell := Cell {
  c_value : value;
  c_fill : option pystr;
  c_font : option font
}.

Definition empty_cell : cell := Cell VNone None None.

Abbreviation worksheet := (gmap (nat * nat) cell).

Definition get_cell (ws : worksheet) (r c : nat) : cell :=
  default empty_cell (ws !! (r, c)).

(** [ws.cell(row, column).value] *)
Definition cell_value (ws : worksheet) (r c : nat) : value :=
  c_value (get_cell ws r c).

(** [ws.cell(row, column, value)]: the cell is created when missing, and a
    value that is [None] is not assigned. *)
Definition set_value (r c : nat) (v : value) (ws : worksheet) : worksheet :=
  let old := get_cell ws r c in
  <[(r, c) := match v with
              | VNone => old
              | _ => Cell v (c_fill old) (c_font old)
              end]> ws.

(** [cell.value = v] on an existing cell. *)
Definition assign_value (r c : nat) (v : value) (ws : worksheet) : worksheet :=
  let old := get_cell ws r c in <[(r, c) := Cell v (c_fill old) (c_font old)]> ws.

Definition set_fill (r c : nat) (color : pystr) (ws : worksheet) : worksheet :=
  let old := get_cell ws r c in
  <[(r, c) := Cell (c_value old) (Some color) (c_font old)]> ws.

Definition set_font (r c : nat) (f : font) (ws : worksheet) : worksheet :=
  let old := get_cell ws r c in
  <[(r, c) := Cell (c_value old) (c_fill old) (Some f)]> ws.

Definition cell_keys (ws : worksheet) : list (nat * nat) := (map_to_list ws).*1.

Definition max_row (ws : worksheet) : nat :=
  if bool_decide (ws = ∅) then 1 else max_list (cell_keys ws).*1.

Definition max_column (ws : worksheet) : nat :=
  if bool_decide (ws = ∅) then 1 else max_list (cell_keys ws).*2.

(** Every cell lies within [R] rows and [C] columns. *)
Definition within (ws : worksheet) (R C : nat) : Prop :=
  ∀ k, is_Some (ws !! k) → k.1 ≤ R ∧ k.2 ≤ C.

(** [ws.merge_cells] on row [r], columns [c1..c2]: every cell of the range but
    the first becomes an empty merged cell. *)
Definition merge_cells_row (r c1 c2 : nat) (ws : worksheet) : worksheet :=
  foldl (λ ws c, <[(r, c) := empty_cell]> ws) ws (seq (S c1) (c2 - c1)).

(** A workbook: its sheets in order, by title. *)
Abbreviation workbook := (list (pystr * worksheet)).

Definition sheetnames (wb : workbook) : list pystr := wb.*1.

Definition remove_sheet (title : pystr) (wb : workbook) : workbook :=
  List.filter (λ sh, negb (bool_decide (sh.1 = title))) wb.

(** [create_sheet(title)] at the end. The title is free when it is called
    (a sheet of that name was removed just before), so openpyxl keeps it as
    it is. *)
Definition create_sheet (title : pystr) (ws : worksheet) (wb : workbook)
  : workbook := wb ++ [(title, ws)].

(** [Workbook()]: one empty sheet called Sheet. *)
Definition new_workbook : workbook := [(utf8 "Sheet", ∅)].

(** ** Per-Client Sheet Builder *)

Definition GRAY : pystr := utf8 "808080".
Definition RED : pystr := utf8 "FF0000".
Definition WHITE : pystr := utf8 "FFFFFF".
Definition LIGHT_GRAY : pystr := utf8 "D3D3D3".
Definition BLUE : pystr := utf8 "0000FF".
Definition COUNTDOWN_HEADER : pystr := utf8 "押金截止倒计时(天)".
Definition EMAIL_COLUMN : nat := 14.

Definition CRM_LINK : pystr :=
  utf8 "http://crmuk.ukec.com/admin/school-apply/detail?id=".
Definition EMAIL_LINK : pystr :=
  utf8 "http://crmuk.ukec.com/admin/customer-email/detail?id=".

(** Lines 305 to 310: the number of days left, when the deadline is there and
    is a timestamp ([AttributeError] is swallowed). *)
Definition days_left (today : date) (deadline : value) : option Z :=
  if negb (isna deadline) then
    match deadline with
    | VDate d => Some (days_between d today)
    | _ => None
    end
  else None.

(** Lines 313 to 322: the countdown cell of a row. *)
Definition countdown_cell (n : Z) : cell :=
  if ((n <=? 30) && (n >? 0))%Z then
    Cell (VInt n) (Some RED) (Some (Font (Some WHITE) false))
  else if (n <=? 0)%Z then
    Cell (VInt n) (Some GRAY) None
  else Cell (VInt n) None None.

Definition write_countdown (today : date) (r c : nat) (deadline : value)
                           (ws : worksheet) : worksheet :=
  match days_left today deadline with
  | Some n =>
    let ws := set_value r c (VInt n) ws in
    if ((n <=? 30) && (n >? 0))%Z then
      set_font r c (Font (Some WHITE) false) (set_fill r c RED ws)
    else if (n <=? 0)%Z then set_fill r c GRAY ws
    else ws
  | None => ws
  end.

(** Lines 270 to 277: one data cell. The colours of the status column
    (lines 280 to 300) are not part of the model. *)
Definition write_field (r c : nat) (v : value) (ws : worksheet) : worksheet :=
  let v := clean_excel_value v in
  let ws := set_value r c v ws in
  if bool_decide (v = VStr NOT_OBTAINED) then assign_value r c (VStr []) ws
  else ws.

Definition enumerate {A} (start : nat) (l : list A) : list (nat * A) :=
  zip (seq start (length l)) l.

Definition write_row (display : list column) (today : date) (n_headers : nat)
                     (ws : worksheet) (entry : nat * row) : worksheet :=
  let '(row_idx, r) := entry in
  let ws := foldl (λ ws '(col_idx, field), write_field row_idx col_idx (r field) ws)
                  ws (enumerate 1 display) in
  write_countdown today row_idx n_headers (r DepositDeadline) ws.

Definition write_header (ws : worksheet) (entry : nat * pystr) : worksheet :=
  let '(col, header) := entry in
  set_fill 2 col LIGHT_GRAY (set_value 2 col (VStr header) ws).

(** Lines 241 to 328 for one client. *)
Definition client_sheet (display : list column) (today : date)
                        (g : client_group) : worksheet :=
  let id_text := py_str (g_id g) in
  let link_font := Font (Some BLUE) true in
  let ws : worksheet := ∅ in
  let ws := assign_value 1 1
              (VStr (hyperlink (CRM_LINK ++ id_text) (py_str (g_name g)))) ws in
  let ws := set_font 1 1 link_font ws in
  let ws := merge_cells_row 1 1 (length display) ws in
  let ws := assign_value 1 EMAIL_COLUMN
              (VStr (hyperlink (EMAIL_LINK ++ id_text) (utf8 "邮箱"))) ws in
  let ws := set_font 1 EMAIL_COLUMN link_font ws in
  let headers := (column_name <$> display) ++ [COUNTDOWN_HEADER] in
  let ws := foldl write_header ws (enumerate 1 headers) in
  foldl (write_row display today (length headers)) ws (enumerate 3 (g_rows g)).

(** The loop of line 200 over the groups, then the default sheet is dropped
    (line 331). *)
Definition add_client_sheet (display : list column) (today : date)
                            (wb : workbook) (g : client_group) : workbook :=
  let title := clean_sheet_name (VStr (py_str (g_id g))) in
  let wb := if bool_decide (title ∈ sheetnames wb) then remove_sheet title wb
            else wb in
  create_sheet title (client_sheet display today g) wb.

(** The columns the run cannot do without: their absence raises [KeyError]
    (lines 145, 193 and, once there is a row, 218) and the run is aborted. *)
Definition columns_usable (raw : dataframe) : bool :=
  df_has raw ClientId && df_has raw DepositDeadline
  && (bool_decide (df_rows raw = []) || df_has raw Result).

(** [None]: the run is aborted and nothing is produced. *)
Definition offer_workbook `{ToDatetime} (raw : dataframe) (today : date)
  : option workbook :=
  if columns_usable raw then
    let df := DataFrame (df_has raw) (prepare_row <$> df_rows raw) in
    let wb := foldl (add_client_sheet (display_columns df) today) new_workbook
                    (client_groups df) in
    Some (if bool_decide (utf8 "Sheet" ∈ sheetnames wb)
          then remove_sheet (utf8 "Sheet") wb else wb)
  else None.

(** ** Cross-Reference Linker

    The identifier column of the selected sheet, rows 2 to [max_row]. The
    workbook is opened twice: the first pass reads the cached values
    ([data_only=True]), the second pass writes into the stored contents. *)

Record id_cell := IdCell { cached : value; stored : value }.

Definition OFFER_BOOK : pystr := utf8 "[Offer 跟进.xlsx]".

(** Lines 168 to 176: the dictionary [id_values]. *)
Definition record_id `{IntOfStr} (id_values : gmap nat value)
                     (entry : nat * id_cell) : gmap nat value :=
  let '(row, c) := entry in
  let original_value := cached c in
  let clean_id := extract_id_from_hyperlink original_value in
  if truthy clean_id then <[row := clean_id]> id_values else id_values.

Definition collect_id_values `{IntOfStr} (column : list id_cell)
  : gmap nat value :=
  foldl record_id ∅ (enumerate 2 column).

(** Line 344. *)
Definition id_link (original_id : value) : pystr :=
  hyperlink (OFFER_BOOK ++ py_str original_id ++ utf8 "!A1")
            (py_str original_id).

(** Lines 340 to 345, seen from each row: the rows of [id_values] with a
    truthy identifier are overwritten, the others keep what they hold. *)
Definition link_id (id_values : gmap nat value) (entry : nat * id_cell)
  : value :=
  let '(row, c) := entry in
  match id_values !! row with
  | Some original_id =>
    if truthy original_id then VStr (id_link original_id) else stored c
  | None => stored c
  end.

Definition link_ids (id_values : gmap nat value) (column : list id_cell)
  : list value :=
  link_id id_values <$> enumerate 2 column.

Definition cross_reference `{IntOfStr} (column : list id_cell) : list value :=
  link_ids (collect_id_values column) column.

(** ** Deadline rollup *)

Definition DDL_SHEET : pystr := utf8 "押金DDL".
Definition VIP_SHEET : pystr := utf8 "VIP情况".

Definition is_summary_sheet (name : pystr) : bool :=
  bool_decide (name ∈ [DDL_SHEET; VIP_SHEET]).

Record summary_row := SummaryRow {
  s_name : value;          (* 姓名 *)
  s_client_id : pystr;     (* 客户id, the sheet name *)
  s_school : value;        (* 申请院校英文 *)
  s_program : value;       (* 申请专业英文 *)
  s_deadline : value;      (* 押金截止日期 *)
  s_remaining : value      (* 剩余天数 *)
}.

(** [isinstance(deadline, (int, float)) and 0 <= deadline <= 30]; a boolean is
    an [int], and no comparison with NaN holds. *)
Definition within_month (deadline : value) : bool :=
  match deadline with
  | VInt n => (0 <=? n)%Z && (n <=? 30)%Z
  | VBool _ => true
  | _ => false
  end.

(** The rows [range(3, ws.max_row + 1)]. *)
Definition data_rows (ws : worksheet) : list nat := seq 3 (max_row ws + 1 - 3).

(** Lines 452 to 470 for one sheet. *)
Definition sheet_deadlines (sheet_name : pystr) (ws : worksheet)
  : list summary_row :=
  let client_name := extract_name_from_hyperlink (cell_value ws 1 1) in
  let client_id := sheet_name in
  omap (λ row,
          let deadline := cell_value ws row (max_column ws) in
          if within_month deadline then
            Some (SummaryRow client_name client_id (cell_value ws row 1)
                             (cell_value ws row 2) deadline deadline)
          else None)
       (data_rows ws).

Definition collect_deadlines (offer_wb : workbook) : list summary_row :=
  flat_map (λ '(sheet_name, ws),
              if is_summary_sheet sheet_name then []
              else sheet_deadlines sheet_name ws) offer_wb.

(** The number behind a value that passed [within_month]. *)
Definition number_of (v : value) : Z :=
  match v with
  | VInt n => n
  | VBool b => Z.b2z b
  | _ => 0
  end.

(** Line 473: [list.sort] is stable. *)
Definition summary_data (offer_wb : workbook) : list summary_row :=
  stable_sort (λ a b, (number_of (s_remaining a) ?= number_of (s_remaining b))%Z)
              (collect_deadlines offer_wb).

(** Lines 476 to 485: the five cells of a rollup row, in the order of the
    headers 姓名, 申请院校英文, 申请专业英文, 押金截止日期, 剩余天数. *)
Definition summary_cells (data : summary_row) : list value :=
  [VStr (hyperlink (CRM_LINK ++ s_client_id data) (py_str (s_name data)));
   s_school data; s_program data; s_deadline data; s_remaining data].

(** ** Validation-List Synthesizer *)

Record options := Options {
  opt_id : value;
  opt_schools : gset pystr;
  opt_programs : gset pystr
}.

(** Lines 537 to 547: one entry per row with a truthy identifier, in row
    order (the dictionary keeps insertion order). *)
Definition init_student_options `{IntOfStr} (ids : list value)
  : list (nat * options) :=
  omap (λ '(row, v),
          if truthy v then
            let student_id := extract_id_from_hyperlink v in
            if truthy student_id then Some (row, Options student_id ∅ ∅)
            else None
          else None)
       (enumerate 2 ids).

(** [options['id'] == student_id] against an integer. *)
Definition eq_int (v : value) (n : Z) : bool :=
  match v with
  | VInt m => (m =? n)%Z
  | VBool b => (Z.b2z b =? n)%Z
  | _ => false
  end.

(** Lines 569 to 573: the first entry with that identifier takes the pair,
    then the loop is left ([break]). *)
Fixpoint add_option (student_id : Z) (school program : pystr)
                    (student_options : list (nat * options))
  : list (nat * options) :=
  match student_options with
  | [] => []
  | (kalen_row, o) :: rest =>
    if eq_int (opt_id o) student_id then
      (kalen_row, Options (opt_id o) ({[school]} ∪ opt_schools o)
                          ({[program]} ∪ opt_programs o)) :: rest
    else (kalen_row, o) :: add_option student_id school program rest
  end.

(** Lines 555 to 576 for one sheet; a name that is no integer is skipped. *)
Definition scan_sheet `{IntOfStr} (student_options : list (nat * options))
                      (sheet : pystr * worksheet) : list (nat * options) :=
  let '(sheet_name, ws) := sheet in
  if is_summary_sheet sheet_name then student_options
  else match int_of_str sheet_name with
       | None => student_options
       | Some student_id =>
         foldl (λ so row,
                  let school := cell_value ws row 1 in
                  let program := cell_value ws row 2 in
                  if truthy school && truthy program then
                    add_option student_id
                      (clean_str (strip (py_str school)))
                      (clean_str (strip (py_str program))) so
                  else so)
               student_options (data_rows ws)
       end.

Definition student_options `{IntOfStr} (ids : list value) (offer_wb : workbook)
  : list (nat * options) :=
  foldl scan_sheet (init_student_options ids) offer_wb.

(** The hidden sheet and the list constraints (lines 579 to 645). A
    constraint is kept as its target cell and its range formula. *)
Record validation := Validation {
  dv_column : nat;
  dv_row : nat;
  dv_formula : pystr
}.

Record emitted := Emitted {
  e_cells : gmap (nat * nat) value;
  e_validations : list validation;
  e_current_row : nat
}.

Definition OPTIONS_SHEET : pystr := utf8 "选项列表".

Definition str_of_nat (n : nat) : pystr := str_of_Z (Z.of_nat n).

Definition range_formula (letter : pystr) (first last : nat) : pystr :=
  utf8 "=" ++ OPTIONS_SHEET ++ utf8 "!$" ++ letter ++ utf8 "$"
  ++ str_of_nat first ++ utf8 ":$" ++ letter ++ utf8 "$" ++ str_of_nat last.

Definition write_options (c : nat) (first_row : nat) (l : list pystr)
                         (cells : gmap (nat * nat) value)
  : gmap (nat * nat) value :=
  foldl (λ cells '(r, x), <[(r, c) := VStr x]> cells) cells
        (enumerate first_row l).

Definition emit_options (school_col program_col : nat) (st : emitted)
                        (entry : nat * options) : emitted :=
  let '(row, o) := entry in
  if bool_decide (opt_schools o = ∅) && bool_decide (opt_programs o = ∅)
  then st
  else
    let options_start_row := e_current_row st in
    let schools_list := elements (opt_schools o) in
    let programs_list := elements (opt_programs o) in
    let max_count :=
      Nat.max (Nat.max (length schools_list) (length programs_list)) 1 in
    let id_text := py_str (opt_id o) in
    let cells :=
      <[(options_start_row, 2) := VStr (utf8 "ID_" ++ id_text ++ utf8 "_专业")]>
      (<[(options_start_row, 1) := VStr (utf8 "ID_" ++ id_text ++ utf8 "_学校")]>
       (e_cells st)) in
    let cells := write_options 1 (S options_start_row) schools_list cells in
    let cells := write_options 2 (S options_start_row) programs_list cells in
    let schools_written := length schools_list in
    let programs_written := length programs_list in
    let dvs :=
      (if bool_decide (0 < schools_written) then
         [Validation school_col row
            (range_formula (utf8 "A") (options_start_row + 1)
                           (options_start_row + schools_written))]
       else [])
      ++ (if bool_decide (0 < programs_written) then
            [Validation program_col row
               (range_formula (utf8 "B") (options_start_row + 1)
                              (options_start_row + programs_written))]
          else []) in
    Emitted cells (e_validations st ++ dvs)
            (options_start_row + 1 + max_count + 1).

Definition emit_all (school_col program_col : nat)
                    (so : list (nat * options)) : emitted :=
  foldl (emit_options school_col program_col) (Emitted ∅ [] 1) so.

(** The pair the ranking compares: ([sort_key], 申请结果). *)
Definition sort_key (r : row) : Z * value :=
  (result_priority (r Result), r Result).

(** A formula with a cell reference and a concatenation as arguments:
    [=HYPERLINK(A1,] x [&] 5 [)], the two texts quoted. *)
Definition formula_with_reference : pystr :=
  HYPERLINK ++ utf8 "(A1," ++ [dquote] ++ utf8 "x" ++ [dquote] ++ utf8 "&"
  ++ [dquote] ++ utf8 "5" ++ [dquote] ++ utf8 ")".

(** What the specification calls the resolved name: the first name of the
    group that is not null. *)
Definition spec_first_non_null_name (client_data : list row) : option value :=
  head (List.filter (λ v, negb (isna v)) ((λ r, r Name) <$> client_data)).

(** Two rows of client 1 with the same status; only the second has a name. *)
Definition row_without_name : row :=
  λ col, match col with
         | ClientId => VInt 1
         | Name => VNaN
         | Result => VStr (utf8 "已递交")
         | _ => VNone
         end.

Definition row_with_name : row :=
  λ col, match col with
         | ClientId => VInt 1
         | Name => VStr (utf8 "张三")
         | Result => VStr (utf8 "已递交")
         | _ => VNone
         end.

Definition df_second_name : dataframe :=
  DataFrame (λ _, true) [row_without_name; row_with_name].

(** An identifier column with one cell, the text K7. *)
Definition column_with_text_id : list id_cell :=
  [IdCell (VStr (utf8 "K7")) (VStr (utf8 "K7"))].

(** A reference [to_datetime] for ISO dates, YYYY-MM-DD. *)
Definition iso_date (s : pystr) : option date :=
  match split_on 45 s with
  | [y; m; d] =>
    if bool_decide (length y = 4%nat ∧ length m = 2%nat ∧ length d = 2%nat) then
      match digits_value 0 y, digits_value 0 m, digits_value 0 d with
      | Some y, Some m, Some d =>
        if ((1 <=? m) && (m <=? 12) && (1 <=? d) && (d <=? days_in_month y m))%Z
        then Some (Date y m d) else None
      | _, _, _ => None
      end
    else None
  | _ => None
  end.

(** One application with a deposit due on 2024-05-30. *)
Definition oxford_application : row :=
  λ col, match col with
         | ClientId => VInt 1001
         | Name => VStr (utf8 "张三")
         | School => VStr (utf8 "University of Oxford")
         | Program => VStr (utf8 "MSc CS")
         | Result => VStr (utf8 "获得CAS/COE")
         | DepositDeadline => VStr (utf8 "2024-05-30")
         | _ => VNaN
         end.

(** The export with all kept columns, and the same export without the
    optional column Student-Number. *)
Definition full_export : dataframe :=
  DataFrame (λ _, true) [oxford_application].

Definition export_without_student_number : dataframe :=
  DataFrame (λ col, negb (bool_decide (col = StudentNumber)))
            [oxford_application].

Definition may_20 : date := Date 2024 5 20.

(** *** The option set as the specification words it

    The sanitized and trimmed (institution, program) pairs of the data rows
    of every per-client sheet whose name is an integer equal to the
    identifier. *)
Definition sheet_pairs (ws : worksheet) : list (pystr * pystr) :=
  omap (λ row,
          let school := cell_value ws row 1 in
          let program := cell_value ws row 2 in
          if truthy school && truthy program then
            Some (clean_str (strip (py_str school)),
                  clean_str (strip (py_str program)))
          else None)
       (data_rows ws).

Definition spec_option_pairs `{IntOfStr} (id : value) (offer_wb : workbook)
  : list (pystr * pystr) :=
  flat_map (λ '(sheet_name, ws),
              if is_summary_sheet sheet_name then []
              else match int_of_str sheet_name with
                   | Some n => if eq_int id n then sheet_pairs ws else []
                   | None => []
                   end) offer_wb.

Definition spec_schools `{IntOfStr} (id : value) (offer_wb : workbook)
  : gset pystr := list_to_set (spec_option_pairs id offer_wb).*1.

Definition spec_programs `{IntOfStr} (id : value) (offer_wb : workbook)
  : gset pystr := list_to_set (spec_option_pairs id offer_wb).*2.

(** The identifiers of the entries before position [k] that equal [n]. *)
Definition ids_of (so : list (nat * options)) : list value :=
  (λ entry, opt_id entry.2) <$> so.

Definition earlier_match (n : Z) (so : list (nat * options)) (k : nat) : bool :=
  existsb (λ v, eq_int v n) (take k (ids_of so)).

(** What the sheets contribute, in scan order: (sheet number, school,
    program). *)
Definition contributions `{IntOfStr} (offer_wb : workbook)
  : list (Z * (pystr * pystr)) :=
  flat_map (λ '(sheet_name, ws),
              if is_summary_sheet sheet_name then []
              else match int_of_str sheet_name with
                   | Some n => (λ sp, (n, sp)) <$> sheet_pairs ws
                   | None => []
                   end) offer_wb.

Definition contribute (so : list (nat * options))
                      (c : Z * (pystr * pystr)) : list (nat * options) :=
  add_option c.1 c.2.1 c.2.2 so.

(** Two rows of the tracking sheet with the same client, and their
    identifier column once it is linked. *)
Definition twice_1001_cells : list id_cell :=
  [IdCell (VInt 1001) (VInt 1001); IdCell (VInt 1001) (VInt 1001)].

Definition twice_1001 : list value :=
  @cross_reference decimal_int twice_1001_cells.

Definition full_offer_workbook : workbook :=
  default [] (@offer_workbook iso_date full_export may_20).

(** Of every sheet: its name, the header and the first data cell of column
    [col], and the last used column. *)
Definition column_view (col : nat) (wb : workbook)
  : list (pystr * value * value * nat) :=
  (λ sheet : pystr * worksheet,
     (sheet.1, cell_value sheet.2 2 col, cell_value sheet.2 3 col,
      max_column sheet.2)) <$> wb.

(** The row number and the identifier of every entry. *)
Definition keys_of (so : list (nat * options)) : list (nat * value) :=
  (λ entry, (entry.1, opt_id entry.2)) <$> so.

(** A comparison that behaves as the comparison of a total preorder. *)
Record order_cmp {A} (cmp : A → A → comparison) : Prop := OrderCmp {
  cmp_antisym : ∀ x y, cmp y x = CompOpp (cmp x y);
  cmp_trans_lt : ∀ x y z, cmp x y = Lt → cmp y z = Lt → cmp x z = Lt;
  cmp_eq_l : ∀ x y z, cmp x y = Eq → cmp x z = cmp y z
}.

(** ** The whole run

    [create_offer_sheets] without the VIP sheet, the styles of the status
    column and the packaging: the per-client workbook, the identifier column
    after linking, the cells of the deadline rollup and the hidden option
    sheet with its list constraints. [last_col] is [kalen_ws.max_column]
    before the two enrollment columns are added. [None]: the run is
    aborted. *)
Record outputs := Outputs {
  out_offer_wb : workbook;
  out_id_column : list value;
  out_deadline_rows : list (list value);
  out_options : emitted
}.

Definition create_offer_sheets `{IntOfStr} `{ToDatetime}
    (template_df : dataframe) (id_column : list id_cell) (last_col : nat)
    (today : date) : option outputs :=
  match offer_workbook template_df today with
  | None => None
  | Some offer_wb =>
    let linked := cross_reference id_column in
    let enrollment_school_col := last_col + 1 in
    let enrollment_program_col := last_col + 2 in
    Some (Outputs offer_wb linked
            (summary_cells <$> summary_data offer_wb)
            (emit_all enrollment_school_col enrollment_program_col
                      (student_options linked offer_wb)))
  end.

(** The records of the examples of the specification. *)
Definition rejected_then_offer : dataframe :=
  DataFrame (λ _, true)
    [λ col, match col with
            | ClientId => VInt 2002 | Result => VStr (utf8 "拒信")
            | _ => VNaN end;
     λ col, match col with
            | ClientId => VInt 2002 | Result => VStr (utf8 "获得UO")
            | _ => VNaN end].

(** What the countdown cell of a record shows: the days left, or nothing. *)
Definition countdown_value (today : date) (r : row) : value :=
  match days_left today (r DepositDeadline) with
  | Some n => VInt n
  | None => VNone
  end.

(** ** Further parts of the program

    Definitions for the code around the stated properties: the validity of
    a sheet name, the missing columns, the colours of the status column and
    of the rollup, and the retry loop of the Persistence Adapter. *)

(** A text that is already a sheet name: none of the seven characters, only
    characters the sanitizer keeps, at most 31 of them. *)
Definition valid_sheet_text (s : pystr) : Prop :=
  Forall (λ c, storable c ∧ sheet_forbidden c = false) s ∧ (len s ≤ 31)%Z.

(** The title of the sheet of a group (line 241). *)
Definition sheet_title (g : client_group) : pystr :=
  clean_sheet_name (VStr (py_str (g_id g))).

(** Line 118. *)
Definition missing_columns (df : dataframe) : list column :=
  List.filter (λ col, negb (df_has df col)) columns_to_keep.

(** The data frame after lines 130 and 145. *)
Definition prepared `{ToDatetime} (raw : dataframe) : dataframe :=
  DataFrame (df_has raw) (prepare_row <$> df_rows raw).

(** What a data cell shows for a field value (lines 270 to 277). *)
Definition rendered (v : value) : value :=
  let v := clean_excel_value v in
  if bool_decide (v = VStr NOT_OBTAINED) then VStr [] else v.

(** [needle in s] for strings. *)
Fixpoint contains (needle s : pystr) : bool :=
  startswith needle s ||
  match s with
  | [] => false
  | _ :: r => contains needle r
  end.

Definition OBTAINED : pystr := utf8 "获得".
Definition GREEN : pystr := utf8 "008000".
Definition AMBER : pystr := utf8 "FFC222".
Definition TEAL : pystr := utf8 "5F9EA0".
Definition SALMON : pystr := utf8 "F08080".
Definition YELLOW : pystr := utf8 "FFFF00".

(** Lines 280 to 300: fill and font of a data cell, from its column and its
    sanitized value. *)
Definition result_style (field : column) (v : value) : option (pystr * font) :=
  if bool_decide (field = Result) && truthy v then
    if contains OBTAINED (py_str v) then Some (GREEN, Font (Some WHITE) true)
    else if bool_decide (v ∈ [VStr (utf8 "拒信"); VStr (utf8 "大学撤销");
                              VStr (utf8 "学生放弃")])
    then Some (GRAY, Font None true)
    else if bool_decide (v ∈ [VStr (utf8 "已递交")])
    then Some (AMBER, Font None true)
    else if bool_decide (v ∈ [VStr (utf8 "未递-待交申请费");
                              VStr (utf8 "已递交-申请费待付")])
    then Some (TEAL, Font None true)
    else if bool_decide (v ∈ [VStr (utf8 "未递-材料缺失或需修改")])
    then Some (SALMON, Font None true)
    else None
  else None.

(** Lines 415 to 425: the same for the result column of the VIP sheet. *)
Definition vip_result_style (result : value) : option (pystr * font) :=
  if truthy result && contains OBTAINED (py_str result)
  then Some (GREEN, Font (Some WHITE) true)
  else if bool_decide (result ∈ [VStr (utf8 "拒信"); VStr (utf8 "大学撤销");
                                 VStr (utf8 "未递-撤销申请需求")])
  then Some (GRAY, Font None true)
  else if bool_decide (result ∈ [VStr (utf8 "已递交")])
  then Some (AMBER, Font None true)
  else None.

(** The statuses on which the two colour rules differ. *)
Definition STYLED_DIFFERENTLY : list value :=
  [VStr (utf8 "学生放弃"); VStr (utf8 "未递-撤销申请需求");
   VStr (utf8 "未递-待交申请费"); VStr (utf8 "已递交-申请费待付");
   VStr (utf8 "未递-材料缺失或需修改")].

(** Lines 488 to 500: fill and font of the remaining-days cell of a rollup
    row. *)
Definition remaining_style (days : Z) : option (pystr * option font) :=
  if (days <=? 7)%Z then Some (RED, Some (Font (Some WHITE) false))
  else if (days <=? 14)%Z then Some (YELLOW, None)
  else if (days <=? 30)%Z then Some (GREEN, Some (Font (Some WHITE) false))
  else None.

(** *** [save_workbook_with_retry]

    [workbook.save] is an effect: [save attempt] tells whether the call of
    that attempt succeeds ([None]) or raises ([Some e]). The run of the loop
    is its trace and its outcome; the bytes of the buffer are not
    modelled. *)
Inductive save_event (E : Type) :=
| SaveCall (attempt : Z)
| Warning (attempt : Z) (e : E)
| Sleep (delay : Z)
| ErrorMessage (e : E).
Arguments SaveCall {E}.
Arguments Warning {E}.
Arguments Sleep {E}.
Arguments ErrorMessage {E}.

Inductive save_outcome (E : Type) :=
| Output            (* the buffer is returned *)
| Reraised (e : E)  (* the last exception is raised again *)
| NoOutput.         (* the loop ends, the function returns None *)
Arguments Output {E}.
Arguments Reraised {E}.
Arguments NoOutput {E}.

Fixpoint retry_loop {E} (save : Z → option E) (max_retries delay : Z)
                    (attempts : list Z) : list (save_event E) * save_outcome E :=
  match attempts with
  | [] => ([], NoOutput)
  | attempt :: rest =>
    match save attempt with
    | None => ([SaveCall attempt], Output)
    | Some e =>
      if (attempt <? max_retries - 1)%Z then
        let '(trace, outcome) := retry_loop save max_retries delay rest in
        (SaveCall attempt :: Warning attempt e :: Sleep delay :: trace, outcome)
      else ([SaveCall attempt; ErrorMessage e], Reraised e)
    end
  end.

(** [range(max_retries)]. *)
Definition py_range (n : Z) : list Z := Z.of_nat <$> seq 0 (Z.to_nat n).

Definition save_workbook_with_retry {E} (save : Z → option E)
                                    (max_retries delay : Z)
  : list (save_event E) * save_outcome E :=
  retry_loop save max_retries delay (py_range max_retries).

Definition save_calls {E} (trace : list (save_event E)) : list Z :=
  omap (λ ev, match ev with SaveCall a => Some a | _ => None end) trace.

Definition slept {E} (trace : list (save_event E)) : Z :=
  foldr (λ ev acc, match ev with Sleep d => (d + acc)%Z | _ => acc end) 0%Z trace.

(** An integer identifier whose decimal numeral fits a sheet name. *)
Definition integer_id (v : value) : Prop :=
  ∃ n, v = VInt n ∧ (len (str_of_Z n) ≤ 31)%Z.

(** What the rollup keeps of a record once all columns are in the export:
    sheet name, institution, program, and the countdown in the last two
    places. *)
Definition rollup_entry (today : date) (g : client_group) (r : row)
  : option (pystr * value * value * value * value) :=
  if within_month (countdown_value today r) then
    Some (py_str (g_id g), rendered (r School), rendered (r Program),
          countdown_value today r, countdown_value today r)
  else None.

(** An export that lacks the institution column. *)
Definition export_without_school : dataframe :=
  DataFrame (λ col, negb (bool_decide (col = School))) [oxford_application].

(** ** Theorems *)

(** Closed decidable facts, by evaluation. *)
Ltac by_compute := apply (bool_decide_unpack _); vm_compute; exact I.

Section sanitizer.

Lemma replace_char_id old new s :
  Forall (λ c, c ≠ old) s → replace_char old new s = s.
Proof.
  unfold replace_char. induction 1 as [|c s Hc _ IH]; [done|]. cbn.
  rewrite IH. by destruct (N.eqb_spec c old).
Qed.

Lemma filter_id {A} (p : A → bool) l :
  Forall (λ x, p x = true) l → List.filter p l = l.
Proof. induction 1 as [|x l Hx _ IH]; cbn; [done|]. by rewrite Hx, IH. Qed.

Lemma clean_str_fix s :
  Forall storable s → (len s ≤ EXCEL_CELL_MAX)%Z → clean_str s = s.
Proof.
  intros Hs Hlen. unfold clean_str. cbv zeta.
  assert (Hne : ∀ k, (k < 32)%N ∨ k = fw_lparen ∨ k = fw_rparen →
                     Forall (λ c, c ≠ k) s).
  { intros k Hk. eapply Forall_impl; [exact Hs|].
    intros c (H32 & Hl & Hr) ->. destruct Hk as [?|[?|?]]; [lia|done..]. }
  rewrite (replace_char_id fw_lparen) by auto.
  rewrite (replace_char_id fw_rparen) by auto.
  rewrite (replace_char_id 10%N) by (apply Hne; left; lia).
  rewrite (replace_char_id 13%N) by (apply Hne; left; lia).
  rewrite filter_id.
  - destruct (Z.gtb_spec (len s) EXCEL_CELL_MAX); [lia|done].
  - eapply Forall_impl; [exact Hs|]. intros c (H32 & _). by apply N.leb_le.
Qed.

Lemma clean_str_storable s : Forall storable (clean_str s).
Proof.
  unfold clean_str. cbv zeta.
  set (s1 := replace_char 13 32 _).
  assert (Hf : Forall storable (List.filter (λ char, (32 <=? char)%N) s1)).
  { apply Forall_forall. intros c Hc%list_elem_of_In%filter_In.
    destruct Hc as [Hc H32%N.leb_le]. split; [done|].
    subst s1. unfold replace_char in Hc. rewrite !map_map in Hc.
    apply in_map_iff in Hc as (c0 & <- & _).
    unfold fw_lparen, fw_rparen.
    repeat match goal with |- context [(?a =? ?b)%N] =>
      destruct (N.eqb_spec a b) end; lia. }
  destruct (_ >? _)%Z; [by apply Forall_take|done].
Qed.

Lemma clean_str_len s : (len (clean_str s) ≤ EXCEL_CELL_MAX)%Z.
Proof.
  unfold clean_str. cbv zeta. set (s1 := List.filter _ _).
  destruct (Z.gtb_spec (len s1) EXCEL_CELL_MAX) as [H|H]; [|done].
  unfold len, EXCEL_CELL_MAX in *. rewrite length_take. lia.
Qed.

End sanitizer.

(** C1. The Value Sanitizer [clean_excel_value] is idempotent; on a string its
    result has at most 32767 characters, none with a code point below 32 and
    no full-width parenthesis; a value that is not a string is returned as it
    is. *)
Theorem clean_excel_value_idempotent_bounded (v : value) :
  clean_excel_value (clean_excel_value v) = clean_excel_value v ∧
  (match v with
  | VStr _ =>
    ∃ out, clean_excel_value v = VStr out ∧ (len out ≤ 32767)%Z ∧
           Forall (λ c, (32 ≤ c)%N) out ∧
           (fw_lparen ∉ out) ∧ (fw_rparen ∉ out)
  | _ => clean_excel_value v = v
  end).
Proof.
  destruct v as [| | | b | n | s | d]; try done. cbn. split.
  - f_equal. apply clean_str_fix; [apply clean_str_storable|apply clean_str_len].
  - exists (clean_str s). split; [done|]. split; [apply clean_str_len|].
    pose proof (clean_str_storable s) as Hs.
    split; [|split].
    + eapply Forall_impl; [exact Hs|]. by intros c [? _].
    + intros Hin. eapply Forall_forall in Hs; [|exact Hin]. by destruct Hs as (_ & ? & _).
    + intros Hin. eapply Forall_forall in Hs; [|exact Hin]. by destruct Hs as (_ & _ & ?).
Qed.

Section extractor.
Context `{IntOfStr}.

Lemma startswith_app p r : startswith p (p ++ r) = true.
Proof. induction p as [|a p IH]; [done|]. cbn. by rewrite N.eqb_refl. Qed.

Lemma split_on_nonempty sep s : split_on sep s ≠ [].
Proof.
  destruct s as [|c r]; [done|]. cbn.
  destruct (c =? sep)%N; [done|]. by destruct (split_on sep r).
Qed.

Lemma split_on_segment sep a rest :
  sep ∉ a → split_on sep (a ++ sep :: rest) = a :: split_on sep rest.
Proof.
  induction a as [|c a IH]; intros Hsep.
  - cbn. by rewrite N.eqb_refl.
  - apply not_elem_of_cons in Hsep as [Hc Ha]. cbn.
    destruct (N.eqb_spec c sep) as [->|_]; [done|]. by rewrite IH.
Qed.

Lemma split_on_last sep a : sep ∉ a → split_on sep a = [a].
Proof.
  induction a as [|c a IH]; intros Hsep; [done|].
  apply not_elem_of_cons in Hsep as [Hc Ha]. cbn.
  destruct (N.eqb_spec c sep) as [->|_]; [done|]. by rewrite IH.
Qed.

(** The five segments of a link formula. *)
Lemma split_hyperlink_with sep u t :
  dquote ∉ sep → dquote ∉ u → dquote ∉ t →
  split_on dquote (hyperlink_with sep u t)
  = [HYPERLINK ++ utf8 "("; u; sep; t; utf8 ")"].
Proof.
  intros Hsep Hu Ht. unfold hyperlink_with.
  rewrite (app_assoc HYPERLINK). cbn [app].
  rewrite split_on_segment by by_compute.
  rewrite split_on_segment by done.
  rewrite split_on_segment by done.
  rewrite split_on_segment by done.
  by rewrite split_on_last by by_compute.
Qed.

Lemma startswith_hyperlink_with sep u t :
  startswith HYPERLINK (hyperlink_with sep u t) = true.
Proof. apply startswith_app. Qed.

Lemma extract_id_hyperlink_with sep u t :
  dquote ∉ sep → dquote ∉ u → dquote ∉ t →
  extract_id_from_hyperlink (VStr (hyperlink_with sep u t))
  = match int_of_str t with
    | Some n => VInt n
    | None => VStr (hyperlink_with sep u t)
    end.
Proof.
  intros Hsep Hu Ht. unfold extract_id_from_hyperlink.
  by rewrite startswith_hyperlink_with, split_hyperlink_with.
Qed.

Lemma hyperlink_is_with url text :
  hyperlink url text = hyperlink_with (utf8 ", ") url text.
Proof. done. Qed.

End extractor.

(** C2 (amended). On a link formula whose two quoted arguments hold no quote,
    the ID extractor returns the display text as an integer when [int] reads
    it and the formula itself otherwise; a value that is no string starting
    with [=HYPERLINK] is returned unchanged; so is a string starting with
    [=HYPERLINK] whose fourth quote-delimited segment is missing or is not
    read by [int]. The function is total: it never raises. *)
Theorem extract_id_from_hyperlink_cases `{IntOfStr} (v : value) :
  (∀ sep u t, (sep = utf8 "," ∨ sep = utf8 ", ") → dquote ∉ u → dquote ∉ t →
     v = VStr (hyperlink_with sep u t) →
     extract_id_from_hyperlink v
     = match int_of_str t with Some n => VInt n | None => v end) ∧
  ((∀ s, v = VStr s → startswith HYPERLINK s = false) →
     extract_id_from_hyperlink v = v) ∧
  (∀ s, v = VStr s → startswith HYPERLINK s = true →
     match split_on dquote s !! 3%nat with
     | Some id_str => int_of_str id_str = None
     | None => True
     end →
     extract_id_from_hyperlink v = v).
Proof.
  split; [|split].
  - intros sep u t Hsep Hu Ht ->.
    apply extract_id_hyperlink_with; [|done..].
    destruct Hsep as [-> | ->]; by_compute.
  - intros Hv. destruct v as [| | | | |s|]; try done.
    unfold extract_id_from_hyperlink. by rewrite (Hv s eq_refl).
  - intros s -> Hs Hseg. unfold extract_id_from_hyperlink. rewrite Hs.
    destruct (split_on dquote s !! 3%nat) as [id_str|]; [|done].
    by rewrite Hseg.
Qed.

(** ** Decimal numerals *)

Section decimal.

Lemma uint_codes_digits d : Forall is_digit (uint_codes d).
Proof. induction d; constructor; (done || (unfold is_digit; lia)). Qed.

Lemma digits_value_acc d (acc : positive) :
  digits_value (Z.pos acc) (uint_codes d) = Some (Z.pos (Pos.of_uint_acc d acc)).
Proof.
  revert acc. induction d; intros acc; [done|..]; cbn;
    match goal with
    | |- digits_value ?a _ = Some (Z.pos (Pos.of_uint_acc _ ?b)) =>
      replace a with (Z.pos b) by lia; apply IHd
    end.
Qed.

Lemma digits_value_of_uint d :
  digits_value 0 (uint_codes d) = Some (Z.of_uint d).
Proof.
  unfold Z.of_uint. induction d; [done| |..]; cbn; [exact IHd|..];
    match goal with
    | |- digits_value ?a _ = _ =>
      change a with (Z.pos (Z.to_pos a)); cbn [Z.to_pos]; apply digits_value_acc
    end.
Qed.

Lemma str_of_Z_chars n : Forall (λ c, is_digit c ∨ c = 45%N) (str_of_Z n).
Proof.
  unfold str_of_Z. destruct (Z.to_int n) as [d|d]; [|constructor; [by right|]];
    (eapply Forall_impl; [apply uint_codes_digits|by left]).
Qed.

Lemma decimal_int_str_of_Z n : decimal_int (str_of_Z n) = Some n.
Proof.
  pose proof (DecimalZ.of_to n) as Hn. unfold str_of_Z.
  destruct (Z.to_int n) as [d|d] eqn:Hd; cbn in Hn.
  - pose proof (digits_value_of_uint d) as Hv. rewrite Hn in Hv.
    pose proof (uint_codes_digits d) as Hc.
    destruct (uint_codes d) as [|c r] eqn:Hcodes.
    + destruct n; [|done..]. by destruct d.
    + unfold decimal_int. apply Forall_cons in Hc as [Hc _].
      destruct (N.eqb_spec c 45) as [->|_]; [unfold is_digit in Hc; lia|done].
  - pose proof (digits_value_of_uint d) as Hv.
    unfold decimal_int. rewrite N.eqb_refl.
    destruct (uint_codes d) as [|c r] eqn:Hcodes.
    + cbn in Hv. injection Hv as Hv. destruct n; try done. lia.
    + rewrite Hv. cbn. f_equal. lia.
Qed.

End decimal.

Lemma extract_id_from_hyperlink_cases_witness :
  @extract_id_from_hyperlink decimal_int
    (VStr (hyperlink_with (utf8 ",") (utf8 "u") (utf8 "1001"))) = VInt 1001
  ∧ @extract_id_from_hyperlink decimal_int (VStr (utf8 "1001"))
    = VStr (utf8 "1001").
Proof.
  split.
  - apply (proj1 (@extract_id_from_hyperlink_cases decimal_int _)
             (utf8 ",") (utf8 "u") (utf8 "1001"));
      [by left | by_compute | by_compute | reflexivity].
  - apply (proj1 (proj2 (@extract_id_from_hyperlink_cases decimal_int _))).
    intros s [= <-]. reflexivity.
Defined.

(** C2, as stated, fails: [formula_with_reference] is a string that is not of
    the link-formula form, and the extractor does not return it unchanged but
    the integer 5. *)
Lemma extract_id_not_identity_off_link_form :
  ¬ link_form formula_with_reference ∧
  @extract_id_from_hyperlink decimal_int (VStr formula_with_reference) = VInt 5
  ∧ @extract_id_from_hyperlink decimal_int (VStr formula_with_reference)
    ≠ VStr formula_with_reference.
Proof.
  split; [|split; [reflexivity|discriminate]].
  intros (sep & u & t & _ & _ & _ & Heq).
  vm_compute in Heq. discriminate Heq.
Qed.

(** ** Grouping and ranking *)

Section stable_sort_facts.
Context {A K : Type} `{EqDecision K} (cmp : A → A → comparison) (key : A → K).
Hypothesis cmp_lt_key : ∀ x y, cmp y x = Lt → key y ≠ key x.

Lemma insert_sorted_perm x l : insert_sorted cmp x l ≡ₚ x :: l.
Proof.
  induction l as [|y r IH]; [done|]. cbn.
  destruct (cmp y x); [done| |done].
  rewrite IH. apply Permutation_swap.
Qed.

Lemma stable_sort_perm l : stable_sort cmp l ≡ₚ l.
Proof.
  induction l as [|x l IH]; [done|]. cbn.
  by rewrite insert_sorted_perm, IH.
Qed.

Lemma insert_sorted_class k x l :
  List.filter (λ y, bool_decide (key y = k)) (insert_sorted cmp x l)
  = List.filter (λ y, bool_decide (key y = k)) (x :: l).
Proof.
  induction l as [|y r IH]; [done|]. cbn [insert_sorted].
  destruct (cmp y x) eqn:Hc; [done| |done].
  apply cmp_lt_key in Hc.
  cbn [List.filter] in *. rewrite IH.
  repeat case_bool_decide; congruence.
Qed.

(** Stability: the elements of one key keep their order. *)
Lemma stable_sort_class k l :
  List.filter (λ y, bool_decide (key y = k)) (stable_sort cmp l)
  = List.filter (λ y, bool_decide (key y = k)) l.
Proof.
  induction l as [|x l IH]; [done|]. cbn [stable_sort foldr].
  rewrite insert_sorted_class. cbn [List.filter].
  fold (stable_sort cmp l). by rewrite IH.
Qed.

End stable_sort_facts.

Section ranking.

Lemma str_compare_refl a : str_compare a a = Eq.
Proof. induction a as [|x a IH]; [done|]. cbn. by rewrite N.compare_refl. Qed.

Lemma value_compare_refl v : value_compare v v = Eq.
Proof.
  destruct v; cbn; try done;
    auto using Z.compare_refl, str_compare_refl.
Qed.

Lemma rank_compare_lt_key x y : rank_compare y x = Lt → sort_key y ≠ sort_key x.
Proof.
  unfold rank_compare, sort_key. intros Hlt [= Hp Hs].
  rewrite Hp, Hs, Z.compare_refl, value_compare_refl in Hlt. done.
Qed.

Lemma sort_values_perm l : sort_values l ≡ₚ l.
Proof. apply stable_sort_perm. Qed.

End ranking.

(** *** The ranking sorts *)

Section sortedness.
Context {A : Type} (cmp : A → A → comparison) (Hcmp : order_cmp cmp).

Lemma cmp_eq_r x y z : cmp y z = Eq → cmp x y = cmp x z.
Proof.
  intros Hyz. rewrite (cmp_antisym _ Hcmp y x), (cmp_antisym _ Hcmp z x).
  f_equal. symmetry. apply (cmp_eq_l _ Hcmp).
  by rewrite (cmp_antisym _ Hcmp y z), Hyz.
Qed.

Lemma cmp_le_trans x y z : cmp x y ≠ Gt → cmp y z ≠ Gt → cmp x z ≠ Gt.
Proof.
  intros Hxy Hyz.
  destruct (cmp x y) eqn:Exy; [|clear Hxy|done].
  - by rewrite (cmp_eq_l _ Hcmp _ _ _ Exy).
  - destruct (cmp y z) eqn:Eyz; [| |done].
    + by rewrite <- (cmp_eq_r x _ _ Eyz), Exy.
    + by rewrite (cmp_trans_lt _ Hcmp _ _ _ Exy Eyz).
Qed.

Lemma insert_sorted_sorted x l :
  StronglySorted (λ a b, cmp a b ≠ Gt) l →
  StronglySorted (λ a b, cmp a b ≠ Gt) (insert_sorted cmp x l).
Proof.
  induction 1 as [|y r Hr IH Hy]; cbn; [repeat constructor|].
  assert (Hflip : cmp y x ≠ Lt → cmp x y ≠ Gt).
  { rewrite (cmp_antisym _ Hcmp y x). by destruct (cmp y x). }
  destruct (cmp y x) eqn:Eyx.
  - constructor; [by constructor|]. constructor; [by apply Hflip|].
    eapply Forall_impl; [exact Hy|]. intros z Hz.
    by apply (cmp_le_trans x y z); [apply Hflip|].
  - constructor; [done|]. rewrite insert_sorted_perm.
    constructor; [by rewrite Eyx|done].
  - constructor; [by constructor|]. constructor; [by apply Hflip|].
    eapply Forall_impl; [exact Hy|]. intros z Hz.
    by apply (cmp_le_trans x y z); [apply Hflip|].
Qed.

Lemma stable_sort_sorted l :
  StronglySorted (λ a b, cmp a b ≠ Gt) (stable_sort cmp l).
Proof.
  induction l as [|x l IH]; [constructor|]. cbn. by apply insert_sorted_sorted.
Qed.

End sortedness.

Section order_cmp_instances.

Lemma order_cmp_Z : order_cmp Z.compare.
Proof.
  split.
  - intros x y. apply Z.compare_antisym.
  - intros x y z. rewrite !Z.compare_lt_iff. lia.
  - intros x y z Hxy%Z.compare_eq. by subst.
Qed.

Lemma order_cmp_on {A B} (f : A → B) (cmp : B → B → comparison) :
  order_cmp cmp → order_cmp (λ x y, cmp (f x) (f y)).
Proof.
  intros [Ha Ht He]. split; [intros x y; apply Ha|..].
  - intros x y z. apply Ht.
  - intros x y z. apply He.
Qed.

Lemma order_cmp_lex {A} (c1 c2 : A → A → comparison) :
  order_cmp c1 → order_cmp c2 →
  order_cmp (λ x y, match c1 x y with Eq => c2 x y | c => c end).
Proof.
  intros H1 H2. split.
  - intros x y. rewrite (cmp_antisym _ H1 x y).
    destruct (c1 x y); cbn; [apply (cmp_antisym _ H2)|done..].
  - intros x y z.
    destruct (c1 x y) eqn:Exy; [| |done].
    + rewrite (cmp_eq_l _ H1 _ _ _ Exy).
      destruct (c1 y z); [apply (cmp_trans_lt _ H2)|done..].
    + intros _. destruct (c1 y z) eqn:Eyz; [| |done].
      * intros _. by rewrite <- (cmp_eq_r _ H1 x _ _ Eyz), Exy.
      * intros _. by rewrite (cmp_trans_lt _ H1 _ _ _ Exy Eyz).
  - intros x y z.
    destruct (c1 x y) eqn:Exy; [|done..].
    intros Hxy. rewrite (cmp_eq_l _ H1 _ _ _ Exy).
    destruct (c1 y z); [by apply (cmp_eq_l _ H2)|done..].
Qed.

Lemma str_compare_antisym a b : str_compare b a = CompOpp (str_compare a b).
Proof.
  revert b. induction a as [|x a IH]; intros [|y b]; cbn; try done.
  rewrite (N.compare_antisym x y). destruct (x ?= y)%N; cbn; [apply IH|done..].
Qed.

Lemma str_compare_eq a b : str_compare a b = Eq → a = b.
Proof.
  revert b. induction a as [|x a IH]; intros [|y b]; cbn; try done.
  destruct (x ?= y)%N eqn:Exy; [|done..].
  apply N.compare_eq in Exy as ->. by intros ->%IH.
Qed.

Lemma str_compare_trans a b c :
  str_compare a b = Lt → str_compare b c = Lt → str_compare a c = Lt.
Proof.
  revert b c. induction a as [|x a IH]; intros [|y b] [|z c]; cbn; try done.
  destruct (N.compare_spec x y) as [->|Hxy|Hxy]; [| |done].
  - destruct (N.compare_spec y z) as [->|Hyz|Hyz]; [apply IH|done..].
  - intros _. destruct (N.compare_spec y z) as [->|Hyz|Hyz]; [| |done].
    + intros _. by apply N.compare_lt_iff in Hxy as ->.
    + intros _. assert (x < z)%N as ->%N.compare_lt_iff by lia. done.
Qed.

Lemma order_cmp_str : order_cmp str_compare.
Proof.
  split.
  - intros x y. apply str_compare_antisym.
  - apply str_compare_trans.
  - intros x y z Hxy%str_compare_eq. by subst.
Qed.

Lemma order_cmp_value : order_cmp value_compare.
Proof.
  pose proof order_cmp_Z as HZ. pose proof order_cmp_str as HS.
  split.
  - intros x y. destruct x, y; cbn; try done;
      first [apply (cmp_antisym _ HZ) | apply (cmp_antisym _ HS)].
  - intros x y z. destruct x, y, z; cbn; try done;
      first [apply (cmp_trans_lt _ HZ) | apply (cmp_trans_lt _ HS)].
  - intros x y z. destruct x, y, z; cbn; try done;
      first [apply (cmp_eq_l _ HZ) | apply (cmp_eq_l _ HS)].
Qed.

Lemma order_cmp_rank : order_cmp rank_compare.
Proof.
  apply (order_cmp_lex (λ a b : row, (result_priority (a Result)
                                      ?= result_priority (b Result))%Z)
                       (λ a b : row, value_compare (a Result) (b Result))).
  - apply (order_cmp_on (λ r : row, result_priority (r Result))), order_cmp_Z.
  - apply (order_cmp_on (λ r : row, r Result)), order_cmp_value.
Qed.

(** The ranked rows of a client ascend in (priority rank, status). *)
Lemma client_rows_sorted df client_id :
  StronglySorted (λ a b, rank_compare a b ≠ Gt) (client_rows df client_id).
Proof. apply stable_sort_sorted, order_cmp_rank. Qed.

End order_cmp_instances.

Lemma result_priority_unmapped status :
  status ∉ RANKED_STATUSES → result_priority status = 6%Z.
Proof.
  intros Hout. destruct status as [| | | | |s|]; try done.
  unfold result_priority. repeat case_bool_decide; try done; subst;
    destruct Hout; unfold RANKED_STATUSES; set_solver.
Qed.

(** C4. Within every client group the ranking is stable: the records that
    share a pair (priority rank, result status) appear in the ranked group in
    the order they had in the input. The rank is 1 to 5 for the five listed
    statuses, in the order 获得CAS/COE, 获得UO, 获得CO, 拒信, 大学撤销, and 6 for
    every other status. *)
Theorem ranking_stable_for_ties (df : dataframe) (client_id : value)
                                (k : Z * value) :
  List.filter (λ r, bool_decide (sort_key r = k)) (client_rows df client_id)
  = List.filter (λ r, bool_decide (sort_key r = k)) (rows_of_client df client_id) ∧
  result_priority <$> RANKED_STATUSES = [1; 2; 3; 4; 5]%Z ∧
  (∀ status, status ∉ RANKED_STATUSES → result_priority status = 6%Z).
Proof.
  split; [|split; [by vm_compute|apply result_priority_unmapped]].
  unfold client_rows, sort_values.
  apply (stable_sort_class rank_compare sort_key rank_compare_lt_key).
Qed.

Section grouping.

Lemma unique_from_elem seen l x :
  x ∈ unique_from seen l ↔ x ∈ l ∧ x ∉ seen.
Proof.
  revert seen. induction l as [|y l IH]; intros seen; cbn.
  - set_solver.
  - case_bool_decide as Hy.
    + rewrite IH. set_solver.
    + rewrite !elem_of_cons, IH, not_elem_of_cons.
      destruct (decide (x = y)) as [->|]; naive_solver.
Qed.

Lemma unique_from_NoDup seen l : NoDup (unique_from seen l).
Proof.
  revert seen. induction l as [|y l IH]; intros seen; cbn; [constructor|].
  case_bool_decide; [done|]. constructor; [|done].
  rewrite unique_from_elem. set_solver.
Qed.

(** Order of first appearance: what stands before [b] in the result
    occurs in the input before the first [b]. *)
Lemma unique_from_order seen l u1 a u2 b :
  unique_from seen l = u1 ++ a :: u2 → b ∈ u2 → appears_before a b l.
Proof.
  revert seen u1. induction l as [|y l IH]; intros seen u1 Hu Hb; cbn in Hu.
  - by destruct u1.
  - assert (Hb' : b ∈ unique_from seen (y :: l)).
    { cbn. rewrite Hu. set_solver. }
    case_bool_decide as Hy.
    + destruct (IH _ _ Hu Hb) as (l1 & l2 & -> & Hl1).
      exists (y :: l1), l2. split; [done|].
      apply unique_from_elem in Hb' as [_ Hseen]. set_solver.
    + destruct u1 as [|z u1]; cbn in Hu; injection Hu as <- Hu.
      * exists [], l. split; [done|]. set_solver.
      * destruct (IH _ _ Hu Hb) as (l1 & l2 & -> & Hl1).
        exists (y :: l1), l2. split; [done|].
        assert (b ∈ unique_from (y :: seen) (l1 ++ a :: l2)) as Hin
          by (rewrite Hu; set_solver).
        apply unique_from_elem in Hin as [_ Hseen]. set_solver.
Qed.

Lemma eq_value_true a b : eq_value a b = true ↔ a = b ∧ isna a = false.
Proof.
  unfold eq_value. rewrite !andb_true_iff, !negb_true_iff, bool_decide_eq_true.
  split; [by intros [[? ?] ?]|]. by intros [<- ?].
Qed.

Lemma filter_none {A} (p : A → bool) l :
  Forall (λ x, p x = false) l → List.filter p l = [].
Proof. induction 1 as [|x l Hx _ IH]; cbn; [done|]. by rewrite Hx. Qed.

Lemma filter_filter_not_key k k' (rows : list row) :
  k' ≠ k →
  List.filter (λ r, eq_value (r ClientId) k')
              (List.filter (λ r, negb (eq_value (r ClientId) k)) rows)
  = List.filter (λ r, eq_value (r ClientId) k') rows.
Proof.
  intros Hne. induction rows as [|r rows IH]; [done|]. cbn.
  destruct (eq_value (r ClientId) k) eqn:Hk; cbn; rewrite IH; [|done].
  destruct (eq_value (r ClientId) k') eqn:Hk'; [|done].
  apply eq_value_true in Hk as [? _], Hk' as [? _]. congruence.
Qed.

Lemma filter_key_split k (rows : list row) :
  List.filter (λ r, eq_value (r ClientId) k) rows
  ++ List.filter (λ r, negb (isna (r ClientId)))
                 (List.filter (λ r, negb (eq_value (r ClientId) k)) rows)
  ≡ₚ List.filter (λ r, negb (isna (r ClientId))) rows.
Proof.
  induction rows as [|r rows IH]; [done|]. cbn.
  destruct (eq_value (r ClientId) k) eqn:Hk; cbn.
  - apply eq_value_true in Hk as [_ ->]. cbn. by rewrite IH.
  - destruct (isna (r ClientId)); cbn; [done|].
    by rewrite <- Permutation_middle, IH.
Qed.

(** Splitting the rows by the keys of a duplicate-free list loses and
    repeats nothing. *)
Lemma partition_by_keys (keys : list value) (rows : list row) :
  NoDup keys →
  Forall (λ r, isna (r ClientId) = false → r ClientId ∈ keys) rows →
  concat ((λ k, List.filter (λ r, eq_value (r ClientId) k) rows) <$> keys)
  ≡ₚ List.filter (λ r, negb (isna (r ClientId))) rows.
Proof.
  intros Hnd. revert rows. induction Hnd as [|k keys Hk Hnd IH]; intros rows Hin.
  - cbn. rewrite filter_none; [done|].
    eapply Forall_impl; [exact Hin|]. cbn. intros r Hr.
    destruct (isna (r ClientId)); [done|]. specialize (Hr eq_refl).
    by apply elem_of_nil in Hr.
  - cbn [fmap list_fmap concat].
    rewrite <- filter_key_split with (k := k). f_equiv.
    rewrite <- IH.
    + apply reflexive_eq. f_equal. apply list_fmap_ext.
      intros i k' Hk'%list_elem_of_lookup_2. symmetry.
      apply filter_filter_not_key. by intros ->.
    + apply Forall_forall. intros r Hr%list_elem_of_In%filter_In Hna.
      destruct Hr as [Hr%list_elem_of_In Hne%negb_true_iff].
      eapply Forall_forall in Hin; [|exact Hr].
      apply elem_of_cons in Hin as [Heq|?]; [|done..].
      assert (eq_value (r ClientId) k = true) by by apply eq_value_true.
      congruence.
Qed.

Lemma group_of_Some df client_id g :
  group_of df client_id = Some g →
  g_id g = client_id ∧ g_rows g = client_rows df client_id ∧ g_rows g ≠ [].
Proof.
  unfold group_of. destruct (Z.eqb_spec (len (client_rows df client_id)) 0) as [|Hne];
    [done|]. intros [= <-]. cbn. repeat split. intros Hnil.
  by rewrite Hnil in Hne.
Qed.

Lemma group_of_None df client_id :
  group_of df client_id = None → client_rows df client_id = [].
Proof.
  unfold group_of. destruct (Z.eqb_spec (len (client_rows df client_id)) 0) as [H0|];
    [|done]. intros _. by destruct (client_rows df client_id).
Qed.

Lemma concat_groups df (u : list value) :
  concat (g_rows <$> omap (group_of df) u) = concat (client_rows df <$> u).
Proof.
  induction u as [|x u IH]; [done|]. cbn.
  destruct (group_of df x) as [g|] eqn:Hg; cbn; rewrite IH.
  - by apply group_of_Some in Hg as (_ & -> & _).
  - by rewrite (group_of_None _ _ Hg).
Qed.

Lemma concat_client_rows df (u : list value) :
  concat (client_rows df <$> u) ≡ₚ concat (rows_of_client df <$> u).
Proof.
  induction u as [|x u IH]; [done|]. cbn.
  by rewrite IH, (sort_values_perm (rows_of_client df x)).
Qed.

(** The keys of the groups, cut at a key [a]: the identifiers met so far
    are cut at [a] as well, and what follows [a] still follows it. *)
Lemma group_keys_split df (u : list value) k1 a k2 :
  g_id <$> omap (group_of df) u = k1 ++ a :: k2 →
  ∃ u1 u2, u = u1 ++ a :: u2 ∧ k2 ⊆ u2.
Proof.
  revert k1. induction u as [|x u IH]; intros k1 Hk; cbn in Hk.
  - by destruct k1.
  - destruct (group_of df x) as [g|] eqn:Hg; cbn in Hk.
    + apply group_of_Some in Hg as (Hid & _).
      destruct k1 as [|z k1]; cbn in Hk; injection Hk as Hx Hk.
      * exists [], u. subst. split; [done|].
        intros b (g' & -> & Hg')%list_elem_of_fmap.
        apply list_elem_of_omap in Hg' as (y & Hy & Hgy).
        apply group_of_Some in Hgy as (-> & _). done.
      * destruct (IH _ Hk) as (u1 & u2 & -> & Hsub).
        by exists (x :: u1), u2.
    + destruct (IH _ Hk) as (u1 & u2 & -> & Hsub).
      by exists (x :: u1), u2.
Qed.

Lemma group_keys_NoDup df (u : list value) :
  NoDup u → NoDup (g_id <$> omap (group_of df) u).
Proof.
  induction 1 as [|x u Hx Hnd IH]; cbn; [constructor|].
  destruct (group_of df x) as [g|] eqn:Hg; cbn; [|done].
  apply group_of_Some in Hg as (-> & _). constructor; [|done].
  intros (g' & Heq & Hg')%list_elem_of_fmap.
  apply list_elem_of_omap in Hg' as (y & Hy & Hgy).
  apply group_of_Some in Hgy as (<- & _). congruence.
Qed.

End grouping.

(** C3. The Record Grouper partitions the records: the rows of all emitted
    groups together are, up to order, the input rows whose client identifier
    is not null; every row of a group carries the identifier of its group; no
    identifier heads two groups; the groups come in the order in which their
    identifiers first appear in the input; and no emitted group is empty. *)
Theorem client_groups_partition (df : dataframe) :
  concat (g_rows <$> client_groups df)
    ≡ₚ List.filter (λ r, negb (isna (r ClientId))) (df_rows df) ∧
  Forall (λ g, Forall (λ r, r ClientId = g_id g) (g_rows g)) (client_groups df) ∧
  NoDup (g_id <$> client_groups df) ∧
  (∀ k1 a k2 b, g_id <$> client_groups df = k1 ++ a :: k2 → b ∈ k2 →
                appears_before a b (client_ids df)) ∧
  Forall (λ g, g_rows g ≠ []) (client_groups df).
Proof.
  unfold client_groups. repeat split.
  - rewrite concat_groups, concat_client_rows.
    apply partition_by_keys; [apply unique_from_NoDup|].
    apply Forall_forall. intros r Hr _. apply unique_from_elem.
    split; [|apply not_elem_of_nil]. unfold client_ids.
    apply list_elem_of_fmap. eauto.
  - apply Forall_forall. intros g (id & _ & Hg)%list_elem_of_omap.
    apply group_of_Some in Hg as (-> & -> & _).
    apply Forall_forall. intros r Hr.
    unfold client_rows in Hr. rewrite sort_values_perm in Hr.
    apply list_elem_of_In, filter_In in Hr as [_ Hr].
    by apply eq_value_true in Hr as [? _].
  - apply group_keys_NoDup, unique_from_NoDup.
  - intros k1 a k2 b Hk Hb.
    destruct (group_keys_split _ _ _ _ _ Hk) as (u1 & u2 & Hu & Hsub).
    eapply unique_from_order; [exact Hu|]. by apply Hsub.
  - apply Forall_forall. intros g (id & _ & Hg)%list_elem_of_omap.
    by apply group_of_Some in Hg as (_ & _ & ?).
Qed.

(** ** Worksheet cells *)

Section cells.
Implicit Types (ws : worksheet) (k : nat * nat).

Lemma set_value_ne r c v ws k : k ≠ (r, c) → set_value r c v ws !! k = ws !! k.
Proof. intros Hk. unfold set_value. by rewrite lookup_insert_ne. Qed.

Lemma assign_value_ne r c v ws k :
  k ≠ (r, c) → assign_value r c v ws !! k = ws !! k.
Proof. intros Hk. unfold assign_value. by rewrite lookup_insert_ne. Qed.

Lemma set_fill_ne r c x ws k : k ≠ (r, c) → set_fill r c x ws !! k = ws !! k.
Proof. intros Hk. unfold set_fill. by rewrite lookup_insert_ne. Qed.

Lemma set_font_ne r c x ws k : k ≠ (r, c) → set_font r c x ws !! k = ws !! k.
Proof. intros Hk. unfold set_font. by rewrite lookup_insert_ne. Qed.

Lemma get_cell_insert r c x ws : get_cell (<[(r, c) := x]> ws) r c = x.
Proof. unfold get_cell. by rewrite lookup_insert_eq. Qed.

Lemma get_cell_fresh r c ws : ws !! (r, c) = None → get_cell ws r c = empty_cell.
Proof. unfold get_cell. by intros ->. Qed.

Lemma get_cell_ext ws ws' r c :
  ws' !! (r, c) = ws !! (r, c) → get_cell ws' r c = get_cell ws r c.
Proof. unfold get_cell. by intros ->. Qed.

(** A loop of writes that all avoid a cell leaves it as it was. *)
Lemma foldl_frame {A} (f : worksheet → A → worksheet) (P : A → Prop) k :
  (∀ ws x, P x → f ws x !! k = ws !! k) →
  ∀ l ws, Forall P l → foldl f ws l !! k = ws !! k.
Proof.
  intros Hf l. induction l as [|x l IH]; intros ws Hl; [done|].
  apply Forall_cons in Hl as [Hx Hl]. cbn. by rewrite IH, Hf.
Qed.

Lemma enumerate_elem {A} start (l : list A) i x :
  (i, x) ∈ enumerate start l → start ≤ i < start + length l ∧ l !! (i - start) = Some x.
Proof.
  unfold enumerate. revert start. induction l as [|y l IH]; intros start; cbn.
  - by intros ?%elem_of_nil.
  - intros [[= -> ->]|Hin]%elem_of_cons.
    + split; [lia|]. by rewrite Nat.sub_diag.
    + apply IH in Hin as [Hi Hx]. split; [lia|].
      replace (i - start) with (S (i - S start)) by lia. done.
Qed.

Lemma enumerate_cons {A} start (x : A) l :
  enumerate start (x :: l) = (start, x) :: enumerate (S start) l.
Proof. done. Qed.

Lemma write_countdown_ne today r c deadline ws k :
  k ≠ (r, c) → write_countdown today r c deadline ws !! k = ws !! k.
Proof.
  intros Hk. unfold write_countdown.
  destruct (days_left today deadline) as [n|]; [|done].
  repeat case_match; by rewrite ?set_font_ne, ?set_fill_ne, ?set_value_ne.
Qed.

Lemma write_field_ne r c v ws k :
  k ≠ (r, c) → write_field r c v ws !! k = ws !! k.
Proof.
  intros Hk. unfold write_field.
  case_bool_decide; by rewrite ?assign_value_ne, ?set_value_ne.
Qed.

(** The countdown cell after [write_countdown] into a fresh cell. *)
Lemma write_countdown_fresh today r c deadline ws :
  ws !! (r, c) = None →
  write_countdown today r c deadline ws !! (r, c)
  = countdown_cell <$> days_left today deadline.
Proof.
  intros Hfresh. unfold write_countdown, countdown_cell.
  destruct (days_left today deadline) as [n|]; [|done]. cbn.
  assert (Hv : get_cell (set_value r c (VInt n) ws) r c = Cell (VInt n) None None).
  { unfold set_value. by rewrite get_cell_insert, get_cell_fresh. }
  destruct ((n <=? 30)%Z && (n >? 0)%Z).
  - unfold set_font. rewrite lookup_insert_eq. f_equal.
    unfold set_fill at 1 2. rewrite !get_cell_insert. by rewrite Hv.
  - destruct (n <=? 0)%Z.
    + unfold set_fill. rewrite lookup_insert_eq. by rewrite Hv.
    + unfold set_value. rewrite lookup_insert_eq. by rewrite get_cell_fresh.
Qed.

End cells.

(** ** The per-client sheet *)

Section client_sheet_cells.
Implicit Types (ws : worksheet) (k : nat * nat).

Lemma write_row_other_rows display today n_headers ws (entry : nat * row) k :
  k.1 ≠ entry.1 →
  write_row display today n_headers ws entry !! k = ws !! k.
Proof.
  destruct entry as [row_idx r], k as [kr kc]. cbn. intros Hk.
  unfold write_row. rewrite write_countdown_ne by congruence.
  apply (foldl_frame _ (λ _, True)); [|by apply Forall_forall].
  intros ws' [col_idx field] _. apply write_field_ne. congruence.
Qed.

Lemma write_header_other_rows ws (entry : nat * pystr) k :
  k.1 ≠ 2 → write_header ws entry !! k = ws !! k.
Proof.
  destruct entry as [col header], k as [kr kc]. cbn. intros Hk.
  unfold write_header. rewrite set_fill_ne, set_value_ne; congruence.
Qed.

Lemma merge_cells_row_ne r c1 c2 ws k :
  (k.1 ≠ r ∨ k.2 ≤ c1) → merge_cells_row r c1 c2 ws !! k = ws !! k.
Proof.
  intros Hk. unfold merge_cells_row.
  apply (foldl_frame _ (λ c, c1 < c)).
  - intros ws' c Hc. apply lookup_insert_ne. destruct k; cbn in *.
    intros [= -> ->]. lia.
  - apply Forall_forall. intros c Hc%elem_of_seq. lia.
Qed.

Lemma rows_from_3 (rows : list row) :
  Forall (λ entry : nat * row, 3 ≤ entry.1) (enumerate 3 rows).
Proof.
  apply Forall_forall. intros [i r] Hin%enumerate_elem. cbn. lia.
Qed.

(** Row 1 and row 2 are not touched by the data rows. *)
Lemma data_rows_frame display today n_headers ws (rows : list row) k :
  k.1 < 3 →
  foldl (write_row display today n_headers) ws (enumerate 3 rows) !! k = ws !! k.
Proof.
  intros Hk. apply (foldl_frame _ (λ entry, 3 ≤ entry.1)); [|apply rows_from_3].
  intros ws' entry Hentry. apply write_row_other_rows. lia.
Qed.

Lemma headers_frame ws (headers : list pystr) k :
  k.1 ≠ 2 → foldl write_header ws (enumerate 1 headers) !! k = ws !! k.
Proof.
  intros Hk. apply (foldl_frame _ (λ _, True)); [|by apply Forall_forall].
  intros ws' entry _. by apply write_header_other_rows.
Qed.

(** The name cell A1 of a per-client sheet. *)
Lemma client_sheet_name_cell display today g :
  cell_value (client_sheet display today g) 1 1
  = VStr (hyperlink (CRM_LINK ++ py_str (g_id g)) (py_str (g_name g))).
Proof.
  unfold cell_value, client_sheet.
  erewrite get_cell_ext; [|by apply data_rows_frame; cbn; lia].
  erewrite get_cell_ext; [|by apply headers_frame].
  erewrite get_cell_ext; [|by rewrite set_font_ne, assign_value_ne].
  erewrite get_cell_ext; [|by apply merge_cells_row_ne; right].
  unfold set_font, assign_value. by rewrite !get_cell_insert.
Qed.

Lemma write_fields_frame row_idx (r : row) display ws k :
  (k.1 ≠ row_idx ∨ length display < k.2) →
  foldl (λ ws '(col_idx, field), write_field row_idx col_idx (r field) ws)
        ws (enumerate 1 display) !! k = ws !! k.
Proof.
  intros Hk. apply (foldl_frame _ (λ e : nat * column, e.1 ≤ length display)).
  - intros ws' [col_idx field] Hcol. apply write_field_ne.
    destruct k as [kr kc]. cbn in *. intros [= -> ->]. lia.
  - apply Forall_forall. intros [col_idx field] Hin%enumerate_elem. cbn. lia.
Qed.

Lemma write_row_countdown display today H ws row_idx (r : row) :
  ws !! (row_idx, H) = None → length display < H →
  write_row display today H ws (row_idx, r) !! (row_idx, H)
  = countdown_cell <$> days_left today (r DepositDeadline).
Proof.
  intros Hfresh Hlen. unfold write_row. apply write_countdown_fresh.
  rewrite write_fields_frame; [done|]. right. cbn. lia.
Qed.

Lemma rows_countdown display today H (rows : list row) :
  length display < H →
  ∀ start ws i r,
    rows !! i = Some r →
    (∀ j, ws !! (start + j, H) = None) →
    foldl (write_row display today H) ws (enumerate start rows) !! (start + i, H)
    = countdown_cell <$> days_left today (r DepositDeadline).
Proof.
  intros Hlen. induction rows as [|r0 rows IH]; intros start ws i r Hr Hfresh;
    [done|].
  rewrite enumerate_cons. cbn [foldl]. destruct i as [|i].
  - injection Hr as ->. rewrite Nat.add_0_r.
    rewrite (foldl_frame _ (λ entry : nat * row, S start ≤ entry.1)).
    + apply write_row_countdown; [|done]. specialize (Hfresh 0).
      by rewrite Nat.add_0_r in Hfresh.
    + intros ws' entry Hentry. apply write_row_other_rows. cbn. lia.
    + apply Forall_forall. intros [j x] Hin%enumerate_elem. cbn. lia.
  - cbn in Hr. replace (start + S i) with (S start + i) by lia.
    apply IH; [done|]. intros j.
    rewrite write_row_other_rows by (cbn; lia).
    replace (S start + j) with (start + S j) by lia. apply Hfresh.
Qed.

(** The countdown cell of the [i]-th record of a group, in the column after
    the display columns. *)
Lemma client_sheet_countdown display today g i (r : row) :
  g_rows g !! i = Some r →
  client_sheet display today g !! (3 + i, S (length display))
  = countdown_cell <$> days_left today (r DepositDeadline).
Proof.
  intros Hr. unfold client_sheet.
  rewrite length_app, length_fmap. cbn [length].
  replace (length display + 1) with (S (length display)) by lia.
  apply rows_countdown; [lia|done|]. intros j.
  rewrite headers_frame by (cbn; lia).
  rewrite set_font_ne, assign_value_ne by (intros [=]; lia).
  rewrite merge_cells_row_ne by (left; cbn; lia).
  rewrite set_font_ne, assign_value_ne by (intros [=]; lia).
  apply lookup_empty.
Qed.

End client_sheet_cells.

(** C5. In the sheet of a client group, the countdown cell of a record
    whose (parsed) deposit deadline is a date holds the number of days from
    today to the deadline; at most 0 it is filled gray and keeps the default
    font, from 1 to 30 it is filled red with a white font, above 30 it has no
    fill. For a record whose deadline is missing or is not a date the
    countdown cell is not written. A missing deadline is parsed to no date,
    and a text to the date [to_datetime] reads in it, or to no date when it
    reads none. *)
Theorem countdown_cell_tiers `{ToDatetime} (display : list column) (today : date)
                             (g : client_group) (i : nat) (r : row) :
  g_rows g !! i = Some r →
  match r DepositDeadline with
  | VDate d =>
    let n := days_between d today in
    ∃ fill text_font,
      client_sheet display today g !! (3 + i, S (length display))
      = Some (Cell (VInt n) fill text_font) ∧
      ((n ≤ 0)%Z → fill = Some GRAY ∧ text_font = None) ∧
      ((0 < n ≤ 30)%Z →
         fill = Some RED ∧ text_font = Some (Font (Some WHITE) false)) ∧
      ((30 < n)%Z → fill = None ∧ text_font = None)
  | _ => client_sheet display today g !! (3 + i, S (length display)) = None
  end ∧
  (∀ raw, isna raw = true → parse_date raw = VNone) ∧
  (∀ s, parse_date (VStr s)
        = match to_datetime (if bool_decide (58%N ∈ s) then first_token s else s)
          with
          | Some d => VDate d
          | None => VNone
          end).
Proof.
  intros Hr. split; [|split].
  - rewrite (client_sheet_countdown _ _ _ _ _ Hr).
    destruct (r DepositDeadline) as [| | | b | n | s | d]; try done.
    cbn. unfold countdown_cell. set (n := days_between d today).
    destruct (Z.leb_spec n 30), (Z.gtb_spec n 0), (Z.leb_spec n 0); cbn;
      eexists _, _; (split; [reflexivity|]); repeat split; intros; (done || lia).
  - intros raw Hna. unfold parse_date. by rewrite Hna.
  - intros s. unfold parse_date. by cbn [isna].
Qed.

Lemma countdown_cell_tiers_witness :
  ∃ fill text_font,
    client_sheet [School] (Date 2024 5 20)
      (ClientGroup (VInt 1001) (VStr (utf8 "张三"))
                   [λ _, VDate (Date 2024 6 1)]) !! (3, 2)
    = Some (Cell (VInt 12) fill text_font) ∧
    fill = Some RED ∧ text_font = Some (Font (Some WHITE) false).
Proof.
  destruct (@countdown_cell_tiers iso_date [School] (Date 2024 5 20)
              (ClientGroup (VInt 1001) (VStr (utf8 "张三"))
                           [λ _, VDate (Date 2024 6 1)])
              0 (λ _, VDate (Date 2024 6 1)) eq_refl)
    as [(fill & text_font & Hcell & _ & Hred & _) _].
  exists fill, text_font. split; [exact Hcell|]. apply Hred. vm_compute. by split.
Defined.

(** C6 (amended). The name of a client group, which the header cell A1 of its
    sheet displays, is the name of the first record of the group in ranked
    order when the name column exists and that name is not null, and the
    placeholder otherwise. *)
Theorem client_name_is_first_row_name (df : dataframe) (display : list column)
                                      (today : date) (g : client_group) :
  g ∈ client_groups df →
  ∃ first rest,
    g_rows g = first :: rest ∧
    g_name g = (if df_has df Name && negb (isna (first Name)) then first Name
                else VStr UNKNOWN_NAME) ∧
    cell_value (client_sheet display today g) 1 1
    = VStr (hyperlink (CRM_LINK ++ py_str (g_id g)) (py_str (g_name g))).
Proof.
  intros (client_id & _ & Hg)%list_elem_of_omap. unfold group_of in Hg.
  cbv zeta in Hg.
  destruct (Z.eqb_spec (len (client_rows df client_id)) 0) as [|Hlen]; [done|].
  injection Hg as <-. cbn [g_rows g_name g_id].
  destruct (client_rows df client_id) as [|first rest] eqn:Hrows; [done|].
  exists first, rest. split; [done|]. split.
  - unfold client_name_of.
    destruct (Z.gtb_spec (len (first :: rest)) 0) as [_|Hle];
      [|unfold len in Hle; cbn in Hle; lia].
    cbn [andb]. destruct (df_has df Name); [|done]. cbn [andb].
    by destruct (isna (first Name)).
  - by rewrite client_sheet_name_cell.
Qed.

Lemma client_name_is_first_row_name_witness :
  ∃ g first rest,
    client_groups df_second_name = [g] ∧ g_rows g = first :: rest ∧
    g_name g = (if negb (isna (first Name)) then first Name
                else VStr UNKNOWN_NAME).
Proof.
  eexists _. 
  destruct (client_name_is_first_row_name df_second_name [] (Date 2024 5 20)
              (ClientGroup (VInt 1) (VStr UNKNOWN_NAME)
                           [row_without_name; row_with_name]))
    as (first & rest & Hrows & Hname & _).
  - vm_compute. apply list_elem_of_here.
  - exists first, rest. split; [vm_compute; reflexivity|]. split; [exact Hrows|].
    exact Hname.
Defined.

(** C6, as stated, fails: in [df_second_name] the only group takes the
    placeholder as its name, although the second record of the group has a
    name, which is the first name of the group that is not null. *)
Lemma client_name_not_first_non_null :
  g_name <$> client_groups df_second_name = [VStr UNKNOWN_NAME] ∧
  (λ g, spec_first_non_null_name (g_rows g)) <$> client_groups df_second_name
  = [Some (VStr (utf8 "张三"))].
Proof. split; vm_compute; reflexivity. Qed.

(** ** Cross-references *)

Section linker.
Context `{IntOfStr}.

Lemma enumerate_lookup {A} start (l : list A) i x :
  l !! i = Some x → enumerate start l !! i = Some (start + i, x).
Proof.
  intros Hx. unfold enumerate. apply lookup_zip_with_Some.
  exists (start + i), x. split; [done|]. split; [|done].
  apply lookup_seq. split; [done|]. by apply lookup_lt_Some in Hx.
Qed.

Lemma collect_id_values_from (column : list id_cell) start (m : gmap nat value) :
  (∀ i c, column !! i = Some c →
     foldl record_id m (enumerate start column) !! (start + i)
     = if truthy (extract_id_from_hyperlink (cached c))
       then Some (extract_id_from_hyperlink (cached c))
       else m !! (start + i)) ∧
  (∀ k, k < start → foldl record_id m (enumerate start column) !! k = m !! k).
Proof.
  revert start m. induction column as [|c0 column IH]; intros start m.
  - split; [by intros i c ?|done].
  - rewrite enumerate_cons. cbn [foldl].
    destruct (IH (S start) (record_id m (start, c0))) as [IHi IHk].
    assert (Hstep : ∀ k, k ≠ start → record_id m (start, c0) !! k = m !! k).
    { intros k Hk. unfold record_id. cbv zeta.
      destruct (truthy _); [|done]. by apply lookup_insert_ne. }
    split.
    + intros [|i] c Hc.
      * injection Hc as ->. rewrite Nat.add_0_r, IHk by lia.
        unfold record_id. cbv zeta.
        destruct (truthy _); [by rewrite lookup_insert_eq|done].
      * cbn in Hc. replace (start + S i) with (S start + i) by lia.
        rewrite (IHi _ _ Hc), Hstep by lia. done.
    + intros k Hk. rewrite IHk, Hstep by lia. done.
Qed.

Lemma collect_id_values_lookup (column : list id_cell) i c :
  column !! i = Some c →
  collect_id_values column !! (2 + i)
  = if truthy (extract_id_from_hyperlink (cached c))
    then Some (extract_id_from_hyperlink (cached c)) else None.
Proof.
  intros Hc. unfold collect_id_values.
  by rewrite (proj1 (collect_id_values_from column 2 ∅) i c Hc).
Qed.

Lemma cross_reference_lookup (column : list id_cell) i c :
  column !! i = Some c →
  cross_reference column !! i
  = Some (if truthy (extract_id_from_hyperlink (cached c))
          then VStr (id_link (extract_id_from_hyperlink (cached c)))
          else stored c).
Proof.
  intros Hc. unfold cross_reference, link_ids.
  rewrite list_lookup_fmap, (enumerate_lookup _ _ _ _ Hc).
  cbn [fmap option_fmap option_map]. unfold link_id.
  rewrite (collect_id_values_lookup _ _ _ Hc).
  by destruct (truthy (extract_id_from_hyperlink (cached c))) eqn:Ht; [rewrite Ht|].
Qed.

Lemma str_of_Z_no_quote n : dquote ∉ str_of_Z n.
Proof.
  intros Hin. pose proof (str_of_Z_chars n) as Hc.
  eapply Forall_forall in Hc; [|exact Hin].
  unfold is_digit, dquote in Hc. lia.
Qed.

Lemma offer_anchor_no_quote n : dquote ∉ OFFER_BOOK ++ str_of_Z n ++ utf8 "!A1".
Proof.
  rewrite !not_elem_of_app. split; [by_compute|].
  split; [apply str_of_Z_no_quote|by_compute].
Qed.

Lemma sheet_chars_kept (s : pystr) :
  Forall (λ c, is_digit c ∨ c = 45%N) s →
  map (λ c, if sheet_forbidden c then 95%N else c) s = s.
Proof.
  induction 1 as [|c s Hc _ IH]; [done|]. cbn [map]. rewrite IH. f_equal.
  unfold sheet_forbidden. case_bool_decide as Hf; [|done].
  unfold is_digit in Hc.
  repeat (apply elem_of_cons in Hf as [->|Hf]; [lia|]).
  by apply elem_of_nil in Hf.
Qed.

(** A decimal numeral of at most 31 characters is its own sheet name. *)
Lemma clean_sheet_name_decimal n :
  (len (str_of_Z n) ≤ 31)%Z → clean_sheet_name (VStr (str_of_Z n)) = str_of_Z n.
Proof.
  intros Hlen. unfold clean_sheet_name. cbv zeta.
  pose proof (str_of_Z_chars n) as Hc.
  rewrite (sheet_chars_kept _ Hc), clean_str_fix.
  - destruct (Z.gtb_spec (len (str_of_Z n)) 31); [lia|done].
  - eapply Forall_impl; [exact Hc|]. intros c Hd. unfold storable, is_digit in *.
    unfold fw_lparen, fw_rparen. lia.
  - unfold EXCEL_CELL_MAX. lia.
Qed.

Lemma extract_id_link `{!IntOfStrSpec} n :
  extract_id_from_hyperlink (VStr (id_link (VInt n))) = VInt n.
Proof.
  unfold id_link. rewrite hyperlink_is_with. cbn [py_str].
  rewrite extract_id_hyperlink_with;
    [|by_compute|apply offer_anchor_no_quote|apply str_of_Z_no_quote].
  by rewrite int_of_str_of_Z.
Qed.

End linker.

(** C7 (amended). A row of the identifier column whose extracted identifier
    is truthy is overwritten with a link formula whose display text is the
    string form of that identifier; when the identifier is an integer its
    decimal form (of at most 31 characters) is the sanitized sheet name the
    formula points at, in cell A1, the ID extractor applied to the written
    cell gives the identifier back, and linking the written cell again writes
    the same formula. A row whose extracted identifier is falsy keeps its
    stored content. *)
Theorem cross_reference_rows `{IntOfStr} `{!IntOfStrSpec}
                             (column : list id_cell) (i : nat) (c : id_cell) :
  column !! i = Some c →
  let clean_id := extract_id_from_hyperlink (cached c) in
  ∃ written,
    cross_reference column !! i = Some written ∧
    (truthy clean_id = false → written = stored c) ∧
    (truthy clean_id = true →
       ∃ url, written = VStr (hyperlink url (py_str clean_id))) ∧
    (∀ n, clean_id = VInt n → n ≠ 0%Z →
       ((len (str_of_Z n) ≤ 31)%Z →
          written = VStr (hyperlink (OFFER_BOOK
                                       ++ clean_sheet_name (VStr (py_str clean_id))
                                       ++ utf8 "!A1")
                                    (py_str clean_id))) ∧
       extract_id_from_hyperlink written = clean_id ∧
       VStr (id_link (extract_id_from_hyperlink written)) = written).
Proof.
  intros Hc clean_id. eexists. split; [by apply cross_reference_lookup|].
  fold clean_id. split; [by intros ->|]. split.
  - intros ->. by eexists.
  - intros n Hn Hn0. rewrite Hn. cbn [truthy].
    destruct (Z.eqb_spec n 0) as [|_]; [done|]. cbn [negb].
    rewrite extract_id_link. repeat split.
    intros Hlen. cbn [py_str]. by rewrite clean_sheet_name_decimal.
Qed.

Lemma cross_reference_rows_witness :
  ∃ written,
    @cross_reference decimal_int [IdCell (VInt 1001) (VInt 1001)] !! 0
    = Some written ∧
    @extract_id_from_hyperlink decimal_int written = VInt 1001.
Proof.
  destruct (@cross_reference_rows decimal_int decimal_int_str_of_Z
              [IdCell (VInt 1001) (VInt 1001)] 0 (IdCell (VInt 1001) (VInt 1001))
              eq_refl) as (written & Hw & _ & _ & Hint).
  exists written. split; [exact Hw|].
  apply (Hint 1001%Z eq_refl). discriminate.
Defined.

(** C7, as stated, fails: the identifier K7 is truthy, its cell is
    overwritten, and the ID extractor applied to the written cell returns the
    whole formula, not the identifier. *)
Lemma cross_reference_text_id_not_recovered :
  @cross_reference decimal_int column_with_text_id
  = [VStr (id_link (VStr (utf8 "K7")))] ∧
  @extract_id_from_hyperlink decimal_int <$>
    @cross_reference decimal_int column_with_text_id
  ≠ @extract_id_from_hyperlink decimal_int <$> (cached <$> column_with_text_id).
Proof. split; [vm_compute; reflexivity|vm_compute; discriminate]. Qed.

(** ** Deadline rollup *)

Section rollup.

Lemma insert_sorted_by_key {A} (f : A → Z) x l :
  StronglySorted (λ a b, (f a ≤ f b)%Z) l →
  StronglySorted (λ a b, (f a ≤ f b)%Z)
                 (insert_sorted (λ a b, (f a ?= f b)%Z) x l).
Proof.
  induction 1 as [|y r Hr IH Hy]; cbn.
  - repeat constructor.
  - destruct (Z.compare_spec (f y) (f x)) as [Heq|Hlt|Hgt].
    + constructor; [by constructor|]. constructor; [lia|].
      eapply Forall_impl; [exact Hy|]. cbn. lia.
    + constructor; [done|].
      rewrite insert_sorted_perm. constructor; [lia|done].
    + constructor; [by constructor|]. constructor; [lia|].
      eapply Forall_impl; [exact Hy|]. cbn. lia.
Qed.

Lemma stable_sort_by_key {A} (f : A → Z) l :
  StronglySorted (λ a b, (f a ≤ f b)%Z) (stable_sort (λ a b, (f a ?= f b)%Z) l).
Proof.
  induction l as [|x l IH]; [constructor|]. cbn. by apply insert_sorted_by_key.
Qed.

(** The rollup rows are the collected rows, by ascending remaining days. *)
Lemma summary_data_perm offer_wb : summary_data offer_wb ≡ₚ collect_deadlines offer_wb.
Proof. apply stable_sort_perm. Qed.

Lemma summary_data_sorted offer_wb :
  StronglySorted (λ a b, (number_of (s_remaining a) ≤ number_of (s_remaining b))%Z)
                 (summary_data offer_wb).
Proof. apply (stable_sort_by_key (λ a, number_of (s_remaining a))). Qed.

(** One row is collected for each data row whose cell in the last used
    column holds a number from 0 to 30. *)
Lemma sheet_deadlines_rows sheet_name ws :
  (λ data, s_remaining data) <$> sheet_deadlines sheet_name ws
  = List.filter within_month
      ((λ row, cell_value ws row (max_column ws)) <$> data_rows ws).
Proof.
  unfold sheet_deadlines. induction (data_rows ws) as [|row rows IH]; [done|].
  cbn. destruct (within_month _); cbn; by rewrite IH.
Qed.

Lemma collect_deadlines_elem offer_wb data :
  data ∈ collect_deadlines offer_wb →
  ∃ sheet_name ws row,
    (sheet_name, ws) ∈ offer_wb ∧ is_summary_sheet sheet_name = false ∧
    row ∈ data_rows ws ∧
    within_month (cell_value ws row (max_column ws)) = true ∧
    s_deadline data = cell_value ws row (max_column ws) ∧
    s_remaining data = cell_value ws row (max_column ws).
Proof.
  unfold collect_deadlines. rewrite list_elem_of_In. intros Hin.
  apply in_flat_map in Hin as ([sheet_name ws] & Hsheet%list_elem_of_In & Hin).
  destruct (is_summary_sheet sheet_name) eqn:Hsum; [done|].
  apply list_elem_of_In, list_elem_of_omap in Hin as (row & Hrow & Hdata).
  cbv zeta in Hdata.
  destruct (within_month (cell_value ws row (max_column ws))) eqn:Hw; [|done].
  injection Hdata as <-.
  by exists sheet_name, ws, row.
Qed.

End rollup.

(** C10. In every row of the deadline rollup the cell of the deposit-deadline
    column (the fourth) equals the cell of the remaining-days column (the
    fifth): both hold the number, from 0 to 30, read from the last used
    column of a data row of a per-client sheet. *)
Theorem rollup_deadline_is_remaining_days (offer_wb : workbook) :
  Forall (λ data,
            summary_cells data !! 3 = summary_cells data !! 4 ∧
            ∃ sheet_name ws row,
              (sheet_name, ws) ∈ offer_wb ∧ row ∈ data_rows ws ∧
              summary_cells data !! 4 = Some (cell_value ws row (max_column ws)) ∧
              within_month (cell_value ws row (max_column ws)) = true)
         (summary_data offer_wb).
Proof.
  rewrite summary_data_perm. apply Forall_forall. intros data Hdata.
  apply collect_deadlines_elem in Hdata
    as (sheet_name & ws & row & Hsheet & _ & Hrow & Hw & Hd & Hr).
  cbn. split; [congruence|].
  exists sheet_name, ws, row. by rewrite Hr.
Qed.

(** *** The last used column of a per-client sheet *)

Section last_column.
Implicit Types (ws : worksheet) (k : nat * nat).

Lemma cell_keys_elem ws k : k ∈ cell_keys ws ↔ is_Some (ws !! k).
Proof.
  unfold cell_keys. rewrite list_elem_of_fmap. split.
  - intros ([k' v] & -> & Hin). apply elem_of_map_to_list in Hin. by exists v.
  - intros [v Hv]. exists (k, v). split; [done|]. by apply elem_of_map_to_list.
Qed.

Lemma max_list_eq (l : list nat) m :
  m ∈ l → (∀ x, x ∈ l → x ≤ m) → max_list l = m.
Proof.
  intros Hm Hle. apply Nat.le_antisymm.
  - apply Hle, max_list_elem_of. intros ->. by apply elem_of_nil in Hm.
  - by apply max_list_elem_of_le.
Qed.

Lemma nonempty_sheet ws k : is_Some (ws !! k) → bool_decide (ws = ∅) = false.
Proof.
  intros [v Hv]. apply bool_decide_eq_false. intros ->.
  by rewrite lookup_empty in Hv.
Qed.

Lemma max_row_eq ws R :
  (∃ c, is_Some (ws !! (R, c))) → (∀ k, is_Some (ws !! k) → k.1 ≤ R) →
  max_row ws = R.
Proof.
  intros [c Hc] Hle. unfold max_row. rewrite (nonempty_sheet _ _ Hc).
  apply max_list_eq.
  - apply list_elem_of_fmap. exists (R, c). split; [done|]. by apply cell_keys_elem.
  - intros x ([r c'] & -> & Hin%cell_keys_elem)%list_elem_of_fmap.
    by apply Hle in Hin.
Qed.

Lemma max_column_eq ws C :
  (∃ r, is_Some (ws !! (r, C))) → (∀ k, is_Some (ws !! k) → k.2 ≤ C) →
  max_column ws = C.
Proof.
  intros [r Hr] Hle. unfold max_column. rewrite (nonempty_sheet _ _ Hr).
  apply max_list_eq.
  - apply list_elem_of_fmap. exists (r, C). split; [done|]. by apply cell_keys_elem.
  - intros x ([r' c] & -> & Hin%cell_keys_elem)%list_elem_of_fmap.
    by apply Hle in Hin.
Qed.

Lemma within_insert ws R C r c x :
  r ≤ R → c ≤ C → within ws R C → within (<[(r, c) := x]> ws) R C.
Proof.
  intros Hr Hc Hws k. destruct (decide (k = (r, c))) as [->|Hne]; [done|].
  rewrite lookup_insert_ne by done. apply Hws.
Qed.

Lemma foldl_within {A} (f : worksheet → A → worksheet) (P : A → Prop) R C :
  (∀ ws x, P x → within ws R C → within (f ws x) R C) →
  ∀ l ws, Forall P l → within ws R C → within (foldl f ws l) R C.
Proof.
  intros Hf l. induction l as [|x l IH]; intros ws Hl Hws; [done|].
  apply Forall_cons in Hl as [Hx Hl]. cbn. apply IH; [done|]. by apply Hf.
Qed.

Lemma write_field_within ws R C r c v :
  r ≤ R → c ≤ C → within ws R C → within (write_field r c v ws) R C.
Proof.
  intros Hr Hc Hws. unfold write_field, assign_value, set_value.
  case_bool_decide; repeat apply within_insert; done.
Qed.

Lemma write_countdown_within ws R C today r c deadline :
  r ≤ R → c ≤ C → within ws R C →
  within (write_countdown today r c deadline ws) R C.
Proof.
  intros Hr Hc Hws. unfold write_countdown, set_font, set_fill, set_value.
  destruct (days_left today deadline) as [n|]; [|done].
  repeat case_match; repeat apply within_insert; done.
Qed.

Lemma write_row_within ws R C display today H (entry : nat * row) :
  entry.1 ≤ R → length display ≤ C → H ≤ C → within ws R C →
  within (write_row display today H ws entry) R C.
Proof.
  destruct entry as [row_idx r]. cbn. intros Hr Hd HH Hws. unfold write_row.
  apply write_countdown_within; [done..|].
  apply (foldl_within _ (λ e : nat * column, e.1 ≤ length display)); [| |done].
  - intros ws' [col_idx field] Hcol Hws'. apply write_field_within; [done| |done].
    cbn in Hcol. lia.
  - apply Forall_forall. intros [col_idx field] Hin%enumerate_elem. cbn. lia.
Qed.

Lemma client_sheet_within display today g :
  length display ≤ 13 →
  within (client_sheet display today g) (2 + length (g_rows g)) 14.
Proof.
  intros Hd. unfold client_sheet.
  apply (foldl_within _ (λ entry : nat * row, entry.1 ≤ 2 + length (g_rows g))).
  - intros ws entry Hentry Hws. apply write_row_within; [done|lia| |done].
    rewrite length_app, length_fmap. cbn. lia.
  - apply Forall_forall. intros [i r] Hin%enumerate_elem. cbn. lia.
  - apply (foldl_within _ (λ entry : nat * pystr, entry.1 ≤ 14)).
    + intros ws [col header] Hcol Hws. unfold write_header, set_fill, set_value.
      cbn in Hcol. repeat apply within_insert; (done || lia).
    + apply Forall_forall. intros [col header] Hin%enumerate_elem. cbn.
      rewrite length_app, length_fmap in Hin. cbn in Hin. lia.
    + unfold set_font, assign_value, merge_cells_row.
      do 2 (apply within_insert; [lia|unfold EMAIL_COLUMN; lia|]).
      apply (foldl_within _ (λ c, c ≤ 14)).
      * intros ws c Hc Hws. apply within_insert; [lia|done|done].
      * apply Forall_forall. intros c Hc%elem_of_seq. lia.
      * do 2 (apply within_insert; [lia|lia|]). intros k Hk.
        rewrite lookup_empty in Hk. by destruct Hk.
Qed.

(** The mailbox link in N1 is there whatever the display columns are. *)
Lemma client_sheet_mailbox display today g :
  is_Some (client_sheet display today g !! (1, EMAIL_COLUMN)).
Proof.
  unfold client_sheet.
  rewrite data_rows_frame by (cbn; lia). rewrite headers_frame by (cbn; lia).
  unfold set_font at 1. by rewrite lookup_insert_eq.
Qed.

Lemma client_sheet_max_column display today g :
  length display ≤ 13 → max_column (client_sheet display today g) = 14.
Proof.
  intros Hd. apply max_column_eq.
  - exists 1. apply client_sheet_mailbox.
  - intros k Hk. by destruct (client_sheet_within display today g Hd k Hk).
Qed.

Lemma write_row_other_columns display today H ws (entry : nat * row) k :
  length display < k.2 → k.2 ≠ H →
  write_row display today H ws entry !! k = ws !! k.
Proof.
  destruct entry as [row_idx r], k as [kr kc]. cbn. intros Hk HH.
  unfold write_row. rewrite write_countdown_ne by congruence.
  apply write_fields_frame. right. done.
Qed.

(** With fewer than thirteen display columns nothing is ever written into
    column 14 of a data row. *)
Lemma client_sheet_column_14_empty display today g row :
  length display < 13 → 3 ≤ row →
  cell_value (client_sheet display today g) row 14 = VNone.
Proof.
  intros Hd Hrow. unfold cell_value, get_cell, client_sheet.
  rewrite (foldl_frame _ (λ _, True)); [| |by apply Forall_forall].
  - rewrite headers_frame by (cbn; lia).
    rewrite set_font_ne, assign_value_ne by (intros [=]; lia).
    rewrite merge_cells_row_ne by (left; cbn; lia).
    rewrite set_font_ne, assign_value_ne by (intros [=]; lia).
    by rewrite lookup_empty.
  - intros ws entry _. apply write_row_other_columns; cbn; [lia|].
    rewrite length_app, length_fmap. cbn. lia.
Qed.

(** The defect in general: a per-client sheet built from fewer than
    thirteen display columns contributes nothing to the rollup, whatever
    its countdown cells hold. *)
Lemma sheet_deadlines_without_a_column sheet_name display today g :
  length display < 13 →
  sheet_deadlines sheet_name (client_sheet display today g) = [].
Proof.
  intros Hd. unfold sheet_deadlines.
  rewrite client_sheet_max_column by lia.
  assert (Hrows : Forall (λ row, 3 ≤ row) (data_rows (client_sheet display today g))).
  { apply Forall_forall. intros row Hrow%elem_of_seq. lia. }
  induction Hrows as [|row rows Hrow _ IH]; [done|].
  cbn. by rewrite client_sheet_column_14_empty.
Qed.

Lemma insert_keeps ws k k' x :
  is_Some (ws !! k) → is_Some (<[k' := x]> ws !! k).
Proof. intros Hk. apply lookup_insert_is_Some'. by right. Qed.

Lemma foldl_keeps {A} (f : worksheet → A → worksheet) k :
  (∀ ws x, is_Some (ws !! k) → is_Some (f ws x !! k)) →
  ∀ l ws, is_Some (ws !! k) → is_Some (foldl f ws l !! k).
Proof.
  intros Hf l. induction l as [|x l IH]; intros ws Hk; [done|].
  cbn. by apply IH, Hf.
Qed.

Lemma write_field_keeps r c v ws k :
  is_Some (ws !! k) → is_Some (write_field r c v ws !! k).
Proof.
  intros Hk. unfold write_field, assign_value, set_value.
  case_bool_decide; repeat apply insert_keeps; done.
Qed.

Lemma write_field_there r c v ws : is_Some (write_field r c v ws !! (r, c)).
Proof.
  unfold write_field, assign_value, set_value.
  case_bool_decide; by rewrite lookup_insert_eq.
Qed.

Lemma write_countdown_keeps today r c deadline ws k :
  is_Some (ws !! k) → is_Some (write_countdown today r c deadline ws !! k).
Proof.
  intros Hk. unfold write_countdown, set_font, set_fill, set_value.
  destruct (days_left today deadline) as [n|]; [|done].
  repeat case_match; repeat apply insert_keeps; done.
Qed.

Lemma write_row_keeps display today H ws (entry : nat * row) k :
  is_Some (ws !! k) → is_Some (write_row display today H ws entry !! k).
Proof.
  destruct entry as [row_idx r]. intros Hk. unfold write_row.
  apply write_countdown_keeps, foldl_keeps; [|done].
  intros ws' [col_idx field]. apply write_field_keeps.
Qed.

Lemma write_row_first_column display today H ws row_idx (r : row) :
  display ≠ [] →
  is_Some (write_row display today H ws (row_idx, r) !! (row_idx, 1)).
Proof.
  destruct display as [|field display]; [done|]. intros _. unfold write_row.
  apply write_countdown_keeps. rewrite enumerate_cons. cbn [foldl].
  apply foldl_keeps; [|apply write_field_there].
  intros ws' [col_idx field']. apply write_field_keeps.
Qed.

Lemma rows_first_column display today H (rows : list row) :
  display ≠ [] →
  ∀ start ws i r,
    rows !! i = Some r →
    is_Some (foldl (write_row display today H) ws (enumerate start rows)
             !! (start + i, 1)).
Proof.
  intros Hd. induction rows as [|r0 rows IH]; intros start ws i r Hr; [done|].
  rewrite enumerate_cons. cbn [foldl]. destruct i as [|i].
  - rewrite Nat.add_0_r. apply foldl_keeps; [|by apply write_row_first_column].
    intros ws' entry. apply write_row_keeps.
  - cbn in Hr. replace (start + S i) with (S start + i) by lia. by eapply IH.
Qed.

Lemma client_sheet_max_row display today g :
  display ≠ [] → length display ≤ 13 → g_rows g ≠ [] →
  max_row (client_sheet display today g) = 2 + length (g_rows g).
Proof.
  intros Hd Hlen Hrows. apply max_row_eq.
  - exists 1. destruct (g_rows g) as [|r0 rows] eqn:Hg using rev_ind; [done|].
    clear IHrows. unfold client_sheet. rewrite Hg, length_app. cbn [length].
    replace (2 + (length rows + 1)) with (3 + length rows) by lia.
    eapply rows_first_column; [done|].
    by rewrite lookup_app_r, Nat.sub_diag.
  - intros k Hk. by destruct (client_sheet_within display today g Hlen k Hk).
Qed.

Lemma client_sheet_countdown_value display today g i (r : row) :
  g_rows g !! i = Some r →
  cell_value (client_sheet display today g) (3 + i) (S (length display))
  = countdown_value today r.
Proof.
  intros Hr. unfold cell_value, get_cell, countdown_value.
  rewrite (client_sheet_countdown _ _ _ _ _ Hr).
  destruct (days_left today (r DepositDeadline)) as [n|]; [|done].
  cbn. unfold countdown_cell. by repeat case_match.
Qed.

(** With all thirteen display columns the rollup reads the countdown
    column: a sheet contributes one row for each record whose countdown is a
    number from 0 to 30, in the order of the records. *)
Lemma sheet_deadlines_with_all_columns sheet_name display today g :
  length display = 13 → g_rows g ≠ [] →
  (λ data, s_remaining data)
    <$> sheet_deadlines sheet_name (client_sheet display today g)
  = List.filter within_month (countdown_value today <$> g_rows g).
Proof.
  intros Hd Hrows. rewrite sheet_deadlines_rows. f_equal.
  rewrite client_sheet_max_column by lia. unfold data_rows.
  rewrite client_sheet_max_row; [|by intros ->|lia|done].
  replace (2 + length (g_rows g) + 1 - 3) with (length (g_rows g)) by lia.
  apply list_eq. intros i. rewrite !list_lookup_fmap.
  destruct (g_rows g !! i) as [r|] eqn:Hr.
  - rewrite (lookup_seq_lt _ _ _ (lookup_lt_Some _ _ _ Hr)). cbn.
    rewrite <- Hd at 1. replace 14 with (S (length display)) by lia.
    by rewrite (client_sheet_countdown_value _ _ _ _ _ Hr).
  - by rewrite (lookup_seq_ge _ _ _ (proj1 (lookup_ge_None _ _) Hr)).
Qed.

End last_column.

(** C8 (the code departs from it). The export without the optional column
    Student-Number has twelve display columns: the countdown of the only
    record, 10 days, is rendered in column 13 under the countdown header,
    the mailbox link in N1 makes column 14 the last used column, and the
    rollup, which reads the last used column, collects nothing. *)
Theorem rollup_misses_countdown_without_optional_column :
  match @offer_workbook iso_date export_without_student_number may_20 with
  | Some offer_wb =>
    column_view 13 offer_wb = [(utf8 "1001", VStr COUNTDOWN_HEADER, VInt 10, 14)] ∧
    summary_data offer_wb = []
  | None => False
  end.
Proof. vm_compute. by split. Qed.

(** With every kept column in the export the countdown column is column 14
    and the same record is collected. *)
Lemma rollup_collects_countdown_with_all_columns :
  match @offer_workbook iso_date full_export may_20 with
  | Some offer_wb =>
    column_view 14 offer_wb = [(utf8 "1001", VStr COUNTDOWN_HEADER, VInt 10, 14)] ∧
    (λ data, (s_client_id data, s_remaining data)) <$> summary_data offer_wb
    = [(utf8 "1001", VInt 10)]
  | None => False
  end.
Proof. vm_compute. by split. Qed.

(** ** Validation lists *)

Section synthesizer.
Context `{IntOfStr}.
Implicit Types (so : list (nat * options)) (cs : list (Z * (pystr * pystr))).

Lemma add_option_keys n s p so : keys_of (add_option n s p so) = keys_of so.
Proof.
  unfold keys_of. induction so as [|[row o] so IH]; [done|]. cbn.
  destruct (eq_int (opt_id o) n); cbn; [done|]. by rewrite IH.
Qed.

Lemma keys_of_ids so : ids_of so = (keys_of so).*2.
Proof. unfold ids_of, keys_of. by rewrite <- list_fmap_compose. Qed.

Lemma keys_of_rows so : so.*1 = (keys_of so).*1.
Proof. unfold keys_of. by rewrite <- list_fmap_compose. Qed.

Lemma foldl_contribute_keys cs so : keys_of (foldl contribute so cs) = keys_of so.
Proof.
  revert so. induction cs as [|c cs IH]; intros so; [done|]. cbn.
  rewrite IH. apply add_option_keys.
Qed.

Lemma earlier_match_keys n so so' k :
  keys_of so = keys_of so' → earlier_match n so k = earlier_match n so' k.
Proof. intros Hk. unfold earlier_match. by rewrite !keys_of_ids, Hk. Qed.

Lemma earlier_match_cons n row o so k :
  earlier_match n ((row, o) :: so) (S k)
  = eq_int (opt_id o) n || earlier_match n so k.
Proof. done. Qed.

(** The pair goes to the first entry with the identifier and to no other. *)
Lemma add_option_lookup n s p so k row o :
  so !! k = Some (row, o) →
  add_option n s p so !! k
  = Some (row, if eq_int (opt_id o) n && negb (earlier_match n so k)
               then Options (opt_id o) ({[s]} ∪ opt_schools o)
                            ({[p]} ∪ opt_programs o)
               else o).
Proof.
  revert k. induction so as [|[row0 o0] so IH]; intros k Hk; [done|].
  cbn [add_option]. destruct k as [|k].
  - injection Hk as -> ->. unfold earlier_match. cbn.
    destruct (eq_int (opt_id o) n); by rewrite ?andb_true_r.
  - cbn in Hk. rewrite earlier_match_cons.
    destruct (eq_int (opt_id o0) n); cbn.
    + by rewrite Hk, andb_false_r.
    + by apply IH.
Qed.

(** An entry that no earlier entry shadows collects every pair of its
    identifier. *)
Lemma foldl_contribute_first cs so k row o :
  so !! k = Some (row, o) →
  (∀ n, eq_int (opt_id o) n = true → earlier_match n so k = false) →
  ∃ o', foldl contribute so cs !! k = Some (row, o') ∧
        opt_id o' = opt_id o ∧
        opt_schools o' = opt_schools o
          ∪ list_to_set ((λ c, c.2.1) <$> List.filter (λ c, eq_int (opt_id o) c.1) cs) ∧
        opt_programs o' = opt_programs o
          ∪ list_to_set ((λ c, c.2.2) <$> List.filter (λ c, eq_int (opt_id o) c.1) cs).
Proof.
  revert so o. induction cs as [|[n [s p]] cs IH]; intros so o Hk Hfirst.
  - exists o. cbn. repeat split; [done|set_solver..].
  - cbn [foldl]. unfold contribute at 2. cbn [fst snd].
    pose proof (add_option_lookup n s p so k row o Hk) as Hstep.
    destruct (eq_int (opt_id o) n) eqn:Hn.
    + rewrite (Hfirst n Hn) in Hstep. cbn in Hstep.
      destruct (IH _ _ Hstep) as (o' & Ho' & Hid & Hs & Hp).
      { cbn. intros m Hm.
        rewrite (earlier_match_keys m _ so) by apply add_option_keys. auto. }
      exists o'. split; [done|]. cbn in Hid, Hs, Hp. split; [done|].
      cbn [List.filter fst]. rewrite Hn. cbn. rewrite Hs, Hp. set_solver.
    + cbn in Hstep.
      destruct (IH _ _ Hstep) as (o' & Ho' & Hid & Hs & Hp).
      { intros m Hm.
        rewrite (earlier_match_keys m _ so) by apply add_option_keys. auto. }
      exists o'. split; [done|]. split; [done|].
      cbn [List.filter fst]. by rewrite Hn.
Qed.

(** The scan of the sheets is the fold of their contributions. *)
Lemma scan_rows_contribute n ws rows so :
  foldl (λ so row,
           let school := cell_value ws row 1 in
           let program := cell_value ws row 2 in
           if truthy school && truthy program then
             add_option n (clean_str (strip (py_str school)))
                        (clean_str (strip (py_str program))) so
           else so) so rows
  = foldl contribute so
      ((λ sp, (n, sp)) <$>
       omap (λ row,
               let school := cell_value ws row 1 in
               let program := cell_value ws row 2 in
               if truthy school && truthy program then
                 Some (clean_str (strip (py_str school)),
                       clean_str (strip (py_str program)))
               else None) rows).
Proof.
  revert so. induction rows as [|row rows IH]; intros so; [done|].
  cbn [foldl omap list_omap]. cbv zeta. rewrite IH.
  by destruct (truthy (cell_value ws row 1) && truthy (cell_value ws row 2)).
Qed.

Lemma student_options_contribute ids offer_wb :
  student_options ids offer_wb
  = foldl contribute (init_student_options ids) (contributions offer_wb).
Proof.
  unfold student_options. generalize (init_student_options ids) as so.
  induction offer_wb as [|[sheet_name ws] wb IH]; intros so; [done|].
  cbn [foldl]. rewrite IH. unfold contributions at 2. cbn [flat_map].
  fold (contributions wb). rewrite foldl_app. f_equal.
  unfold scan_sheet. destruct (is_summary_sheet sheet_name); [done|].
  destruct (int_of_str sheet_name) as [n|]; [|done].
  apply scan_rows_contribute.
Qed.

Lemma spec_option_pairs_contributions id offer_wb :
  spec_option_pairs id offer_wb
  = (λ c, c.2) <$> List.filter (λ c, eq_int id c.1) (contributions offer_wb).
Proof.
  unfold spec_option_pairs, contributions.
  induction offer_wb as [|[sheet_name ws] wb IH]; [done|].
  cbn [flat_map]. rewrite List.filter_app, fmap_app, <- IH. f_equal.
  destruct (is_summary_sheet sheet_name); [done|].
  destruct (int_of_str sheet_name) as [n|]; [|done].
  induction (sheet_pairs ws) as [|sp sps IHs].
  - by destruct (eq_int id n).
  - cbn [fmap list_fmap List.filter fst].
    destruct (eq_int id n); cbn [fmap list_fmap snd] in *; [f_equal|]; exact IHs.
Qed.

Lemma init_student_options_from ids start :
  Forall (λ entry : nat * options,
            start ≤ entry.1 ∧ opt_schools entry.2 = ∅ ∧ opt_programs entry.2 = ∅ ∧
            ∃ v, ids !! (entry.1 - start) = Some v ∧ truthy v = true ∧
                 opt_id entry.2 = extract_id_from_hyperlink v ∧
                 truthy (opt_id entry.2) = true)
         (omap (λ '(row, v),
                  if truthy v then
                    let student_id := extract_id_from_hyperlink v in
                    if truthy student_id then Some (row, Options student_id ∅ ∅)
                    else None
                  else None) (enumerate start ids)).
Proof.
  apply Forall_forall. intros [row o] ([row' v] & Hin & Hf)%list_elem_of_omap.
  apply enumerate_elem in Hin as [Hrow Hv].
  destruct (truthy v) eqn:Htv; [|done]. cbv zeta in Hf.
  destruct (truthy (extract_id_from_hyperlink v)) eqn:Hte; [|done].
  injection Hf as <- <-. cbn. repeat split; [lia|]. by exists v.
Qed.

Lemma omap_enumerate_rows_NoDup {A B} (f : nat * A → option (nat * B))
                                (l : list A) start :
  (∀ e e', f e = Some e' → e'.1 = e.1) →
  NoDup (omap f (enumerate start l)).*1.
Proof.
  intros Hf. revert start. induction l as [|x l IH]; intros start; [constructor|].
  rewrite enumerate_cons. cbn [omap list_omap].
  destruct (f (start, x)) as [e'|] eqn:He; [|apply IH].
  cbn. constructor; [|apply IH].
  rewrite (Hf _ _ He). cbn.
  intros ([row b] & Hrow & ([row' a] & Hin & Hg)%list_elem_of_omap)%list_elem_of_fmap.
  apply enumerate_elem in Hin as [Hle _]. apply Hf in Hg. cbn in *. lia.
Qed.

Lemma student_options_rows_NoDup ids offer_wb :
  NoDup (student_options ids offer_wb).*1.
Proof.
  rewrite student_options_contribute, keys_of_rows, foldl_contribute_keys,
    <- keys_of_rows.
  apply omap_enumerate_rows_NoDup. intros [row v] e' He. cbn.
  destruct (truthy v); [|done]. cbv zeta in He.
  destruct (truthy (extract_id_from_hyperlink v)); [|done]. by injection He as <-.
Qed.

(** No block and no constraint for an entry without options; the
    constraints that exist belong to entries that have some. *)
Lemma emit_options_empty school_col program_col st row o :
  opt_schools o = ∅ → opt_programs o = ∅ →
  emit_options school_col program_col st (row, o) = st.
Proof. intros Hs Hp. unfold emit_options. by rewrite Hs, Hp. Qed.

Lemma emit_validations school_col program_col so st :
  Forall (λ dv, ∃ o, (dv_row dv, o) ∈ so ∧
                     ¬ (opt_schools o = ∅ ∧ opt_programs o = ∅))
         (e_validations st) →
  Forall (λ dv, ∃ o, (dv_row dv, o) ∈ so ∧
                     ¬ (opt_schools o = ∅ ∧ opt_programs o = ∅))
         (e_validations (foldl (emit_options school_col program_col) st so)).
Proof.
  assert (Hgen : ∀ l st,
    (∀ e, e ∈ l → e ∈ so) →
    Forall (λ dv, ∃ o, (dv_row dv, o) ∈ so ∧
                       ¬ (opt_schools o = ∅ ∧ opt_programs o = ∅))
           (e_validations st) →
    Forall (λ dv, ∃ o, (dv_row dv, o) ∈ so ∧
                       ¬ (opt_schools o = ∅ ∧ opt_programs o = ∅))
           (e_validations (foldl (emit_options school_col program_col) st l))).
  { intros l. induction l as [|[row o] l IH]; intros st0 Hl Hst; [done|].
    cbn [foldl]. apply IH; [intros e He; apply Hl; by right|].
    unfold emit_options.
    destruct (bool_decide (opt_schools o = ∅) && bool_decide (opt_programs o = ∅))
      eqn:Hempty; [done|].
    assert (Ho : ∃ o', (row, o') ∈ so ∧
                       ¬ (opt_schools o' = ∅ ∧ opt_programs o' = ∅)).
    { exists o. split; [apply Hl; by left|]. intros [Hs Hp].
      by rewrite Hs, Hp in Hempty. }
    cbn [e_validations]. apply Forall_app. split; [done|]. apply Forall_app.
    split.
    - destruct (bool_decide (0 < length (elements (opt_schools o))));
        [apply Forall_singleton; exact Ho|constructor].
    - destruct (bool_decide (0 < length (elements (opt_programs o))));
        [apply Forall_singleton; exact Ho|constructor]. }
  intros Hst. by apply Hgen.
Qed.

Lemma NoDup_fst_unique {A B} (l : list (A * B)) a b b' :
  NoDup l.*1 → (a, b) ∈ l → (a, b') ∈ l → b = b'.
Proof.
  induction l as [|[x y] l IH]; cbn; intros Hnd Hb Hb'.
  - by apply elem_of_nil in Hb.
  - apply NoDup_cons in Hnd as [Hx Hnd].
    apply elem_of_cons in Hb as [Hb|Hb]; apply elem_of_cons in Hb' as [Hb'|Hb'].
    + congruence.
    + injection Hb as -> ->. destruct Hx. apply list_elem_of_fmap. by exists (x, b').
    + injection Hb' as -> ->. destruct Hx. apply list_elem_of_fmap. by exists (x, b).
    + by apply IH.
Qed.

Lemma keys_of_lookup so k row o :
  so !! k = Some (row, o) → keys_of so !! k = Some (row, opt_id o).
Proof. intros Hk. unfold keys_of. by rewrite list_lookup_fmap, Hk. Qed.

Lemma keys_of_lookup_inv so k row id :
  keys_of so !! k = Some (row, id) →
  ∃ o, so !! k = Some (row, o) ∧ opt_id o = id.
Proof.
  unfold keys_of. rewrite list_lookup_fmap.
  destruct (so !! k) as [[row' o]|]; [|done]. intros [= <- <-]. by exists o.
Qed.

Lemma init_student_options_empty ids k row o :
  init_student_options ids !! k = Some (row, o) →
  opt_schools o = ∅ ∧ opt_programs o = ∅.
Proof.
  intros Hk%list_elem_of_lookup_2.
  pose proof (init_student_options_from ids 2) as Hall.
  eapply Forall_forall in Hall; [|exact Hk]. cbn in Hall. tauto.
Qed.

End synthesizer.

(** C9 (amended). Every row of the tracking sheet whose identifier is truthy
    has an entry; the entry of the first row that carries an identifier holds
    exactly the sanitized and trimmed institutions and programs of the data
    rows (those with both cells filled) of the per-client sheets whose name
    reads as an integer equal to that identifier; an entry whose option set
    is empty writes no block into the hidden sheet and no list constraint is
    attached to its row. *)
Theorem option_sets_of_first_rows `{IntOfStr} (ids : list value)
                                  (offer_wb : workbook)
                                  (school_col program_col : nat) :
  (∀ i v, ids !! i = Some v → truthy v = true →
          truthy (extract_id_from_hyperlink v) = true →
          ∃ o, (2 + i, o) ∈ student_options ids offer_wb ∧
               opt_id o = extract_id_from_hyperlink v) ∧
  (∀ k row o, student_options ids offer_wb !! k = Some (row, o) →
     (∀ n, eq_int (opt_id o) n = true →
           earlier_match n (student_options ids offer_wb) k = false) →
     opt_schools o = spec_schools (opt_id o) offer_wb ∧
     opt_programs o = spec_programs (opt_id o) offer_wb) ∧
  (∀ row o, (row, o) ∈ student_options ids offer_wb →
     opt_schools o = ∅ → opt_programs o = ∅ →
     (∀ st, emit_options school_col program_col st (row, o) = st) ∧
     Forall (λ dv, dv_row dv ≠ row)
            (e_validations (emit_all school_col program_col
                                     (student_options ids offer_wb)))).
Proof.
  assert (Hkeys : keys_of (student_options ids offer_wb)
                  = keys_of (init_student_options ids)).
  { rewrite student_options_contribute. apply foldl_contribute_keys. }
  split; [|split].
  - intros i v Hv Htv Hte.
    assert (Hin : (2 + i, Options (extract_id_from_hyperlink v) ∅ ∅)
                  ∈ init_student_options ids).
    { apply list_elem_of_omap. exists (2 + i, v).
      split; [eapply list_elem_of_lookup_2, enumerate_lookup, Hv|].
      rewrite Htv. cbv zeta. by rewrite Hte. }
    apply list_elem_of_lookup_1 in Hin as [k Hk].
    apply keys_of_lookup in Hk. rewrite <- Hkeys in Hk.
    apply keys_of_lookup_inv in Hk as (o & Hk & Hid).
    exists o. split; [by eapply list_elem_of_lookup_2|done].
  - intros k row o Hk Hfirst.
    pose proof (keys_of_lookup _ _ _ _ Hk) as Hk0. rewrite Hkeys in Hk0.
    apply keys_of_lookup_inv in Hk0 as (o0 & Hk0 & Hid).
    destruct (init_student_options_empty _ _ _ _ Hk0) as [Hs0 Hp0].
    destruct (foldl_contribute_first (contributions offer_wb) _ _ _ _ Hk0)
      as (o' & Ho' & _ & Hs & Hp).
    { intros n Hn. rewrite <- (earlier_match_keys n _ _ k Hkeys).
      apply Hfirst. by rewrite <- Hid. }
    rewrite <- student_options_contribute, Hk in Ho'. injection Ho' as <-.
    rewrite Hs, Hp, Hs0, Hp0, Hid. unfold spec_schools, spec_programs.
    rewrite spec_option_pairs_contributions, <- !list_fmap_compose.
    split; set_solver.
  - intros row o Hin Hs Hp. split; [intros st; by apply emit_options_empty|].
    pose proof (emit_validations school_col program_col
                  (student_options ids offer_wb) (Emitted ∅ [] 1)
                  (Forall_nil_2 _)) as Hdv.
    eapply Forall_impl; [exact Hdv|]. cbn.
    intros dv (o' & Hin' & Hne) Heq. rewrite Heq in Hin'. apply Hne.
    by rewrite (NoDup_fst_unique _ _ _ _ (student_options_rows_NoDup ids offer_wb)
                  Hin' Hin).
Qed.

Lemma option_sets_of_first_rows_witness :
  ∃ o, @student_options decimal_int twice_1001 full_offer_workbook !! 0
       = Some (2, o) ∧
       opt_schools o = @spec_schools decimal_int (opt_id o) full_offer_workbook.
Proof.
  eexists. split; [vm_compute; reflexivity|].
  apply (proj1 (proj2 (@option_sets_of_first_rows decimal_int twice_1001
                         full_offer_workbook 0 0)) 0 2).
  - vm_compute. reflexivity.
  - intros n _. reflexivity.
Defined.

(** C9, as stated, fails: rows 2 and 3 of the tracking sheet both carry the
    identifier 1001 and the sheet 1001 has a data row; the option set of row
    3 stays empty although the specification's option set of 1001 is not,
    and the run attaches its two list constraints to row 2 only. *)
Lemma second_row_of_a_client_has_no_options :
  (λ entry, (entry.1, opt_id entry.2, elements (opt_schools entry.2),
             elements (opt_programs entry.2)))
    <$> @student_options decimal_int twice_1001 full_offer_workbook
  = [(2, VInt 1001, [utf8 "University of Oxford"], [utf8 "MSc CS"]);
     (3, VInt 1001, [], [])] ∧
  elements (@spec_schools decimal_int (VInt 1001) full_offer_workbook)
  = [utf8 "University of Oxford"] ∧
  elements (@spec_programs decimal_int (VInt 1001) full_offer_workbook)
  = [utf8 "MSc CS"] ∧
  match @create_offer_sheets decimal_int iso_date full_export twice_1001_cells
          20 may_20 with
  | Some out => dv_row <$> e_validations (out_options out) = [2; 2]
  | None => False
  end.
Proof. repeat split; vm_compute; reflexivity. Qed.

(** ** The examples of the specification *)

Example sheet_name_example :
  clean_sheet_name (VStr (utf8 "A[B]:C*D?E/F\G")) = utf8 "A_B__C_D_E_F_G".
Proof. vm_compute. reflexivity. Qed.

Example ranking_example :
  (λ r : row, r Result) <$> client_rows rejected_then_offer (VInt 2002)
  = [VStr (utf8 "获得UO"); VStr (utf8 "拒信")].
Proof. vm_compute. reflexivity. Qed.

Example countdown_example :
  days_between (Date 2024 6 1) (Date 2024 5 20) = 12%Z ∧
  countdown_cell 12 = Cell (VInt 12) (Some RED) (Some (Font (Some WHITE) false)) ∧
  countdown_cell 30 = Cell (VInt 30) (Some RED) (Some (Font (Some WHITE) false)) ∧
  countdown_cell 31 = Cell (VInt 31) None None ∧
  countdown_cell 0 = Cell (VInt 0) (Some GRAY) None ∧
  countdown_cell (-1) = Cell (VInt (-1)) (Some GRAY) None.
Proof. repeat split; vm_compute; reflexivity. Qed.

Example name_round_trip :
  extract_name_from_hyperlink
    (VStr (hyperlink (CRM_LINK ++ utf8 "1001") (utf8 "张三")))
  = VStr (utf8 "张三").
Proof. vm_compute. reflexivity. Qed.

(** * Further properties of the code *)

(** ** Sanitizing *)

Section sanitizer_more.

Lemma replace_char_elem old new s c :
  c ∈ replace_char old new s → c ∈ s ∨ c = new.
Proof.
  unfold replace_char. intros (c0 & -> & Hc0)%list_elem_of_fmap.
  destruct (c0 =? old)%N; [by right|by left].
Qed.

Lemma clean_str_chars s c : c ∈ clean_str s → c ∈ s ∨ c ∈ [40; 41; 32]%N.
Proof.
  unfold clean_str. cbv zeta. intros Hc.
  assert (Hf : c ∈ List.filter (λ char, (32 <=? char)%N)
                 (replace_char 13 32 (replace_char 10 32
                    (replace_char fw_rparen 41 (replace_char fw_lparen 40 s))))).
  { destruct (_ >? _)%Z; [|done]. by eapply subseteq_take. }
  apply list_elem_of_In, filter_In in Hf as [Hf%list_elem_of_In _].
  apply replace_char_elem in Hf as [Hf| ->]; [|set_solver].
  apply replace_char_elem in Hf as [Hf| ->]; [|set_solver].
  apply replace_char_elem in Hf as [Hf| ->]; [|set_solver].
  apply replace_char_elem in Hf as [Hf| ->]; [by left|set_solver].
Qed.

Lemma filter_shorter {A} (p : A → bool) l : length (List.filter p l) ≤ length l.
Proof. induction l as [|x l IH]; cbn; [done|]. destruct (p x); cbn; lia. Qed.

Lemma clean_str_shorter s : (len (clean_str s) ≤ len s)%Z.
Proof.
  unfold clean_str, len. cbv zeta.
  set (m := replace_char 13 32 _).
  assert (length m = length s) as Hm.
  { subst m. unfold replace_char. by rewrite !length_map. }
  pose proof (filter_shorter (λ char, (32 <=? char)%N) m) as Hle.
  destruct (_ >? _)%Z; rewrite ?length_take; lia.
Qed.

Lemma clean_sheet_name_fix s :
  valid_sheet_text s → clean_sheet_name (VStr s) = s.
Proof.
  intros [Hs Hlen]. unfold clean_sheet_name. cbv zeta.
  assert (Hmap : map (λ c, if sheet_forbidden c then 95%N else c) s = s).
  { clear Hlen. induction Hs as [|c s [_ Hc] _ IH]; [done|].
    cbn [map]. by rewrite Hc, IH. }
  rewrite Hmap, clean_str_fix.
  - destruct (Z.gtb_spec (len s) 31); [lia|done].
  - eapply Forall_impl; [exact Hs|]. by intros c [? _].
  - unfold EXCEL_CELL_MAX. lia.
Qed.

Lemma clean_sheet_name_valid v : valid_sheet_text (clean_sheet_name v).
Proof.
  unfold clean_sheet_name. cbv zeta.
  set (name := match v with VStr s => s | _ => py_str v end).
  set (m := map _ name). set (cl := clean_str m).
  assert (Hcl : Forall (λ c, storable c ∧ sheet_forbidden c = false) cl).
  { apply Forall_forall. intros c Hc. split.
    - pose proof (clean_str_storable m) as Hs.
      eapply Forall_forall in Hs; [exact Hs|exact Hc].
    - apply clean_str_chars in Hc as [Hc|Hc].
      + subst m. apply list_elem_of_In, in_map_iff in Hc as (c0 & <- & _).
        by destruct (sheet_forbidden c0) eqn:Hf.
      + repeat (apply elem_of_cons in Hc as [->|Hc]; [done|]).
        by apply elem_of_nil in Hc. }
  split.
  - destruct (_ >? _)%Z; [by apply Forall_take|done].
  - destruct (Z.gtb_spec (len cl) 31) as [Hgt|Hle]; [|done].
    unfold len in *. rewrite length_take. lia.
Qed.

End sanitizer_more.

(** X1. A sheet name made by [clean_sheet_name] has at most 31 characters,
    none of the characters [ ] : * ? / and backslash, no control character
    and no full-width parenthesis; cleaning it again changes nothing. *)
Theorem clean_sheet_name_idempotent_valid (v : value) :
  (len (clean_sheet_name v) ≤ 31)%Z ∧
  Forall (λ c, (32 ≤ c)%N ∧ c ∉ [91; 93; 58; 42; 63; 47; 92; fw_lparen; fw_rparen]%N)
         (clean_sheet_name v) ∧
  clean_sheet_name (VStr (clean_sheet_name v)) = clean_sheet_name v.
Proof.
  pose proof (clean_sheet_name_valid v) as Hv. split; [apply Hv|]. split.
  - destruct Hv as [Hv _]. eapply Forall_impl; [exact Hv|]. cbn.
    intros c [(H32 & Hl & Hr) Hf]. split; [done|].
    unfold sheet_forbidden in Hf. apply bool_decide_eq_false in Hf.
    change [91; 93; 58; 42; 63; 47; 92; fw_lparen; fw_rparen]%N
      with ([91; 93; 58; 42; 63; 47; 92] ++ [fw_lparen; fw_rparen])%N.
    rewrite not_elem_of_app. split; [done|].
    rewrite !not_elem_of_cons. repeat split; [done..|apply not_elem_of_nil].
  - by apply clean_sheet_name_fix.
Qed.

(** X2. A text is its own sheet name exactly when it is a valid one, and the
    link the Cross-Reference Linker writes for an identifier points at the
    title of the identifier's sheet exactly when the text of the identifier
    is a valid sheet name. *)
Theorem link_anchor_is_sheet_title_iff (id : value) :
  (clean_sheet_name (VStr (py_str id)) = py_str id ↔ valid_sheet_text (py_str id)) ∧
  (id_link id
   = hyperlink (OFFER_BOOK ++ clean_sheet_name (VStr (py_str id)) ++ utf8 "!A1")
               (py_str id)
   ↔ valid_sheet_text (py_str id)).
Proof.
  assert (Hiff : clean_sheet_name (VStr (py_str id)) = py_str id
                 ↔ valid_sheet_text (py_str id)).
  { split; [|apply clean_sheet_name_fix].
    intros <-. apply clean_sheet_name_valid. }
  split; [exact Hiff|]. rewrite <- Hiff. unfold id_link, hyperlink. split.
  - intros Heq. do 3 apply app_inv_head in Heq.
    apply app_inv_tail, app_inv_head, app_inv_tail in Heq. done.
  - by intros ->.
Qed.

(** X3. Sanitizing a string never makes it longer, and the strings it
    leaves unchanged are exactly those of at most 32767 characters without
    control characters and full-width parentheses. *)
Theorem clean_excel_value_fixed_points (s : pystr) :
  (∃ out, clean_excel_value (VStr s) = VStr out ∧ (len out ≤ len s)%Z) ∧
  (clean_excel_value (VStr s) = VStr s
   ↔ Forall (λ c, (32 ≤ c)%N ∧ c ≠ fw_lparen ∧ c ≠ fw_rparen) s ∧ (len s ≤ 32767)%Z).
Proof.
  split; [exists (clean_str s); split; [done|apply clean_str_shorter]|].
  cbn. split.
  - intros [= Heq]. split.
    + rewrite <- Heq. apply clean_str_storable.
    + rewrite <- Heq. apply clean_str_len.
  - intros [Hs Hlen]. f_equal. by apply clean_str_fix.
Qed.

(** ** The name extractor *)

Section name_extractor.

Lemma split_on_app sep a b :
  split_on sep (a ++ sep :: b) = split_on sep a ++ split_on sep b.
Proof.
  induction a as [|c a IH]; cbn.
  - by rewrite N.eqb_refl.
  - destruct (c =? sep)%N; [by rewrite IH|]. rewrite IH.
    pose proof (split_on_nonempty sep a) as Hne.
    by destruct (split_on sep a).
Qed.

(** The last two segments of a text that ends with a quoted part. *)
Lemma split_on_quoted_end prefix tail :
  dquote ∉ tail →
  rev (split_on dquote (prefix ++ dquote :: tail ++ dquote :: utf8 ")")) !! 1
  = Some tail.
Proof.
  intros Htail. rewrite split_on_app, split_on_segment by done.
  rewrite (split_on_last dquote (utf8 ")")) by by_compute.
  by rewrite rev_app_distr.
Qed.

Lemma extract_name_hyperlink_tail url pre tail :
  dquote ∉ tail → (pre = [] ∨ ∃ pre', pre = pre' ++ [dquote]) →
  extract_name_from_hyperlink (VStr (hyperlink url (pre ++ tail))) = VStr tail.
Proof.
  intros Htail Hpre. unfold extract_name_from_hyperlink.
  assert (Hstart : startswith HYPERLINK (hyperlink url (pre ++ tail)) = true)
    by apply startswith_app.
  rewrite Hstart.
  assert (Hsplit : ∃ prefix, hyperlink url (pre ++ tail)
                             = prefix ++ dquote :: tail ++ dquote :: utf8 ")").
  { unfold hyperlink. destruct Hpre as [->|[pre' ->]].
    - exists (HYPERLINK ++ utf8 "(" ++ [dquote] ++ url ++ [dquote] ++ utf8 ", ").
      by rewrite <- !app_assoc.
    - exists (HYPERLINK ++ utf8 "(" ++ [dquote] ++ url ++ [dquote] ++ utf8 ", "
              ++ [dquote] ++ pre').
      by rewrite <- !app_assoc. }
  destruct Hsplit as [prefix ->]. by rewrite split_on_quoted_end.
Qed.

End name_extractor.

(** X4. On a link formula the name extractor returns the display text when
    it holds no double quote, whatever the url is; of a display text with
    quotes it returns only what follows the last quote. *)
Theorem extract_name_after_last_quote (url pre tail : pystr) :
  dquote ∉ tail → (pre = [] ∨ ∃ pre', pre = pre' ++ [dquote]) →
  extract_name_from_hyperlink (VStr (hyperlink url (pre ++ tail))) = VStr tail.
Proof. apply extract_name_hyperlink_tail. Qed.

Lemma extract_name_after_last_quote_witness :
  extract_name_from_hyperlink
    (VStr (hyperlink (utf8 "http://x") (utf8 "张三"))) = VStr (utf8 "张三").
Proof.
  apply (extract_name_after_last_quote (utf8 "http://x") [] (utf8 "张三"));
    [by_compute|by left].
Defined.

(** X5. The rollup reads the client name back from cell A1 of the per-client
    sheet: for an export with the deadline column, when the text of the
    group's name holds no double quote, every rollup row of the sheet
    carries that text as its name and the sheet name as its client
    identifier, and its name cell is the link to the client page with that
    text. *)
Theorem rollup_rows_carry_client_name (sheet_name : pystr) (df : dataframe)
                                      (today : date) (g : client_group) :
  df_has df DepositDeadline = true →
  dquote ∉ py_str (g_name g) →
  Forall (λ data,
            s_name data = VStr (py_str (g_name g)) ∧
            s_client_id data = sheet_name ∧
            summary_cells data !! 0
            = Some (VStr (hyperlink (CRM_LINK ++ sheet_name) (py_str (g_name g)))))
         (sheet_deadlines sheet_name (client_sheet (display_columns df) today g)).
Proof.
  intros _ Hname. apply Forall_forall. intros data Hdata.
  unfold sheet_deadlines in Hdata.
  apply list_elem_of_omap in Hdata as (row & _ & Hdata). cbv zeta in Hdata.
  destruct (within_month _); [|done]. injection Hdata as <-.
  cbn [s_name s_client_id summary_cells].
  rewrite client_sheet_name_cell.
  rewrite (extract_name_hyperlink_tail _ [] (py_str (g_name g)) Hname) by by left.
  done.
Qed.

Lemma rollup_rows_carry_client_name_witness :
  Forall (λ data, s_name data = VStr (utf8 "张三"))
         (sheet_deadlines (utf8 "1001")
            (client_sheet (display_columns full_export) may_20
               (ClientGroup (VInt 1001) (VStr (utf8 "张三"))
                            [@prepare_row iso_date oxford_application]))) ∧
  length (sheet_deadlines (utf8 "1001")
            (client_sheet (display_columns full_export) may_20
               (ClientGroup (VInt 1001) (VStr (utf8 "张三"))
                            [@prepare_row iso_date oxford_application]))) = 1.
Proof.
  split; [|by vm_compute].
  eapply Forall_impl.
  - apply (rollup_rows_carry_client_name (utf8 "1001") full_export
             may_20 (ClientGroup (VInt 1001) (VStr (utf8 "张三"))
                                 [@prepare_row iso_date oxford_application])).
    + reflexivity.
    + by_compute.
  - cbn. by intros data [? _].
Defined.

(** ** Columns and preparation *)

Section columns.

Lemma filter_comm {A} (p q : A → bool) l :
  List.filter p (List.filter q l) = List.filter q (List.filter p l).
Proof.
  induction l as [|x l IH]; [done|]. cbn.
  destruct (p x) eqn:Hp, (q x) eqn:Hq; cbn; rewrite ?Hp, ?Hq, IH; done.
Qed.

Lemma display_columns_alt df :
  display_columns df
  = List.filter (df_has df)
      [School; Program; Result; StudentNumber; Admission; LanguageDone;
       Language; ReferenceDone; Reference; DepositType; DepositDeadline;
       DepositDone; DepositCond].
Proof. unfold display_columns, existing_columns. by rewrite filter_comm. Qed.

Lemma display_columns_length df : length (display_columns df) ≤ 13.
Proof. rewrite display_columns_alt. apply filter_shorter. Qed.

Lemma display_columns_elem df col :
  col ∈ display_columns df ↔ df_has df col = true ∧ col ≠ ClientId ∧ col ≠ Name.
Proof.
  rewrite display_columns_alt, list_elem_of_In, filter_In, <- list_elem_of_In.
  split.
  - intros [Hin Hhas]. split; [done|]. split; intros ->; set_solver.
  - intros (Hhas & Hid & Hname). split; [|done].
    destruct col; try done; set_solver.
Qed.

End columns.

(** X6. Whatever columns the CSV file has, the display columns are the kept
    columns the file has, without the two identity columns, in the order of
    the kept list and without repetition; there are at most 13 of them, and
    the columns found and the columns reported missing are together all the
    kept columns. *)
Theorem display_columns_of_any_export (df : dataframe) :
  (∀ col, col ∈ display_columns df
          ↔ df_has df col = true ∧ col ≠ ClientId ∧ col ≠ Name) ∧
  display_columns df `sublist_of` columns_to_keep ∧
  NoDup (display_columns df) ∧
  length (display_columns df) ≤ 13 ∧
  existing_columns df ++ missing_columns df ≡ₚ columns_to_keep.
Proof.
  split; [apply display_columns_elem|].
  assert (Hsub : ∀ (p : column → bool) l, List.filter p l `sublist_of` l).
  { intros p l. induction l as [|x l IH]; [done|]. cbn.
    destruct (p x); [by apply sublist_skip|by apply sublist_cons]. }
  assert (Hnd : NoDup columns_to_keep).
  { by_compute. }
  assert (Hd : display_columns df `sublist_of` columns_to_keep).
  { unfold display_columns, existing_columns. etrans; apply Hsub. }
  split; [exact Hd|]. split; [by eapply sublist_NoDup|].
  split; [apply display_columns_length|].
  unfold existing_columns, missing_columns. clear Hnd Hd.
  induction columns_to_keep as [|x l IH]; [done|]. cbn.
  destruct (df_has df x); cbn; [by rewrite IH|].
  by rewrite <- Permutation_middle, IH.
Qed.

(** X7. After the preparation of lines 130 and 145 no cell of a row holds
    the placeholder 未获得, the deposit deadline is never a text any more (a
    text became the date read in it, or a missing value), and preparing a
    prepared row changes nothing. *)
Theorem prepare_row_normal_form `{ToDatetime} (r : row) (col : column) :
  prepare_row r col ≠ VStr NOT_OBTAINED ∧
  match prepare_row r DepositDeadline with
  | VStr _ => False
  | _ => True
  end ∧
  prepare_row (prepare_row r) col = prepare_row r col.
Proof.
  assert (Hrep : ∀ v, replace_not_obtained v ≠ VStr NOT_OBTAINED).
  { intros v. unfold replace_not_obtained. case_bool_decide; [|done].
    by vm_compute. }
  assert (Hrep2 : ∀ v, replace_not_obtained (replace_not_obtained v)
                       = replace_not_obtained v).
  { intros v. unfold replace_not_obtained at 1.
    case_bool_decide as Heq; [|done]. by apply Hrep in Heq. }
  assert (Hparse : ∀ v, match parse_date v with
                        | VStr _ | VNaN | VNaT => False | _ => True end).
  { intros v. unfold parse_date. destruct v; cbn; try done.
    by destruct (to_datetime _). }
  assert (Hparse2 : ∀ v, parse_date (replace_not_obtained (parse_date v))
                         = parse_date v).
  { intros v. specialize (Hparse v).
    destruct (parse_date v) eqn:Hv; try done. }
  unfold prepare_row. split; [|split].
  - case_bool_decide; [|apply Hrep].
    specialize (Hparse (replace_not_obtained (r col))).
    by destruct (parse_date _).
  - rewrite bool_decide_eq_true_2 by done.
    specialize (Hparse (replace_not_obtained (r DepositDeadline))).
    by destruct (parse_date _).
  - case_bool_decide; [apply Hparse2|apply Hrep2].
Qed.

(** ** The layout of a per-client sheet *)

Section sheet_layout.
Implicit Types (ws : worksheet) (k : nat * nat).

Lemma write_field_fresh r c v ws :
  ws !! (r, c) = None →
  cell_value (write_field r c v ws) r c = rendered v.
Proof.
  intros Hfresh. unfold write_field, rendered, cell_value. cbv zeta.
  assert (Hset : get_cell (set_value r c (clean_excel_value v) ws) r c
                 = Cell (clean_excel_value v) None None).
  { unfold set_value. rewrite get_cell_insert, (get_cell_fresh _ _ _ Hfresh).
    by destruct (clean_excel_value v). }
  case_bool_decide as Hv.
  - unfold assign_value. by rewrite get_cell_insert.
  - by rewrite Hset.
Qed.

Lemma write_fields_cell row_idx (r : row) display :
  ∀ start ws j field,
    display !! j = Some field →
    (∀ c, start ≤ c → ws !! (row_idx, c) = None) →
    cell_value
      (foldl (λ ws '(col_idx, field), write_field row_idx col_idx (r field) ws)
             ws (enumerate start display)) row_idx (start + j)
    = rendered (r field).
Proof.
  induction display as [|f0 display IH]; intros start ws j field Hj Hfresh; [done|].
  rewrite enumerate_cons. cbn [foldl]. destruct j as [|j].
  - injection Hj as ->. rewrite Nat.add_0_r. unfold cell_value.
    erewrite get_cell_ext.
    + apply write_field_fresh, Hfresh. lia.
    + apply (foldl_frame _ (λ e : nat * column, S start ≤ e.1)).
      * intros ws' [col_idx f] Hcol. apply write_field_ne. cbn in Hcol.
        intros [= ?]. lia.
      * apply Forall_forall. intros [col_idx f] Hin%enumerate_elem. cbn. lia.
  - cbn in Hj. replace (start + S j) with (S start + j) by lia.
    apply IH; [done|]. intros c Hc.
    rewrite write_field_ne by (intros [= ?]; lia). apply Hfresh. lia.
Qed.

Lemma write_row_cell display today H ws row_idx (r : row) j field :
  display !! j = Some field → length display < H →
  (∀ c, ws !! (row_idx, c) = None) →
  cell_value (write_row display today H ws (row_idx, r)) row_idx (1 + j)
  = rendered (r field).
Proof.
  intros Hj HH Hfresh. unfold write_row, cell_value.
  erewrite get_cell_ext.
  - apply (write_fields_cell row_idx r display 1 ws j field Hj). auto.
  - apply write_countdown_ne. apply lookup_lt_Some in Hj. intros [= ?]. lia.
Qed.

Lemma rows_cell display today H (rows : list row) j field :
  display !! j = Some field → length display < H →
  ∀ start ws i r,
    rows !! i = Some r →
    (∀ i' c, ws !! (start + i', c) = None) →
    cell_value (foldl (write_row display today H) ws (enumerate start rows))
               (start + i) (1 + j)
    = rendered (r field).
Proof.
  intros Hj HH. induction rows as [|r0 rows IH]; intros start ws i r Hr Hfresh;
    [done|].
  rewrite enumerate_cons. cbn [foldl]. destruct i as [|i].
  - injection Hr as ->. rewrite Nat.add_0_r. unfold cell_value.
    erewrite get_cell_ext.
    + apply (write_row_cell display today H ws start r j field Hj HH).
      intros c. specialize (Hfresh 0 c). by rewrite Nat.add_0_r in Hfresh.
    + apply (foldl_frame _ (λ entry : nat * row, S start ≤ entry.1)).
      * intros ws' entry Hentry. apply write_row_other_rows. cbn. lia.
      * apply Forall_forall. intros [i' x] Hin%enumerate_elem. cbn. lia.
  - cbn in Hr. replace (start + S i) with (S start + i) by lia.
    apply IH; [done|]. intros i' c.
    rewrite write_row_other_rows by (cbn; lia).
    replace (S start + i') with (start + S i') by lia. apply Hfresh.
Qed.

Lemma header_rows_empty_below display (g : client_group) ws0 row c :
  3 ≤ row →
  ws0 = foldl write_header
          (set_font 1 EMAIL_COLUMN (Font (Some BLUE) true)
             (assign_value 1 EMAIL_COLUMN
                (VStr (hyperlink (EMAIL_LINK ++ py_str (g_id g)) (utf8 "邮箱")))
                (merge_cells_row 1 1 (length display)
                   (set_font 1 1 (Font (Some BLUE) true)
                      (assign_value 1 1
                         (VStr (hyperlink (CRM_LINK ++ py_str (g_id g))
                                          (py_str (g_name g)))) ∅)))))
          (enumerate 1 ((column_name <$> display) ++ [COUNTDOWN_HEADER])) →
  ws0 !! (row, c) = None.
Proof.
  intros Hrow ->.
  rewrite headers_frame by (cbn; lia).
  rewrite set_font_ne, assign_value_ne by (intros [=]; lia).
  rewrite merge_cells_row_ne by (left; cbn; lia).
  rewrite set_font_ne, assign_value_ne by (intros [=]; lia).
  apply lookup_empty.
Qed.

Lemma client_sheet_data_cell display today g i j (r : row) field :
  g_rows g !! i = Some r → display !! j = Some field →
  cell_value (client_sheet display today g) (3 + i) (1 + j) = rendered (r field).
Proof.
  intros Hr Hj. unfold client_sheet.
  apply rows_cell; [done| |done|].
  - rewrite length_app, length_fmap. cbn. lia.
  - intros i' c. by eapply (header_rows_empty_below display g); [lia|].
Qed.

Lemma rendered_not_placeholder v : rendered v ≠ VStr NOT_OBTAINED.
Proof.
  unfold rendered. cbv zeta. case_bool_decide; [by vm_compute|done].
Qed.

Lemma rendered_sanitized v : clean_excel_value (rendered v) = rendered v.
Proof.
  unfold rendered. cbv zeta. case_bool_decide; [by vm_compute|].
  destruct v as [| | | | |s|]; try done. cbn. f_equal.
  apply clean_str_fix; [apply clean_str_storable|apply clean_str_len].
Qed.

Lemma write_header_fresh ws col header :
  ws !! (2, col) = None →
  write_header ws (col, header) !! (2, col)
  = Some (Cell (VStr header) (Some LIGHT_GRAY) None).
Proof.
  intros Hfresh. unfold write_header, set_fill.
  rewrite lookup_insert_eq. unfold set_value.
  by rewrite get_cell_insert, (get_cell_fresh _ _ _ Hfresh).
Qed.

Lemma headers_cell (headers : list pystr) :
  ∀ start ws j header,
    headers !! j = Some header →
    (∀ c, start ≤ c → ws !! (2, c) = None) →
    foldl write_header ws (enumerate start headers) !! (2, start + j)
    = Some (Cell (VStr header) (Some LIGHT_GRAY) None).
Proof.
  induction headers as [|h0 headers IH]; intros start ws j header Hj Hfresh; [done|].
  rewrite enumerate_cons. cbn [foldl]. destruct j as [|j].
  - injection Hj as ->. rewrite Nat.add_0_r.
    rewrite (foldl_frame _ (λ e : nat * pystr, S start ≤ e.1)).
    + apply write_header_fresh, Hfresh. lia.
    + intros ws' [col h] Hcol. unfold write_header.
      rewrite set_fill_ne, set_value_ne; [done|intros [= ?]; cbn in Hcol; lia..].
    + apply Forall_forall. intros [col h] Hin%enumerate_elem. cbn. lia.
  - cbn in Hj. replace (start + S j) with (S start + j) by lia.
    apply IH; [done|]. intros c Hc. unfold write_header.
    rewrite set_fill_ne, set_value_ne by (intros [= ?]; lia). apply Hfresh. lia.
Qed.

Lemma client_sheet_header_cell display today g j header :
  ((column_name <$> display) ++ [COUNTDOWN_HEADER]) !! j = Some header →
  client_sheet display today g !! (2, 1 + j)
  = Some (Cell (VStr header) (Some LIGHT_GRAY) None).
Proof.
  intros Hj. unfold client_sheet.
  rewrite data_rows_frame by (cbn; lia).
  apply headers_cell; [done|]. intros c Hc.
  rewrite set_font_ne, assign_value_ne by (intros [=]; lia).
  rewrite merge_cells_row_ne by (left; cbn; lia).
  rewrite set_font_ne, assign_value_ne by (intros [=]; lia).
  apply lookup_empty.
Qed.

Lemma client_sheet_mailbox_cell display today g :
  cell_value (client_sheet display today g) 1 EMAIL_COLUMN
  = VStr (hyperlink (EMAIL_LINK ++ py_str (g_id g)) (utf8 "邮箱")).
Proof.
  unfold cell_value, get_cell, client_sheet.
  rewrite data_rows_frame by (cbn; lia). rewrite headers_frame by (cbn; lia).
  unfold set_font at 1. rewrite lookup_insert_eq. cbn.
  unfold assign_value. by rewrite get_cell_insert.
Qed.

End sheet_layout.

(** X8. In the sheet of a client group the cell of row 3 + i, column 1 + j
    shows field j of the display columns of record i: its sanitized value,
    or the empty text when the sanitized value is the placeholder 未获得. A
    data cell therefore never shows the placeholder, and a text it shows is
    left unchanged by the sanitizer. *)
Theorem data_cells_show_sanitized_fields (df : dataframe) (today : date)
    (g : client_group) (i j : nat) (r : row) (field : column) :
  g_rows g !! i = Some r → display_columns df !! j = Some field →
  cell_value (client_sheet (display_columns df) today g) (3 + i) (1 + j)
  = rendered (r field) ∧
  cell_value (client_sheet (display_columns df) today g) (3 + i) (1 + j)
  ≠ VStr NOT_OBTAINED ∧
  clean_excel_value
    (cell_value (client_sheet (display_columns df) today g) (3 + i) (1 + j))
  = cell_value (client_sheet (display_columns df) today g) (3 + i) (1 + j).
Proof.
  intros Hr Hj. rewrite (client_sheet_data_cell _ _ _ _ _ _ _ Hr Hj).
  split; [done|]. split; [apply rendered_not_placeholder|apply rendered_sanitized].
Qed.

Lemma data_cells_show_sanitized_fields_witness :
  cell_value (client_sheet (display_columns full_export) may_20
                (ClientGroup (VInt 1001) (VStr (utf8 "张三")) [oxford_application]))
             3 2
  = VStr (utf8 "MSc CS").
Proof.
  destruct (data_cells_show_sanitized_fields full_export may_20
              (ClientGroup (VInt 1001) (VStr (utf8 "张三")) [oxford_application])
              0 1 oxford_application Program eq_refl eq_refl) as [Hcell _].
  etrans; [exact Hcell|]. by vm_compute.
Defined.

(** X9. For an export with the deadline column, row 2 of a per-client
    sheet holds the names of the display columns in their order, followed by
    the countdown header, each on a light gray fill; the mailbox link of the
    client is in N1 whichever of the optional columns the export has. *)
Theorem header_row_and_mailbox (df : dataframe) (today : date)
                               (g : client_group) :
  df_has df DepositDeadline = true →
  (∀ j field, display_columns df !! j = Some field →
     client_sheet (display_columns df) today g !! (2, 1 + j)
     = Some (Cell (VStr (column_name field)) (Some LIGHT_GRAY) None)) ∧
  client_sheet (display_columns df) today g
    !! (2, 1 + length (display_columns df))
  = Some (Cell (VStr COUNTDOWN_HEADER) (Some LIGHT_GRAY) None) ∧
  cell_value (client_sheet (display_columns df) today g) 1 14
  = VStr (hyperlink (EMAIL_LINK ++ py_str (g_id g)) (utf8 "邮箱")).
Proof.
  intros _. split; [|split].
  - intros j field Hj. apply client_sheet_header_cell.
    rewrite lookup_app_l by (rewrite length_fmap; by eapply lookup_lt_Some).
    by rewrite list_lookup_fmap, Hj.
  - apply client_sheet_header_cell.
    rewrite lookup_app_r by (by rewrite length_fmap).
    by rewrite length_fmap, Nat.sub_diag.
  - apply client_sheet_mailbox_cell.
Qed.

Lemma header_row_and_mailbox_witness :
  client_sheet (display_columns export_without_student_number) may_20
    (ClientGroup (VInt 1001) (VStr (utf8 "张三")) [oxford_application])
    !! (2, 1 + 12)
  = Some (Cell (VStr COUNTDOWN_HEADER) (Some LIGHT_GRAY) None).
Proof.
  destruct (header_row_and_mailbox export_without_student_number may_20
              (ClientGroup (VInt 1001) (VStr (utf8 "张三")) [oxford_application]))
    as (_ & Hcountdown & _); [reflexivity|].
  exact Hcountdown.
Defined.

(** X10. For every export with the deadline column and every group with at
    least one record, the sheet of the group ends at row 2 + the number of
    records and its last used column is column 14 (N), so that the summary
    loops read the rows 3 to 2 + the number of records. *)
Theorem sheet_extent (df : dataframe) (today : date) (g : client_group) :
  df_has df DepositDeadline = true → g_rows g ≠ [] →
  max_row (client_sheet (display_columns df) today g) = 2 + length (g_rows g) ∧
  max_column (client_sheet (display_columns df) today g) = 14 ∧
  data_rows (client_sheet (display_columns df) today g)
  = seq 3 (length (g_rows g)).
Proof.
  intros Hdl Hrows.
  assert (Hne : display_columns df ≠ []).
  { intros Hnil. assert (DepositDeadline ∈ display_columns df) as Hin
      by by apply display_columns_elem.
    rewrite Hnil in Hin. by apply elem_of_nil in Hin. }
  pose proof (display_columns_length df) as Hlen.
  pose proof (client_sheet_max_row _ today g Hne Hlen Hrows) as Hmax.
  split; [done|]. split; [by apply client_sheet_max_column|].
  unfold data_rows. rewrite Hmax. f_equal. lia.
Qed.

Lemma sheet_extent_witness :
  max_row (client_sheet (display_columns export_without_student_number) may_20
             (ClientGroup (VInt 1001) (VStr (utf8 "张三")) [oxford_application]))
  = 3 ∧
  max_column (client_sheet (display_columns export_without_student_number) may_20
                (ClientGroup (VInt 1001) (VStr (utf8 "张三")) [oxford_application]))
  = 14.
Proof.
  destruct (sheet_extent export_without_student_number may_20
              (ClientGroup (VInt 1001) (VStr (utf8 "张三")) [oxford_application]))
    as (Hrow & Hcol & _); [reflexivity|discriminate|].
  by split.
Defined.

(** ** The per-client workbook *)

Section offer_workbook_sheets.
Context `{ToDatetime}.
Implicit Types (wb : workbook) (g : client_group) (sh : pystr * worksheet).

Lemma elem_of_remove_sheet title wb sh :
  sh ∈ remove_sheet title wb ↔ sh ∈ wb ∧ sh.1 ≠ title.
Proof.
  unfold remove_sheet.
  rewrite list_elem_of_In, filter_In, <- list_elem_of_In.
  by rewrite negb_true_iff, bool_decide_eq_false.
Qed.

Lemma elem_of_add_client_sheet display today wb g sh :
  sh ∈ add_client_sheet display today wb g →
  sh ∈ wb ∨ sh.2 = client_sheet display today g.
Proof.
  unfold add_client_sheet, create_sheet. cbv zeta.
  rewrite elem_of_app, list_elem_of_singleton.
  intros [Hin| ->]; [|by right]. left.
  case_bool_decide; [|done]. by apply elem_of_remove_sheet in Hin as [? _].
Qed.

Lemma sheets_built display today groups :
  ∀ wb sh, sh ∈ foldl (add_client_sheet display today) wb groups →
           sh ∈ wb ∨ ∃ g, g ∈ groups ∧ sh.2 = client_sheet display today g.
Proof.
  induction groups as [|g groups IH]; intros wb sh Hsh; [by left|].
  cbn [foldl] in Hsh. apply IH in Hsh as [Hsh|(g' & ? & ?)].
  - apply elem_of_add_client_sheet in Hsh as [?|?]; [by left|].
    right. exists g. split; [left|done].
  - right. exists g'. split; [by right|done].
Qed.

Lemma offer_workbook_sheets raw today wb sh :
  offer_workbook raw today = Some wb → sh ∈ wb →
  sh.1 ≠ utf8 "Sheet" ∧
  ∃ g, g ∈ client_groups (prepared raw) ∧
       sh.2 = client_sheet (display_columns raw) today g.
Proof.
  unfold offer_workbook. destruct (columns_usable raw); [|done].
  cbv zeta. intros [= <-] Hsh.
  assert (Hne : sh.1 ≠ utf8 "Sheet" ∧
                sh ∈ foldl (add_client_sheet (display_columns raw) today)
                           new_workbook (client_groups (prepared raw))).
  { case_bool_decide as Hs.
    - apply elem_of_remove_sheet in Hsh as [? ?]. by split.
    - split; [|done]. intros Heq. apply Hs. rewrite <- Heq.
      unfold sheetnames. apply list_elem_of_fmap. by exists sh. }
  destruct Hne as [Hne Hin]. split; [done|].
  apply sheets_built in Hin as [Hin|?]; [|done].
  apply list_elem_of_singleton in Hin. by rewrite Hin in Hne.
Qed.

Lemma collect_deadlines_nil wb :
  (∀ sh, sh ∈ wb → sheet_deadlines sh.1 sh.2 = []) → collect_deadlines wb = [].
Proof.
  unfold collect_deadlines. induction wb as [|[title ws] wb IH]; intros Hall; [done|].
  cbn [flat_map]. rewrite IH by (intros sh Hsh; apply Hall; by right).
  pose proof (Hall (title, ws)) as Hsheet. cbn in Hsheet.
  rewrite Hsheet by left. by destruct (is_summary_sheet title).
Qed.

Lemma filter_strictly_shorter {A} (p : A → bool) l x :
  x ∈ l → p x = false → length (List.filter p l) < length l.
Proof.
  induction 1 as [x l|x y l _ IH]; intros Hp; cbn.
  - rewrite Hp. pose proof (filter_shorter p l). lia.
  - specialize (IH Hp). destruct (p y); cbn; lia.
Qed.

Lemma display_columns_missing df col :
  col ≠ ClientId → col ≠ Name → df_has df col = false →
  length (display_columns df) < 13.
Proof.
  intros Hid Hname Hcol. rewrite display_columns_alt.
  eapply Nat.lt_le_trans;
    [apply (filter_strictly_shorter _ _ col); [|done]|by cbn].
  destruct col; try done; set_solver.
Qed.

Lemma rollup_without_a_column raw today wb col :
  offer_workbook raw today = Some wb →
  col ≠ ClientId → col ≠ Name → df_has raw col = false →
  summary_data wb = [].
Proof.
  intros Hwb Hid Hname Hcol. unfold summary_data.
  rewrite collect_deadlines_nil; [done|]. intros sh Hsh.
  destruct (offer_workbook_sheets _ _ _ _ Hwb Hsh) as (_ & g & _ & ->).
  apply sheet_deadlines_without_a_column. by eapply display_columns_missing.
Qed.

(** *** Integer identifiers *)

Lemma str_of_Z_inj n m : str_of_Z n = str_of_Z m → n = m.
Proof.
  intros Heq. pose proof (decimal_int_str_of_Z n) as Hn.
  rewrite Heq, decimal_int_str_of_Z in Hn. by injection Hn.
Qed.

Lemma not_numeral (s : pystr) n :
  ¬ Forall (λ c, is_digit c ∨ c = 45%N) s → str_of_Z n ≠ s.
Proof. intros Hs <-. apply Hs, str_of_Z_chars. Qed.

Lemma integer_id_title v :
  integer_id v → clean_sheet_name (VStr (py_str v)) = py_str v.
Proof. intros (n & -> & Hlen). by apply clean_sheet_name_decimal. Qed.

Lemma integer_id_inj v w :
  integer_id v → integer_id w → py_str v = py_str w → v = w.
Proof.
  intros (n & -> & _) (m & -> & _) Heq. f_equal. by apply str_of_Z_inj.
Qed.

Lemma group_ids_integer raw g :
  Forall (λ r, integer_id (r ClientId)) (df_rows raw) →
  g ∈ client_groups (prepared raw) → integer_id (g_id g).
Proof.
  intros Hids (id & Hid & Hg)%list_elem_of_omap.
  apply group_of_Some in Hg as (-> & _).
  apply unique_from_elem in Hid as [Hid _].
  apply list_elem_of_fmap in Hid as (r' & -> & Hr'). cbn in Hr'.
  apply list_elem_of_fmap in Hr' as (r & -> & Hr).
  rewrite Forall_forall in Hids. destruct (Hids r Hr) as (n & Hn & Hlen).
  exists n. split; [|done]. unfold prepare_row. by rewrite Hn.
Qed.

Lemma add_client_sheet_fresh display today wb g :
  sheet_title g ∉ sheetnames wb →
  add_client_sheet display today wb g
  = wb ++ [(sheet_title g, client_sheet display today g)].
Proof.
  intros Hfresh. unfold add_client_sheet. cbv zeta.
  fold (sheet_title g). by rewrite bool_decide_eq_false_2.
Qed.

Lemma add_fresh_sheets display today groups :
  ∀ wb, NoDup (sheet_title <$> groups) →
        (∀ g, g ∈ groups → sheet_title g ∉ sheetnames wb) →
        foldl (add_client_sheet display today) wb groups
        = wb ++ ((λ g, (sheet_title g, client_sheet display today g)) <$> groups).
Proof.
  induction groups as [|g groups IH]; intros wb Hnd Hfresh.
  - by rewrite app_nil_r.
  - rewrite fmap_cons in Hnd. apply NoDup_cons in Hnd as [Hg Hnd]. cbn [foldl].
    rewrite add_client_sheet_fresh by (apply Hfresh; left).
    rewrite IH; [by rewrite <- app_assoc|done|].
    intros g' Hg'. unfold sheetnames. rewrite fmap_app, elem_of_app.
    intros [Hin|Hin%list_elem_of_singleton].
    + by apply (Hfresh g'); [right|].
    + apply Hg. cbn in Hin. rewrite <- Hin. apply list_elem_of_fmap. by exists g'.
Qed.

Lemma remove_sheet_absent title wb :
  title ∉ sheetnames wb → remove_sheet title wb = wb.
Proof.
  unfold remove_sheet, sheetnames. induction wb as [|sh wb IH]; intros Hn; [done|].
  rewrite fmap_cons, not_elem_of_cons in Hn. destruct Hn as [Hne Hn]. cbn.
  rewrite bool_decide_eq_false_2 by done. cbn. by rewrite IH.
Qed.

Lemma integer_workbook raw today wb :
  Forall (λ r, integer_id (r ClientId)) (df_rows raw) →
  offer_workbook raw today = Some wb →
  wb = (λ g, (py_str (g_id g), client_sheet (display_columns raw) today g))
       <$> client_groups (prepared raw).
Proof.
  intros Hids. unfold offer_workbook. destruct (columns_usable raw); [|done].
  cbv zeta. fold (prepared raw).
  change (display_columns (prepared raw)) with (display_columns raw).
  assert (Htitle : ∀ g, g ∈ client_groups (prepared raw) →
                        sheet_title g = py_str (g_id g)).
  { intros g Hg. apply integer_id_title, (group_ids_integer raw g Hids Hg). }
  assert (Hnot : ∀ (s : pystr) g,
             ¬ Forall (λ c, is_digit c ∨ c = 45%N) s →
             g ∈ client_groups (prepared raw) → sheet_title g ≠ s).
  { intros s g Hs Hg. rewrite (Htitle g Hg).
    destruct (group_ids_integer raw g Hids Hg) as (n & -> & _).
    by apply not_numeral. }
  rewrite add_fresh_sheets.
  - rewrite bool_decide_eq_true_2 by (unfold sheetnames; rewrite fmap_app; set_solver).
    intros [= <-].
    transitivity
      (remove_sheet (utf8 "Sheet")
         ((λ g, (sheet_title g, client_sheet (display_columns raw) today g))
            <$> client_groups (prepared raw))); [done|].
    rewrite remove_sheet_absent.
    + apply list_fmap_ext. intros i g Hg%list_elem_of_lookup_2. by rewrite Htitle.
    + unfold sheetnames. rewrite <- list_fmap_compose.
      intros (g & Heq & Hg)%list_elem_of_fmap. cbn in Heq.
      by apply (Hnot (utf8 "Sheet") g); [by_compute|..].
  - replace (sheet_title <$> client_groups (prepared raw))
      with ((λ v, clean_sheet_name (VStr (py_str v)))
              <$> (g_id <$> client_groups (prepared raw)))
      by (by rewrite <- list_fmap_compose).
    apply NoDup_fmap_2_strong; [|apply group_keys_NoDup, unique_from_NoDup].
    intros v w (g & -> & Hg)%list_elem_of_fmap (g' & -> & Hg')%list_elem_of_fmap Heq.
    fold (sheet_title g) in Heq. fold (sheet_title g') in Heq.
    rewrite (Htitle g Hg), (Htitle g' Hg') in Heq.
    by apply integer_id_inj; [apply (group_ids_integer raw)..|].
  - intros g Hg. unfold sheetnames, new_workbook. cbn.
    rewrite list_elem_of_singleton.
    by apply (Hnot (utf8 "Sheet") g); [by_compute|].
Qed.

End offer_workbook_sheets.

(** X11. When every identifier of the export is an integer, the per-client
    workbook holds exactly one sheet for each client group, in the order of
    the groups, titled with the decimal numeral of the identifier; the
    titles are pairwise distinct and the default sheet is gone. *)
Theorem one_sheet_per_client `{ToDatetime} (raw : dataframe) (today : date)
                             (wb : workbook) :
  Forall (λ r, integer_id (r ClientId)) (df_rows raw) →
  offer_workbook raw today = Some wb →
  wb = (λ g, (py_str (g_id g), client_sheet (display_columns raw) today g))
       <$> client_groups (prepared raw) ∧
  NoDup (sheetnames wb) ∧
  (utf8 "Sheet" ∉ sheetnames wb).
Proof.
  intros Hids Hwb. split; [by apply integer_workbook|]. split.
  - rewrite (integer_workbook raw today wb Hids Hwb).
    unfold sheetnames. rewrite <- list_fmap_compose.
    replace ((fst ∘ (λ g, (py_str (g_id g),
                           client_sheet (display_columns raw) today g)))
               <$> client_groups (prepared raw))
      with (py_str <$> (g_id <$> client_groups (prepared raw)))
      by (by rewrite <- list_fmap_compose).
    apply NoDup_fmap_2_strong; [|apply group_keys_NoDup, unique_from_NoDup].
    intros v w (g & -> & Hg)%list_elem_of_fmap (g' & -> & Hg')%list_elem_of_fmap.
    by apply integer_id_inj; apply (group_ids_integer raw).
  - intros (sh & Heq & Hsh)%list_elem_of_fmap.
    by destruct (offer_workbook_sheets raw today wb sh Hwb Hsh) as [Hne _].
Qed.

Lemma one_sheet_per_client_witness :
  NoDup (sheetnames full_offer_workbook) ∧
  (utf8 "Sheet" ∉ sheetnames full_offer_workbook).
Proof.
  destruct (@one_sheet_per_client iso_date full_export may_20
              full_offer_workbook) as (_ & Hnd & Hsheet).
  - repeat constructor. exists 1001%Z. split; [reflexivity|by vm_compute].
  - by vm_compute.
  - by split.
Defined.

(** X12. A run whose export lacks one of the kept columns other than the
    identifier and the name produces an empty deadline rollup, whatever the
    records and their deadlines are: every per-client sheet then has its
    countdown left of column 14, and the rollup reads column 14. *)
Theorem rollup_empty_when_a_column_is_missing `{IntOfStr} `{ToDatetime}
    (template_df : dataframe) (id_column : list id_cell) (last_col : nat)
    (today : date) (out : outputs) (col : column) :
  create_offer_sheets template_df id_column last_col today = Some out →
  col ≠ ClientId → col ≠ Name → df_has template_df col = false →
  out_deadline_rows out = [].
Proof.
  unfold create_offer_sheets.
  destruct (offer_workbook template_df today) as [offer_wb|] eqn:Hwb; [|done].
  intros [= <-] Hid Hname Hcol. cbn.
  by rewrite (rollup_without_a_column template_df today offer_wb col).
Qed.

Lemma rollup_empty_when_a_column_is_missing_witness :
  match @create_offer_sheets decimal_int iso_date
          export_without_student_number twice_1001_cells 5 may_20 with
  | Some out => out_deadline_rows out = []
  | None => False
  end.
Proof.
  destruct (@create_offer_sheets decimal_int iso_date
              export_without_student_number twice_1001_cells 5 may_20)
    as [out|] eqn:Hout.
  - by apply (@rollup_empty_when_a_column_is_missing decimal_int iso_date
                export_without_student_number twice_1001_cells 5 may_20 out
                StudentNumber Hout).
  - by vm_compute in Hout.
Defined.

Section rollup_rows.
Context `{ToDatetime}.

Lemma omap_seq_rows {A B} (F : nat → option B) (G : A → option B) (l : list A) :
  ∀ start, (∀ i x, l !! i = Some x → F (start + i) = G x) →
           omap F (seq start (length l)) = omap G l.
Proof.
  induction l as [|x l IH]; intros start HFG; [done|]. cbn.
  rewrite <- (HFG 0 x eq_refl), Nat.add_0_r.
  rewrite (IH (S start)); [done|]. intros i y Hy.
  rewrite <- (HFG (S i) y Hy). f_equal. lia.
Qed.

Lemma sheet_deadlines_all_columns title display today g :
  length display = 13 → display !! 0 = Some School →
  display !! 1 = Some Program → g_rows g ≠ [] →
  (λ d, (s_client_id d, s_school d, s_program d, s_deadline d, s_remaining d))
    <$> sheet_deadlines title (client_sheet display today g)
  = omap (λ r, if within_month (countdown_value today r) then
                 Some (title, rendered (r School), rendered (r Program),
                       countdown_value today r, countdown_value today r)
               else None) (g_rows g).
Proof.
  intros Hlen Hschool Hprogram Hrows. unfold sheet_deadlines. cbv zeta.
  rewrite client_sheet_max_column by lia. unfold data_rows.
  rewrite client_sheet_max_row; [|by intros ->|lia|done].
  replace (2 + length (g_rows g) + 1 - 3) with (length (g_rows g)) by lia.
  rewrite list_fmap_omap. apply omap_seq_rows. intros i r Hr.
  replace 14 with (S (length display)) by lia.
  rewrite (client_sheet_countdown_value _ _ _ _ _ Hr).
  pose proof (client_sheet_data_cell display today g i 0 r School Hr Hschool) as Hs.
  pose proof (client_sheet_data_cell display today g i 1 r Program Hr Hprogram) as Hp.
  change (1 + 0) with 1 in Hs. change (1 + 1) with 2 in Hp.
  rewrite Hs, Hp. by destruct (within_month _).
Qed.

Lemma display_columns_full df :
  (∀ col, df_has df col = true) →
  display_columns df
  = [School; Program; Result; StudentNumber; Admission; LanguageDone;
     Language; ReferenceDone; Reference; DepositType; DepositDeadline;
     DepositDone; DepositCond].
Proof.
  intros Hall. rewrite display_columns_alt. cbn [List.filter]. by rewrite !Hall.
Qed.

Lemma collect_deadlines_integer raw today wb :
  (∀ col, df_has raw col = true) →
  Forall (λ r, integer_id (r ClientId)) (df_rows raw) →
  offer_workbook raw today = Some wb →
  (λ d, (s_client_id d, s_school d, s_program d, s_deadline d, s_remaining d))
    <$> collect_deadlines wb
  = flat_map (λ g, omap (rollup_entry today g) (g_rows g))
             (client_groups (prepared raw)).
Proof.
  intros Hall Hids Hwb. rewrite (integer_workbook raw today wb Hids Hwb).
  pose proof (group_ids_integer raw) as Hint.
  assert (Hne : Forall (λ g, g_rows g ≠ []) (client_groups (prepared raw))).
  { apply Forall_forall. intros g (id & _ & Hg)%list_elem_of_omap.
    by apply group_of_Some in Hg as (_ & _ & ?). }
  unfold collect_deadlines.
  induction (client_groups (prepared raw)) as [|g groups IH]; [done|].
  apply Forall_cons in Hne as [Hg Hne]. cbn [fmap list_fmap flat_map].
  rewrite fmap_app. f_equal.
  - destruct (Hint g Hids) as (n & Hn & _); [left|].
    assert (is_summary_sheet (py_str (g_id g)) = false) as ->.
    { rewrite Hn. unfold is_summary_sheet. apply bool_decide_eq_false_2. cbn [py_str].
      rewrite !elem_of_cons, elem_of_nil. intros [Heq|[Heq|[]]]; revert Heq;
        apply not_numeral; by_compute. }
    rewrite sheet_deadlines_all_columns;
      [done|by rewrite display_columns_full..|done].
  - apply IH; [|done]. intros g' Hids' Hg'. apply Hint; [done|by right].
Qed.

End rollup_rows.

(** X13. When the export has every kept column and every identifier is an
    integer, the rows collected for the deadline rollup are, group by group
    and record by record in ranked order, the records whose countdown is a
    number from 0 to 30: each with the numeral of the identifier, the
    rendered institution and program, and the countdown both as deadline
    and as remaining days. *)
Theorem rollup_rows_with_all_columns `{ToDatetime} (raw : dataframe)
                                     (today : date) (wb : workbook) :
  (∀ col, df_has raw col = true) →
  Forall (λ r, integer_id (r ClientId)) (df_rows raw) →
  offer_workbook raw today = Some wb →
  (λ d, (s_client_id d, s_school d, s_program d, s_deadline d, s_remaining d))
    <$> collect_deadlines wb
  = flat_map (λ g, omap (rollup_entry today g) (g_rows g))
             (client_groups (prepared raw)) ∧
  (λ d, (s_client_id d, s_school d, s_program d, s_deadline d, s_remaining d))
    <$> summary_data wb
  ≡ₚ flat_map (λ g, omap (rollup_entry today g) (g_rows g))
              (client_groups (prepared raw)).
Proof.
  intros Hall Hids Hwb.
  pose proof (collect_deadlines_integer raw today wb Hall Hids Hwb) as Hrows.
  split; [done|]. by rewrite summary_data_perm, Hrows.
Qed.

Lemma rollup_rows_with_all_columns_witness :
  (λ d, (s_client_id d, s_school d, s_program d, s_deadline d, s_remaining d))
    <$> collect_deadlines full_offer_workbook
  = [(utf8 "1001", VStr (utf8 "University of Oxford"), VStr (utf8 "MSc CS"),
      VInt 10, VInt 10)].
Proof.
  destruct (@rollup_rows_with_all_columns iso_date full_export may_20
              full_offer_workbook) as [Hrows _].
  - done.
  - repeat constructor. exists 1001%Z. split; [reflexivity|by vm_compute].
  - by vm_compute.
  - etrans; [exact Hrows|]. by vm_compute.
Defined.

(** ** Order and colours of the deadline rollup *)

Lemma within_month_number v :
  within_month v = true → (0 ≤ number_of v ≤ 30)%Z.
Proof.
  destruct v as [| | |b|n| |]; try done; cbn.
  - intros _. destruct b; cbn; lia.
  - intros [? ?]%andb_true_iff. lia.
Qed.

Lemma remaining_style_tiers days :
  (0 ≤ days ≤ 30)%Z →
  ∃ fill text_font,
    remaining_style days = Some (fill, text_font) ∧
    ((days ≤ 7)%Z → fill = RED ∧ text_font = Some (Font (Some WHITE) false)) ∧
    ((7 < days ≤ 14)%Z → fill = YELLOW ∧ text_font = None) ∧
    ((14 < days)%Z → fill = GREEN ∧ text_font = Some (Font (Some WHITE) false)).
Proof.
  intros Hdays. unfold remaining_style.
  destruct (Z.leb_spec days 7); [|destruct (Z.leb_spec days 14);
    [|destruct (Z.leb_spec days 30); [|lia]]];
    eexists _, _; (split; [reflexivity|]); repeat split; intros; lia || done.
Qed.

(** X14. The rows of the deadline rollup come by ascending remaining days,
    rows with the same number of days in the order in which the sheets and
    their records were read; every row holds a number from 0 to 30 and its
    remaining-days cell is always filled: red with white text up to 7 days,
    yellow from 8 to 14, green with white text from 15 to 30. *)
Theorem rollup_rows_sorted_and_coloured (offer_wb : workbook) :
  StronglySorted
    (λ a b, (number_of (s_remaining a) ≤ number_of (s_remaining b))%Z)
    (summary_data offer_wb) ∧
  (∀ k : Z,
     List.filter (λ d, bool_decide (number_of (s_remaining d) = k))
                 (summary_data offer_wb)
     = List.filter (λ d, bool_decide (number_of (s_remaining d) = k))
                   (collect_deadlines offer_wb)) ∧
  Forall (λ d,
            (0 ≤ number_of (s_remaining d) ≤ 30)%Z ∧
            ∃ fill text_font,
              remaining_style (number_of (s_remaining d))
              = Some (fill, text_font) ∧
              ((number_of (s_remaining d) ≤ 7)%Z →
                 fill = RED ∧ text_font = Some (Font (Some WHITE) false)) ∧
              ((7 < number_of (s_remaining d) ≤ 14)%Z →
                 fill = YELLOW ∧ text_font = None) ∧
              ((14 < number_of (s_remaining d))%Z →
                 fill = GREEN ∧ text_font = Some (Font (Some WHITE) false)))
         (summary_data offer_wb).
Proof.
  split; [apply summary_data_sorted|]. split.
  - intros k. unfold summary_data.
    apply (stable_sort_class _ (λ d, number_of (s_remaining d))).
    intros x y Hlt Heq. by rewrite Heq, Z.compare_refl in Hlt.
  - rewrite summary_data_perm. apply Forall_forall. intros d Hd.
    apply collect_deadlines_elem in Hd as (? & ? & ? & _ & _ & _ & Hw & _ & Hr).
    rewrite <- Hr in Hw. apply within_month_number in Hw.
    split; [done|]. by apply remaining_style_tiers.
Qed.

Lemma countdown_cell_fill n :
  c_fill (countdown_cell n)
  = if (n <=? 0)%Z then Some GRAY
    else if (n <=? 30)%Z then Some RED else None.
Proof.
  unfold countdown_cell.
  destruct (Z.leb_spec n 30), (Z.gtb_spec n 0), (Z.leb_spec n 0); cbn;
    lia || done.
Qed.

Lemma countdown_cell_red n :
  c_fill (countdown_cell n) = Some RED ↔ (0 < n ≤ 30)%Z.
Proof.
  rewrite countdown_cell_fill.
  destruct (Z.leb_spec n 0), (Z.leb_spec n 30); split; intros Hc;
    first [lia|done|injection Hc as Hc; by vm_compute in Hc].
Qed.

Lemma countdown_cell_gray n :
  c_fill (countdown_cell n) = Some GRAY ↔ (n ≤ 0)%Z.
Proof.
  rewrite countdown_cell_fill.
  destruct (Z.leb_spec n 0), (Z.leb_spec n 30); split; intros Hc;
    first [lia|done|injection Hc as Hc; by vm_compute in Hc].
Qed.

Lemma within_month_int n : within_month (VInt n) = true ↔ (0 ≤ n ≤ 30)%Z.
Proof. cbn. rewrite andb_true_iff, !Z.leb_le. done. Qed.

(** X15. A countdown is listed in the deadline rollup exactly when its cell
    in the client sheet is red, or when it is 0; a countdown that the client
    sheet shows on gray and the rollup lists all the same is 0, and the
    rollup shows it red. *)
Theorem rollup_window_and_countdown_colour (n : Z) :
  (within_month (VInt n) = true ↔
   c_fill (countdown_cell n) = Some RED ∨ n = 0%Z) ∧
  (c_fill (countdown_cell n) = Some GRAY → within_month (VInt n) = true →
   n = 0%Z ∧
   remaining_style n = Some (RED, Some (Font (Some WHITE) false))).
Proof.
  rewrite within_month_int, countdown_cell_red, countdown_cell_gray.
  split; [lia|]. intros Hle Hn. assert (n = 0%Z) as -> by lia. done.
Qed.

Lemma absent_from_part (v : value) (whole : list value) :
  v ∉ whole →
  ∀ part, bool_decide (part ⊆ whole) = true → bool_decide (v ∈ part) = false.
Proof.
  intros Hout part Hsub%bool_decide_eq_true. apply bool_decide_eq_false_2.
  intros Hin. by apply Hout, Hsub.
Qed.

(** X16. The colour rule of the result column of the VIP sheet gives the
    same fill and font as the rule of the status column of the client
    sheets, except on five statuses, on each of which the two rules
    differ. *)
Theorem status_colour_rules_agree (v : value) :
  (vip_result_style v = result_style Result v ∨ v ∈ STYLED_DIFFERENTLY) ∧
  (v ∈ STYLED_DIFFERENTLY → vip_result_style v ≠ result_style Result v).
Proof.
  split.
  - destruct (decide (v ∈ [VStr (utf8 "拒信"); VStr (utf8 "大学撤销");
                           VStr (utf8 "已递交")] ++ STYLED_DIFFERENTLY))
      as [Hin|Hout].
    + unfold STYLED_DIFFERENTLY in Hin. cbn [app] in Hin.
      repeat (apply elem_of_cons in Hin as [->|Hin]);
        [..|by apply elem_of_nil in Hin].
      all: first [left; vm_compute; reflexivity|right; by_compute].
    + left. unfold vip_result_style, result_style.
      rewrite (bool_decide_eq_true_2 (Result = Result)) by done.
      rewrite !(absent_from_part v _ Hout) by (vm_compute; reflexivity).
      by destruct (truthy v), (contains OBTAINED (py_str v)).
  - unfold STYLED_DIFFERENTLY. intros Hin.
    repeat (apply elem_of_cons in Hin as [->|Hin]);
      [..|by apply elem_of_nil in Hin].
    all: vm_compute; intros Heq; discriminate Heq.
Qed.

(** ** The retry loop of the Persistence Adapter *)

Section retry.
Context {E : Type} (save : Z → option E) (max_retries delay : Z).

Lemma save_calls_retry a (e : E) d trace :
  save_calls (SaveCall a :: Warning a e :: Sleep d :: trace)
  = a :: save_calls trace.
Proof. done. Qed.

Lemma slept_retry a (e : E) d trace :
  slept (SaveCall a :: Warning a e :: Sleep d :: trace) = (d + slept trace)%Z.
Proof. done. Qed.

Lemma retry_loop_success :
  ∀ n a k,
    a ≤ k < a + n → (Z.of_nat k < max_retries)%Z →
    save (Z.of_nat k) = None →
    (∀ j, a ≤ j < k → save (Z.of_nat j) ≠ None) →
    ∃ trace,
      retry_loop save max_retries delay (Z.of_nat <$> seq a n) = (trace, Output) ∧
      save_calls trace = Z.of_nat <$> seq a (S k - a) ∧
      slept trace = (Z.of_nat (k - a) * delay)%Z ∧
      (∀ e, ErrorMessage e ∉ trace).
Proof.
  induction n as [|n IH]; intros a k Hk Hmax Hsave Hfail; [lia|].
  cbn [seq fmap list_fmap retry_loop].
  destruct (save (Z.of_nat a)) as [e|] eqn:Ha.
  - assert (a < k) as Hlt.
    { destruct (decide (a = k)) as [->|]; [congruence|lia]. }
    rewrite (proj2 (Z.ltb_lt (Z.of_nat a) (max_retries - 1))) by lia.
    destruct (IH (S a) k) as (trace & -> & Hcalls & Hslept & Herr);
      [lia|done|done|intros j Hj; apply Hfail; lia|].
    eexists. split; [reflexivity|]. split; [|split].
    + rewrite save_calls_retry, Hcalls.
      replace (S k - a) with (S (S k - S a)) by lia. done.
    + rewrite slept_retry, Hslept.
      replace (k - a) with (S (k - S a)) by lia. rewrite Nat2Z.inj_succ. lia.
    + intros e'. rewrite !not_elem_of_cons. by repeat split.
  - assert (k = a) as ->.
    { destruct (decide (a = k)) as [|Hne]; [done|].
      destruct (Hfail a); [lia|done]. }
    eexists. split; [reflexivity|]. split; [|split].
    + replace (S a - a) with 1 by lia. done.
    + rewrite Nat.sub_diag. cbn. lia.
    + intros e'. rewrite not_elem_of_cons. split; [done|apply not_elem_of_nil].
Qed.

Lemma retry_loop_failure :
  ∀ n a,
    0 < n → Z.of_nat (a + n) = max_retries →
    (∀ j, a ≤ j < a + n → save (Z.of_nat j) ≠ None) →
    ∃ trace e,
      retry_loop save max_retries delay (Z.of_nat <$> seq a n)
      = (trace, Reraised e) ∧
      save (max_retries - 1) = Some e ∧
      save_calls trace = Z.of_nat <$> seq a n ∧
      slept trace = (Z.of_nat (n - 1) * delay)%Z ∧
      last trace = Some (ErrorMessage e).
Proof.
  induction n as [|n IH]; intros a Hn Hmax Hfail; [lia|].
  cbn [seq fmap list_fmap retry_loop].
  destruct (save (Z.of_nat a)) as [e|] eqn:Ha; [|destruct (Hfail a); [lia|done]].
  destruct n as [|n].
  - rewrite (proj2 (Z.ltb_ge (Z.of_nat a) (max_retries - 1))) by lia.
    exists [SaveCall (Z.of_nat a); ErrorMessage e], e.
    split; [done|]. split; [|by repeat split].
    by replace (max_retries - 1)%Z with (Z.of_nat a) by lia.
  - rewrite (proj2 (Z.ltb_lt (Z.of_nat a) (max_retries - 1))) by lia.
    destruct (IH (S a)) as (trace & e' & -> & Hlast & Hcalls & Hslept & Hend);
      [lia|lia|intros j Hj; apply Hfail; lia|].
    eexists _, e'. split; [reflexivity|]. split; [done|]. split; [|split].
    + by rewrite save_calls_retry, Hcalls.
    + rewrite slept_retry, Hslept.
      replace (S (S n) - 1) with (S (S n - 1)) by lia.
      rewrite Nat2Z.inj_succ. lia.
    + destruct trace as [|ev trace]; [done|]. done.
Qed.

Lemma retry_loop_outcome :
  ∀ n a,
    0 < n → Z.of_nat (a + n) = max_retries →
    (retry_loop save max_retries delay (Z.of_nat <$> seq a n)).2 ≠ NoOutput.
Proof.
  induction n as [|n IH]; intros a Hn Hmax; [lia|].
  cbn [seq fmap list_fmap retry_loop].
  destruct (save (Z.of_nat a)) as [e|]; [|done].
  destruct (Z.ltb_spec (Z.of_nat a) (max_retries - 1)); [|done].
  specialize (IH (S a)).
  destruct (retry_loop save max_retries delay (Z.of_nat <$> seq (S a) n))
    as [trace outcome]. cbn in *. apply IH; lia.
Qed.

End retry.

(** X17. When attempt [k] is the first whose save succeeds and it is one of
    the [max_retries] attempts, the buffer is returned: save was called for
    the attempts 0 to [k] and no further, the loop slept [delay] seconds
    after each of the [k] failures, and no error message is shown. *)
Theorem save_returns_at_first_success {E} (save : Z → option E)
                                      (max_retries delay k : Z) :
  (0 ≤ k < max_retries)%Z → save k = None →
  (∀ j, (0 ≤ j < k)%Z → save j ≠ None) →
  ∃ trace,
    save_workbook_with_retry save max_retries delay = (trace, Output) ∧
    save_calls trace = py_range (k + 1) ∧
    slept trace = (k * delay)%Z ∧
    (∀ e, ErrorMessage e ∉ trace).
Proof.
  intros Hk Hsave Hfail. unfold save_workbook_with_retry, py_range.
  destruct (retry_loop_success save max_retries delay
              (Z.to_nat max_retries) 0 (Z.to_nat k))
    as (trace & Hrun & Hcalls & Hslept & Herr).
  - lia.
  - lia.
  - by rewrite Z2Nat.id by lia.
  - intros j Hj. apply Hfail. lia.
  - exists trace. split; [done|]. split; [|split; [|done]].
    + rewrite Hcalls. do 2 f_equal. lia.
    + rewrite Hslept, Nat.sub_0_r, Z2Nat.id by lia. done.
Qed.

Lemma save_returns_at_first_success_witness :
  ∃ trace,
    save_workbook_with_retry
      (λ attempt, if (attempt <? 1)%Z then Some tt else None) 3 2
    = (trace, Output) ∧
    save_calls trace = py_range (1 + 1) ∧
    slept trace = (1 * 2)%Z ∧
    (∀ e, ErrorMessage e ∉ trace).
Proof.
  apply (save_returns_at_first_success
           (λ attempt, if (attempt <? 1)%Z then Some tt else None) 3 2 1).
  - lia.
  - reflexivity.
  - intros j Hj. assert (j = 0%Z) as -> by lia. discriminate.
Defined.

(** X18. When the save fails at every one of the [max_retries] attempts
    (at least one), the exception of the last attempt is raised again: save
    was called [max_retries] times, the loop slept after every failure but
    the last, and the trace ends with the error message. *)
Theorem save_gives_up_after_max_retries {E} (save : Z → option E)
                                        (max_retries delay : Z) :
  (0 < max_retries)%Z →
  (∀ j, (0 ≤ j < max_retries)%Z → save j ≠ None) →
  ∃ trace e,
    save_workbook_with_retry save max_retries delay = (trace, Reraised e) ∧
    save (max_retries - 1)%Z = Some e ∧
    save_calls trace = py_range max_retries ∧
    slept trace = ((max_retries - 1) * delay)%Z ∧
    last trace = Some (ErrorMessage e).
Proof.
  intros Hmax Hfail. unfold save_workbook_with_retry, py_range.
  destruct (retry_loop_failure save max_retries delay (Z.to_nat max_retries) 0)
    as (trace & e & Hrun & Hlast & Hcalls & Hslept & Hend).
  - lia.
  - lia.
  - intros j Hj. apply Hfail. lia.
  - exists trace, e. repeat split; [done..| |done].
    rewrite Hslept. f_equal. lia.
Qed.

Lemma save_gives_up_after_max_retries_witness :
  ∃ trace e,
    save_workbook_with_retry (λ attempt, Some (attempt * 10)%Z) 3 2
    = (trace, Reraised e) ∧
    (Some ((3 - 1) * 10) = Some e)%Z ∧
    save_calls trace = py_range 3 ∧
    slept trace = ((3 - 1) * 2)%Z ∧
    last trace = Some (ErrorMessage e).
Proof.
  apply (save_gives_up_after_max_retries (λ attempt, Some (attempt * 10)%Z) 3 2).
  - lia.
  - intros j _. discriminate.
Defined.

(** X19. The function ends without a buffer and without an exception (it
    returns None) exactly when [max_retries] is not positive, and then save
    is never called. *)
Theorem save_without_result {E} (save : Z → option E) (max_retries delay : Z) :
  ((save_workbook_with_retry save max_retries delay).2 = NoOutput
   ↔ (max_retries ≤ 0)%Z) ∧
  ((save_workbook_with_retry save max_retries delay).2 = NoOutput →
   save_workbook_with_retry save max_retries delay = ([], NoOutput)).
Proof.
  unfold save_workbook_with_retry, py_range.
  destruct (Z.le_gt_cases max_retries 0) as [Hle|Hgt].
  - replace (Z.to_nat max_retries) with 0 by lia. cbn. by repeat split.
  - pose proof (retry_loop_outcome save max_retries delay
                  (Z.to_nat max_retries) 0) as Hout.
    split; [split|]; intros; try lia; destruct Hout; try lia; done.
Qed.

(** ** The option sets and the hidden sheet *)

Section option_blocks.
Context `{IntOfStr}.
Implicit Types (so : list (nat * options)) (st : emitted)
               (cells : gmap (nat * nat) value).

Lemma add_option_paired n s p so :
  Forall (λ entry : nat * options,
            opt_schools entry.2 = ∅ ↔ opt_programs entry.2 = ∅) so →
  Forall (λ entry : nat * options,
            opt_schools entry.2 = ∅ ↔ opt_programs entry.2 = ∅)
         (add_option n s p so).
Proof.
  induction 1 as [|[row o] so Ho Hso IH]; [constructor|]. cbn.
  destruct (eq_int (opt_id o) n); constructor; try done.
  cbn. split; intros Hempty; exfalso; set_solver.
Qed.

Lemma student_options_paired ids offer_wb :
  Forall (λ entry : nat * options,
            opt_schools entry.2 = ∅ ↔ opt_programs entry.2 = ∅)
         (student_options ids offer_wb).
Proof.
  rewrite student_options_contribute.
  assert (Hinit : Forall (λ entry : nat * options,
                            opt_schools entry.2 = ∅ ↔ opt_programs entry.2 = ∅)
                         (init_student_options ids)).
  { eapply Forall_impl; [apply (init_student_options_from ids 2)|].
    intros entry (_ & -> & -> & _). done. }
  revert Hinit. generalize (init_student_options ids) as so.
  induction (contributions offer_wb) as [|c cs IH]; intros so Hso; [done|].
  cbn [foldl]. apply IH. by apply add_option_paired.
Qed.

Lemma elements_nonempty (X : gset pystr) : X ≠ ∅ → 0 < length (elements X).
Proof.
  intros HX. destruct (elements X) as [|x l] eqn:Hl; [|cbn; lia].
  by apply elements_empty_inv, leibniz_equiv in Hl.
Qed.

Lemma write_options_ne c l :
  ∀ start cells k,
    k.2 ≠ c ∨ k.1 < start →
    foldl (λ cells '(r, x), <[(r, c) := VStr x]> cells) cells (enumerate start l)
      !! k = cells !! k.
Proof.
  induction l as [|x l IH]; intros start cells k Hk; [done|].
  rewrite enumerate_cons. cbn [foldl].
  rewrite IH by (destruct Hk; [by left|right; lia]).
  apply lookup_insert_ne. intros <-. cbn in Hk. lia.
Qed.

Lemma write_options_above c l :
  ∀ start cells k,
    start + length l ≤ k.1 →
    foldl (λ cells '(r, x), <[(r, c) := VStr x]> cells) cells (enumerate start l)
      !! k = cells !! k.
Proof.
  induction l as [|x l IH]; intros start cells k Hk; [done|].
  rewrite enumerate_cons. cbn [foldl]. cbn [length] in Hk. rewrite IH by lia.
  apply lookup_insert_ne. intros <-. cbn in Hk. lia.
Qed.

Lemma write_options_lookup c l :
  ∀ start cells j x,
    l !! j = Some x →
    foldl (λ cells '(r, x), <[(r, c) := VStr x]> cells) cells (enumerate start l)
      !! (start + j, c) = Some (VStr x).
Proof.
  induction l as [|y l IH]; intros start cells j x Hx; [done|].
  rewrite enumerate_cons. cbn [foldl]. destruct j as [|j].
  - injection Hx as ->. rewrite Nat.add_0_r.
    rewrite write_options_ne by (right; cbn; lia).
    apply lookup_insert_eq.
  - cbn in Hx. replace (start + S j) with (S start + j) by lia. by apply IH.
Qed.

Lemma emit_options_block school_col program_col st row o :
  ¬ (opt_schools o = ∅ ∧ opt_programs o = ∅) →
  emit_options school_col program_col st (row, o)
  = Emitted
      (write_options 2 (S (e_current_row st)) (elements (opt_programs o))
         (write_options 1 (S (e_current_row st)) (elements (opt_schools o))
            (<[(e_current_row st, 2) :=
                 VStr (utf8 "ID_" ++ py_str (opt_id o) ++ utf8 "_专业")]>
             (<[(e_current_row st, 1) :=
                  VStr (utf8 "ID_" ++ py_str (opt_id o) ++ utf8 "_学校")]>
              (e_cells st)))))
      (e_validations st
       ++ (if bool_decide (0 < length (elements (opt_schools o))) then
             [Validation school_col row
                (range_formula (utf8 "A") (e_current_row st + 1)
                   (e_current_row st + length (elements (opt_schools o))))]
           else [])
       ++ (if bool_decide (0 < length (elements (opt_programs o))) then
             [Validation program_col row
                (range_formula (utf8 "B") (e_current_row st + 1)
                   (e_current_row st + length (elements (opt_programs o))))]
           else []))
      (e_current_row st + 1
       + Nat.max (Nat.max (length (elements (opt_schools o)))
                          (length (elements (opt_programs o)))) 1 + 1).
Proof.
  intros Hne. unfold emit_options.
  destruct (bool_decide (opt_schools o = ∅)) eqn:Hs;
    destruct (bool_decide (opt_programs o = ∅)) eqn:Hp; cbn [andb]; try done.
  apply bool_decide_eq_true in Hs, Hp. by destruct Hne.
Qed.

Lemma emit_options_below school_col program_col st entry k :
  k.1 < e_current_row st →
  e_cells (emit_options school_col program_col st entry) !! k = e_cells st !! k.
Proof.
  intros Hk. destruct entry as [row o].
  destruct (decide (opt_schools o = ∅ ∧ opt_programs o = ∅)) as [[Hs Hp]|Hne].
  - by rewrite emit_options_empty.
  - rewrite emit_options_block by done. cbn [e_cells]. unfold write_options.
    rewrite !write_options_ne by (right; lia).
    rewrite !lookup_insert_ne; [done|intros <-; cbn in Hk; lia..].
Qed.

Lemma emit_options_row_grows school_col program_col st entry :
  e_current_row st ≤ e_current_row (emit_options school_col program_col st entry).
Proof.
  destruct entry as [row o].
  destruct (decide (opt_schools o = ∅ ∧ opt_programs o = ∅)) as [[Hs Hp]|Hne].
  - by rewrite emit_options_empty.
  - rewrite emit_options_block by done. cbn [e_current_row]. lia.
Qed.

Lemma emit_options_used school_col program_col st entry :
  (∀ k, is_Some (e_cells st !! k) → k.1 < e_current_row st) →
  ∀ k, is_Some (e_cells (emit_options school_col program_col st entry) !! k) →
       k.1 < e_current_row (emit_options school_col program_col st entry).
Proof.
  intros Hused k. destruct entry as [row o].
  destruct (decide (opt_schools o = ∅ ∧ opt_programs o = ∅)) as [[Hs Hp]|Hne].
  - rewrite emit_options_empty by done. apply Hused.
  - rewrite emit_options_block by done. cbn [e_cells e_current_row].
    intros Hk.
    destruct (decide (e_current_row st + 1
                      + Nat.max (Nat.max (length (elements (opt_schools o)))
                                         (length (elements (opt_programs o)))) 1
                      + 1 ≤ k.1)) as [Hfar|]; [|lia].
    exfalso. unfold write_options in Hk.
    rewrite !write_options_above in Hk by lia.
    rewrite !lookup_insert_ne in Hk by (intros <-; cbn in Hfar; lia).
    apply Hused in Hk. lia.
Qed.

Lemma emit_all_from school_col program_col so2 :
  ∀ st, (∀ k, is_Some (e_cells st !! k) → k.1 < e_current_row st) →
        e_cells st ⊆ e_cells (foldl (emit_options school_col program_col) st so2) ∧
        e_validations st
          `prefix_of` e_validations (foldl (emit_options school_col program_col) st so2) ∧
        e_current_row st
          ≤ e_current_row (foldl (emit_options school_col program_col) st so2).
Proof.
  induction so2 as [|entry so2 IH]; intros st Hused; [done|]. cbn [foldl].
  destruct (IH (emit_options school_col program_col st entry))
    as (Hcells & Hdvs & Hrow); [by apply emit_options_used|].
  split; [|split].
  - etrans; [|exact Hcells]. apply map_subseteq_spec. intros k v Hk.
    rewrite emit_options_below; [done|]. apply Hused. by rewrite Hk.
  - etrans; [|exact Hdvs]. destruct entry as [row o].
    destruct (decide (opt_schools o = ∅ ∧ opt_programs o = ∅)) as [[Hs Hp]|Hne].
    + by rewrite emit_options_empty.
    + rewrite emit_options_block by done. cbn [e_validations].
      by apply prefix_app_r.
  - etrans; [|exact Hrow]. apply emit_options_row_grows.
Qed.

Lemma emit_all_used school_col program_col so :
  ∀ st, (∀ k, is_Some (e_cells st !! k) → k.1 < e_current_row st) →
        ∀ k, is_Some (e_cells (foldl (emit_options school_col program_col) st so) !! k) →
             k.1 < e_current_row (foldl (emit_options school_col program_col) st so).
Proof.
  induction so as [|entry so IH]; intros st Hused; [done|]. cbn [foldl].
  by apply IH, emit_options_used.
Qed.

End option_blocks.

(** X20. In every entry of the option table the institution set and the
    program set are both empty or both non-empty. So an entry either writes
    nothing at all, or it attaches two list constraints to its row, in this
    order: one on the institution column over column A and one on the
    program column over column B of its block, from the row under the block
    header down to as many rows as the set has members. *)
Theorem option_sets_fill_together `{IntOfStr} (ids : list value)
    (offer_wb : workbook) (school_col program_col : nat) :
  Forall (λ entry : nat * options,
            (opt_schools entry.2 = ∅ ↔ opt_programs entry.2 = ∅) ∧
            ∀ st,
              emit_options school_col program_col st entry = st ∨
              e_validations (emit_options school_col program_col st entry)
              = e_validations st
                ++ [Validation school_col entry.1
                      (range_formula (utf8 "A") (e_current_row st + 1)
                         (e_current_row st
                          + length (elements (opt_schools entry.2))));
                    Validation program_col entry.1
                      (range_formula (utf8 "B") (e_current_row st + 1)
                         (e_current_row st
                          + length (elements (opt_programs entry.2))))])
         (student_options ids offer_wb).
Proof.
  eapply Forall_impl; [apply student_options_paired|].
  intros [row o] Hpaired. cbn in Hpaired. split; [done|]. intros st. cbn [fst snd].
  destruct (decide (opt_schools o = ∅)) as [Hs|Hs].
  - left. apply emit_options_empty; [done|by apply Hpaired].
  - right. assert (Hp : opt_programs o ≠ ∅) by (by rewrite <- Hpaired).
    rewrite emit_options_block by (by intros [? _]). cbn [e_validations].
    by rewrite !bool_decide_eq_true_2 by (by apply elements_nonempty).
Qed.

(** X21. An entry with options writes its block at the current row [s] of
    the hidden sheet: the two headers ID_..._学校 and ID_..._专业 in row [s],
    the members of the institution set in column A and those of the program
    set in column B from row [s + 1] on; nothing above row [s] is touched,
    and the current row moves past the block and one blank row. *)
Theorem options_block_layout (school_col program_col : nat) (st : emitted)
                             (row : nat) (o : options) :
  ¬ (opt_schools o = ∅ ∧ opt_programs o = ∅) →
  e_cells (emit_options school_col program_col st (row, o)) !! (e_current_row st, 1)
  = Some (VStr (utf8 "ID_" ++ py_str (opt_id o) ++ utf8 "_学校")) ∧
  e_cells (emit_options school_col program_col st (row, o)) !! (e_current_row st, 2)
  = Some (VStr (utf8 "ID_" ++ py_str (opt_id o) ++ utf8 "_专业")) ∧
  (∀ j x, elements (opt_schools o) !! j = Some x →
     e_cells (emit_options school_col program_col st (row, o))
       !! (e_current_row st + 1 + j, 1) = Some (VStr x)) ∧
  (∀ j x, elements (opt_programs o) !! j = Some x →
     e_cells (emit_options school_col program_col st (row, o))
       !! (e_current_row st + 1 + j, 2) = Some (VStr x)) ∧
  (∀ k, k.1 < e_current_row st →
     e_cells (emit_options school_col program_col st (row, o)) !! k
     = e_cells st !! k) ∧
  e_current_row (emit_options school_col program_col st (row, o))
  = e_current_row st
    + Nat.max (Nat.max (size (opt_schools o)) (size (opt_programs o))) 1 + 2.
Proof.
  intros Hne. split; [|split; [|split; [|split; [|split]]]].
  - rewrite emit_options_block by done. cbn [e_cells]. unfold write_options.
    rewrite !write_options_ne by (right; cbn; lia).
    rewrite lookup_insert_ne by (intros [=]). apply lookup_insert_eq.
  - rewrite emit_options_block by done. cbn [e_cells]. unfold write_options.
    rewrite !write_options_ne by (right; cbn; lia).
    apply lookup_insert_eq.
  - intros j x Hx. rewrite emit_options_block by done. cbn [e_cells].
    unfold write_options. rewrite write_options_ne by (left; cbn; lia).
    replace (e_current_row st + 1 + j) with (S (e_current_row st) + j) by lia.
    by apply write_options_lookup.
  - intros j x Hx. rewrite emit_options_block by done. cbn [e_cells].
    unfold write_options.
    replace (e_current_row st + 1 + j) with (S (e_current_row st) + j) by lia.
    by apply write_options_lookup.
  - intros k Hk. by apply emit_options_below.
  - rewrite emit_options_block by done. cbn [e_current_row]. unfold size, set_size.
    cbn. lia.
Qed.

Lemma options_block_layout_witness :
  e_cells (emit_options 8 9 (Emitted ∅ [] 1)
             (2, Options (VInt 1001) {[utf8 "Oxford"]} {[utf8 "MSc CS"]}))
    !! (1, 1)
  = Some (VStr (utf8 "ID_1001_学校")).
Proof.
  destruct (options_block_layout 8 9 (Emitted ∅ [] 1) 2
              (Options (VInt 1001) {[utf8 "Oxford"]} {[utf8 "MSc CS"]}))
    as (Hheader & _).
  - intros [Hs _]. cbn in Hs.
    by apply (f_equal (λ X : gset pystr, bool_decide (utf8 "Oxford" ∈ X))) in Hs.
  - etrans; [exact Hheader|]. by vm_compute.
Defined.

(** X22. What is on the hidden sheet after the entries up to some point is
    still there, unchanged, after all the entries: a later block never
    overwrites an earlier one, the list constraints attached before stay in
    front of the later ones, and every cell in use lies above the current
    row. *)
Theorem option_blocks_are_kept (school_col program_col : nat)
                               (so1 so2 : list (nat * options)) :
  e_cells (emit_all school_col program_col so1)
    ⊆ e_cells (emit_all school_col program_col (so1 ++ so2)) ∧
  e_validations (emit_all school_col program_col so1)
    `prefix_of` e_validations (emit_all school_col program_col (so1 ++ so2)) ∧
  (∀ k, is_Some (e_cells (emit_all school_col program_col so1) !! k) →
        1 ≤ e_current_row (emit_all school_col program_col so1) ∧
        k.1 < e_current_row (emit_all school_col program_col so1)).
Proof.
  assert (Hused : ∀ k, is_Some (e_cells (emit_all school_col program_col so1) !! k) →
                       k.1 < e_current_row (emit_all school_col program_col so1)).
  { apply emit_all_used. intros k Hk. cbn in Hk. rewrite lookup_empty in Hk.
    by destruct Hk. }
  unfold emit_all in *. rewrite foldl_app.
  destruct (emit_all_from school_col program_col so2 _ Hused) as (Hcells & Hdvs & _).
  split; [done|]. split; [done|]. intros k Hk. split; [|by apply Hused].
  destruct (emit_all_from school_col program_col so1 (Emitted ∅ [] 1))
    as (_ & _ & Hrow); [|done].
  intros k' Hk'. cbn in Hk'. rewrite lookup_empty in Hk'. by destruct Hk'.
Qed.

(** ** What the synthesizer reads in a client sheet *)

Section scanned_columns.
Context `{IntOfStr}.

Lemma foldl_seq_rows {A B} (F : B → nat → B) (G : B → A → B) (l : list A) :
  ∀ start s, (∀ i x s', l !! i = Some x → F s' (start + i) = G s' x) →
             foldl F s (seq start (length l)) = foldl G s l.
Proof.
  induction l as [|x l IH]; intros start s HFG; [done|]. cbn.
  rewrite <- (HFG 0 x s eq_refl), Nat.add_0_r.
  apply IH. intros i y s' Hy. rewrite <- (HFG (S i) y s' Hy). f_equal. lia.
Qed.

Lemma scan_client_sheet df today g f0 f1 so title n :
  display_columns df !! 0 = Some f0 → display_columns df !! 1 = Some f1 →
  g_rows g ≠ [] →
  is_summary_sheet title = false → int_of_str title = Some n →
  scan_sheet so (title, client_sheet (display_columns df) today g)
  = foldl (λ so r,
             if truthy (rendered (r f0)) && truthy (rendered (r f1)) then
               add_option n (clean_str (strip (py_str (rendered (r f0)))))
                          (clean_str (strip (py_str (rendered (r f1))))) so
             else so) so (g_rows g).
Proof.
  intros H0 H1 Hrows Hsummary Hint. unfold scan_sheet.
  rewrite Hsummary, Hint. unfold data_rows.
  rewrite client_sheet_max_row;
    [|intros Hnil; by rewrite Hnil in H0|apply display_columns_length|done].
  replace (2 + length (g_rows g) + 1 - 3) with (length (g_rows g)) by lia.
  apply foldl_seq_rows. intros i r s' Hr. cbv zeta.
  pose proof (client_sheet_data_cell (display_columns df) today g i 0 r f0 Hr H0)
    as Hs.
  pose proof (client_sheet_data_cell (display_columns df) today g i 1 r f1 Hr H1)
    as Hp.
  change (1 + 0) with 1 in Hs. change (1 + 1) with 2 in Hp.
  by rewrite Hs, Hp.
Qed.

Lemma first_display_column df f0 :
  display_columns df !! 0 = Some f0 → (f0 = School ↔ df_has df School = true).
Proof.
  intros Hf0. split.
  - intros ->. apply list_elem_of_lookup_2 in Hf0.
    by apply display_columns_elem in Hf0 as [? _].
  - intros Hschool. rewrite display_columns_alt in Hf0.
    cbn [List.filter] in Hf0. rewrite Hschool in Hf0. by injection Hf0.
Qed.

End scanned_columns.

(** X23. The synthesizer takes the options of a client from the first two
    columns of the client sheet, whatever fields they hold: the scan of the
    sheet is the fold, over the ranked records of the group, that adds the
    trimmed and sanitized rendered values of the first two display columns
    whenever both are truthy. The first of them is the institution exactly
    when the export has the institution column. *)
Theorem options_come_from_first_two_columns `{IntOfStr} (df : dataframe)
    (today : date) (g : client_group) (f0 f1 : column)
    (so : list (nat * options)) (title : pystr) (n : Z) :
  display_columns df !! 0 = Some f0 → display_columns df !! 1 = Some f1 →
  g_rows g ≠ [] →
  is_summary_sheet title = false → int_of_str title = Some n →
  scan_sheet so (title, client_sheet (display_columns df) today g)
  = foldl (λ so r,
             if truthy (rendered (r f0)) && truthy (rendered (r f1)) then
               add_option n (clean_str (strip (py_str (rendered (r f0)))))
                          (clean_str (strip (py_str (rendered (r f1))))) so
             else so) so (g_rows g) ∧
  (f0 = School ↔ df_has df School = true).
Proof.
  intros H0 H1 Hrows Hsummary Hint.
  split; [by apply scan_client_sheet|by apply first_display_column].
Qed.

Lemma options_come_from_first_two_columns_witness :
  (λ entry : nat * options,
     (elements (opt_schools entry.2), elements (opt_programs entry.2)))
    <$> @scan_sheet decimal_int [(2, Options (VInt 1001) ∅ ∅)]
          (utf8 "1001",
           client_sheet (display_columns export_without_school) may_20
             (ClientGroup (VInt 1001) (VStr (utf8 "张三")) [oxford_application]))
  = [([utf8 "MSc CS"], [utf8 "获得CAS/COE"])].
Proof.
  destruct (@options_come_from_first_two_columns decimal_int
              export_without_school may_20
              (ClientGroup (VInt 1001) (VStr (utf8 "张三")) [oxford_application])
              Program Result [(2, Options (VInt 1001) ∅ ∅)] (utf8 "1001") 1001)
    as [Hscan _]; [reflexivity|reflexivity|discriminate|reflexivity|reflexivity|].
  rewrite Hscan. by vm_compute.
Defined.

(** ** The ranked order of a group *)

Lemma StronglySorted_weaken {A} (R S : A → A → Prop) l :
  (∀ x y, R x y → S x y) → StronglySorted R l → StronglySorted S l.
Proof.
  intros HRS. induction 1 as [|x l _ IH Hx]; constructor; [done|].
  eapply Forall_impl; [exact Hx|]. intros y. apply HRS.
Qed.

Lemma rank_compare_priority a b :
  rank_compare a b ≠ Gt →
  (result_priority (a Result) ≤ result_priority (b Result))%Z.
Proof.
  unfold rank_compare.
  destruct (Z.compare_spec (result_priority (a Result))
                           (result_priority (b Result))); [lia|lia|done].
Qed.

(** X24. In every client group the records are a rearrangement of the
    records of the export with the identifier of the group, and they come
    in ranked order: the priority numbers of their statuses (1 for
    获得CAS/COE up to 5 for 大学撤销, 6 otherwise) never decrease from one
    record to any later one, and neither does the pair of priority and
    status. *)
Theorem groups_are_ranked (df : dataframe) :
  Forall (λ g,
            g_rows g ≡ₚ rows_of_client df (g_id g) ∧
            StronglySorted (λ a b, rank_compare a b ≠ Gt) (g_rows g) ∧
            StronglySorted
              (λ a b, (result_priority (a Result)
                       ≤ result_priority (b Result))%Z) (g_rows g))
         (client_groups df).
Proof.
  apply Forall_forall. intros g (id & _ & Hg)%list_elem_of_omap.
  apply group_of_Some in Hg as (-> & -> & _).
  split; [apply sort_values_perm|].
  split; [apply client_rows_sorted|].
  eapply StronglySorted_weaken; [apply rank_compare_priority|].
  apply client_rows_sorted.
Qed.
